(** * Image Text Composer: document / interaction engine

    A shallow embedding of the editor's core
    ([src/app/page.tsx], [src/components/Canvas.tsx],
    [src/components/TextProperties.tsx], [src/components/LayersPanel.tsx],
    [src/lib/utils.ts], [src/types/index.ts]) together with the properties its
    specification states about it.

    Conventions of the embedding.
    - A JavaScript [number] that carries a coordinate, a size, an opacity or a
      scale is an exact rational ([Q]); rounding errors of IEEE doubles, NaN
      and the infinities are outside the model.  [zIndex] and the history
      cursor only ever hold integers and are [Z].
    - A string is held as its UTF-8 text.
    - [null] is [None]; a test [!v] on a [string | null] is [negb (truthy v)].
    - React state is passed explicitly: a handler is a function from the state
      it reads to the state it leaves.  A callback belongs to the render that
      created it and closes over the state of that render; when a handler makes
      two state updates, the second updater runs on the state the first one
      left, with the callbacks of the same render.
    - [Math.random()] and the browser (2D context, image decoding, text
      measurement) are inputs of the functions that use them. *)

From Stdlib Require Import List ZArith QArith Qround Qabs String Ascii Bool Lia Lqa.
From Stdlib Require Import Permutation Sorted.
Import ListNotations.

Set Implicit Arguments.

Local Open Scope Z_scope.

(** ** JavaScript primitives used by the sources *)

Module JS.

(** [v] as a condition, for [v : string | null]: [null] and the empty string
    are falsy. *)
Definition truthy (v : option string) : bool :=
  match v with
  | Some s => negb (String.eqb s EmptyString)
  | None => false
  end.

(** [a.length] *)
Definition len {A} (a : list A) : Z := Z.of_nat (List.length a).

(** [a.slice(0, e)]: a negative [e] counts from the end, and the result is
    clamped to the array. *)
Definition slice0 {A} (a : list A) (e : Z) : list A :=
  if e <? 0 then firstn (Z.to_nat (len a + e)) a else firstn (Z.to_nat e) a.

(** [a[i]]: [undefined] (here [None]) outside the array. *)
Definition index {A} (a : list A) (i : Z) : option A :=
  if i <? 0 then None else nth_error a (Z.to_nat i).

(** [a.shift()] as used for its effect on [a]. *)
Definition shift {A} (a : list A) : list A := tl a.

(** [a.sort(cmp)]: the sort is stable (ECMAScript 2019); [x] stays before
    [y] unless [cmp x y > 0].  Written as a stable insertion sort: any stable
    sort returns the same array. *)
Fixpoint insert {A} (cmp : A -> A -> Z) (x : A) (l : list A) : list A :=
  match l with
  | [] => [x]
  | y :: l' => if cmp x y <=? 0 then x :: l else y :: insert cmp x l'
  end.

Fixpoint sort {A} (cmp : A -> A -> Z) (l : list A) : list A :=
  match l with
  | [] => []
  | x :: l' => insert cmp x (sort cmp l')
  end.

(** [a.map((v, i) => f(v, i))], with the index counted from [i0]. *)
Fixpoint mapi_from {A B} (f : A -> Z -> B) (i0 : Z) (l : list A) : list B :=
  match l with
  | [] => []
  | v :: l' => f v i0 :: mapi_from f (i0 + 1) l'
  end.

Definition mapi {A B} (f : A -> Z -> B) (l : list A) : list B :=
  mapi_from f 0 l.

(** [a.find(p)] *)
Definition find {A} (p : A -> bool) (l : list A) : option A := List.find p l.

(** [Math.round]: the nearest integer, halves going up. *)
Definition Math_round (v : Q) : Z := Qfloor (v + (1 # 2))%Q.

(** [a < b] and [a > b] on numbers. *)
Definition ltb (a b : Q) : bool := negb (Qle_bool b a).

(** A string is held as its UTF-8 text, the way string literals are.  The
    code points [String.prototype.trim] removes: ECMAScript's WhiteSpace
    (TAB, VT, FF, SP, NBSP, ZWNBSP and the space separators of Unicode) and
    LineTerminator (LF, CR, LS, PS). *)
Definition white_space_code_points : list N :=
  [0x9; 0xA; 0xB; 0xC; 0xD; 0x20; 0xA0; 0x1680;
   0x2000; 0x2001; 0x2002; 0x2003; 0x2004; 0x2005; 0x2006; 0x2007; 0x2008;
   0x2009; 0x200A; 0x2028; 0x2029; 0x202F; 0x205F; 0x3000; 0xFEFF]%N.

(** The UTF-8 text of a code point. *)
Definition utf8 (cp : N) : string :=
  (if cp <? 0x80 then String (ascii_of_N cp) EmptyString
   else if cp <? 0x800 then
     String (ascii_of_N (0xC0 + cp / 0x40))
       (String (ascii_of_N (0x80 + cp mod 0x40)) EmptyString)
   else if cp <? 0x10000 then
     String (ascii_of_N (0xE0 + cp / 0x1000))
       (String (ascii_of_N (0x80 + (cp / 0x40) mod 0x40))
          (String (ascii_of_N (0x80 + cp mod 0x40)) EmptyString))
   else
     String (ascii_of_N (0xF0 + cp / 0x40000))
       (String (ascii_of_N (0x80 + (cp / 0x1000) mod 0x40))
          (String (ascii_of_N (0x80 + (cp / 0x40) mod 0x40))
             (String (ascii_of_N (0x80 + cp mod 0x40)) EmptyString))))%N.

Definition white_space : list string := map utf8 white_space_code_points.

(** [s] without the leading [w], when it starts with [w]. *)
Fixpoint strip_prefix (w s : string) : option string :=
  match w with
  | EmptyString => Some s
  | String a w' =>
      match s with
      | String b s' => if Ascii.eqb a b then strip_prefix w' s' else None
      | EmptyString => None
      end
  end.

Fixpoint strip_any (ws : list string) (s : string) : option string :=
  match ws with
  | [] => None
  | w :: ws' =>
      match strip_prefix w s with
      | Some r => Some r
      | None => strip_any ws' s
      end
  end.

(** [s] without its first character, when that is white space. *)
Definition strip_space (s : string) : option string := strip_any white_space s.

(** [s.trimStart()]: leading white space is removed one character at a
    time; the length of [s] bounds the number of steps. *)
Fixpoint trim_start_from (fuel : nat) (s : string) : string :=
  match fuel with
  | O => s
  | Datatypes.S fuel' =>
      match strip_space s with
      | Some r => trim_start_from fuel' r
      | None => s
      end
  end.

Definition trim_start (s : string) : string :=
  trim_start_from (String.length s) s.

(** [s] is empty or white space from its first character to its last. *)
Fixpoint blank_from (fuel : nat) (s : string) : bool :=
  match s with
  | EmptyString => true
  | String _ _ =>
      match fuel with
      | O => false
      | Datatypes.S fuel' =>
          match strip_space s with
          | Some r => blank_from fuel' r
          | None => false
          end
      end
  end.

Definition blank (s : string) : bool := blank_from (String.length s) s.

(** [s.trimEnd()]: the text is cut where all that follows is white space. *)
Fixpoint trim_end (s : string) : string :=
  match s with
  | EmptyString => EmptyString
  | String c s' => if blank s then EmptyString else String c (trim_end s')
  end.

(** [s.trim()] *)
Definition trim (s : string) : string := trim_end (trim_start s).

End JS.

(** ** History manager ([page.tsx], lines 37-38, 44, 112-158) *)

Section History.

(** The type of a snapshot; the application stores [CanvasState]s. *)
Variable S : Type.

Definition MAX_HISTORY_STEPS : Z := 20.

(** The two pieces of React state [history] and [historyIndex]. *)
Record HistoryState := mkHistory {
  history : list S;
  historyIndex : Z
}.

(** [useState<CanvasState[]>([])], [useState(-1)] *)
Definition initialHistory : HistoryState := mkHistory [] (-1).

(** [addToHistory] (lines 112-142).  The callback closes over the
    [historyIndex] of the render that created it ([closureIndex]); the
    updater of the cursor reads the current cursor [prevIndex], the updater
    of the array reads [closureIndex]. *)
Definition addToHistory (closureIndex : Z) (newState : S) (prev : HistoryState)
  : HistoryState :=
  let prevHistory := history prev in
  let prevIndex := historyIndex prev in
  let newIndex :=
    let newHistory := JS.slice0 prevHistory (prevIndex + 1) ++ [newState] in
    let newIndex := JS.len newHistory - 1 in
    if JS.len newHistory >? MAX_HISTORY_STEPS
    then MAX_HISTORY_STEPS - 1
    else newIndex in
  let newHistory := JS.slice0 prevHistory (closureIndex + 1) ++ [newState] in
  let newHistory :=
    if JS.len newHistory >? MAX_HISTORY_STEPS
    then JS.shift newHistory
    else newHistory in
  mkHistory newHistory newIndex.

(** A record from the current render: [addToHistory] called through the
    callback of the render that shows the current cursor, which is what the
    dependency list [[historyIndex]] of the callback provides to the first
    state update of an event. *)
Definition record (h : HistoryState) (newState : S) : HistoryState :=
  addToHistory (historyIndex h) newState h.

(** The array [record] builds before it enforces the bound. *)
Definition appended (h : HistoryState) (s : S) : list S :=
  firstn (Z.to_nat (historyIndex h + 1)) (history h) ++ [s].

(** A sequence of such records, oldest first. *)
Definition records (h : HistoryState) (ss : list S) : HistoryState :=
  fold_left record ss h.

(** [canUndo] and [canRedo] (lines 369-370) *)
Definition canUndo (h : HistoryState) : bool := historyIndex h >? 0.
Definition canRedo (h : HistoryState) : bool :=
  historyIndex h <? JS.len (history h) - 1.

(** A history in step: a cursor inside the array (or [-1] on the empty one)
    and at most [MAX_HISTORY_STEPS] entries. *)
Definition history_wf (h : HistoryState) : Prop :=
  JS.len (history h) <= MAX_HISTORY_STEPS /\
  -1 <= historyIndex h < JS.len (history h).

End History.

Arguments initialHistory {S}.

(** ** Data model ([src/types/index.ts]) *)

Inductive TextAlign := AlignLeft | AlignCenter | AlignRight.

(** [TextLayer].  Fields carry the prefix [l_]; the optional ones are
    [option]s. *)
Record TextLayer := mkTextLayer {
  l_id : string;
  l_text : string;
  l_x : Q;
  l_y : Q;
  l_width : Q;
  l_height : Q;
  l_rotation : Q;
  l_fontSize : Q;
  l_fontFamily : string;
  l_fontWeight : string;
  l_color : string;
  l_opacity : Q;
  l_textAlign : TextAlign;
  l_isSelected : bool;
  l_zIndex : Z;
  l_isVisible : bool;
  l_scale : option Q;
  l_shadowColor : option string;
  l_shadowBlur : option Q;
  l_shadowOffsetX : option Q;
  l_shadowOffsetY : option Q;
  l_backgroundColor : option string;
  l_borderWidth : option Q;
  l_borderColor : option string
}.

(** [Partial<TextLayer>]: [None] is an absent key. *)
Record PartialTextLayer := mkPartialTextLayer {
  p_id : option string;
  p_text : option string;
  p_x : option Q;
  p_y : option Q;
  p_width : option Q;
  p_height : option Q;
  p_rotation : option Q;
  p_fontSize : option Q;
  p_fontFamily : option string;
  p_fontWeight : option string;
  p_color : option string;
  p_opacity : option Q;
  p_textAlign : option TextAlign;
  p_isSelected : option bool;
  p_zIndex : option Z;
  p_isVisible : option bool;
  p_scale : option (option Q);
  p_shadowColor : option (option string);
  p_shadowBlur : option (option Q);
  p_shadowOffsetX : option (option Q);
  p_shadowOffsetY : option (option Q);
  p_backgroundColor : option (option string);
  p_borderWidth : option (option Q);
  p_borderColor : option (option string)
}.

(** The key of [updates] when present, the one of the layer otherwise. *)
Definition pick {A} (u : option A) (v : A) : A :=
  match u with Some w => w | None => v end.

(** [{ ...layer, ...updates }] *)
Definition spread (layer : TextLayer) (updates : PartialTextLayer) : TextLayer :=
  {| l_id := pick (p_id updates) (l_id layer);
     l_text := pick (p_text updates) (l_text layer);
     l_x := pick (p_x updates) (l_x layer);
     l_y := pick (p_y updates) (l_y layer);
     l_width := pick (p_width updates) (l_width layer);
     l_height := pick (p_height updates) (l_height layer);
     l_rotation := pick (p_rotation updates) (l_rotation layer);
     l_fontSize := pick (p_fontSize updates) (l_fontSize layer);
     l_fontFamily := pick (p_fontFamily updates) (l_fontFamily layer);
     l_fontWeight := pick (p_fontWeight updates) (l_fontWeight layer);
     l_color := pick (p_color updates) (l_color layer);
     l_opacity := pick (p_opacity updates) (l_opacity layer);
     l_textAlign := pick (p_textAlign updates) (l_textAlign layer);
     l_isSelected := pick (p_isSelected updates) (l_isSelected layer);
     l_zIndex := pick (p_zIndex updates) (l_zIndex layer);
     l_isVisible := pick (p_isVisible updates) (l_isVisible layer);
     l_scale := pick (p_scale updates) (l_scale layer);
     l_shadowColor := pick (p_shadowColor updates) (l_shadowColor layer);
     l_shadowBlur := pick (p_shadowBlur updates) (l_shadowBlur layer);
     l_shadowOffsetX := pick (p_shadowOffsetX updates) (l_shadowOffsetX layer);
     l_shadowOffsetY := pick (p_shadowOffsetY updates) (l_shadowOffsetY layer);
     l_backgroundColor := pick (p_backgroundColor updates) (l_backgroundColor layer);
     l_borderWidth := pick (p_borderWidth updates) (l_borderWidth layer);
     l_borderColor := pick (p_borderColor updates) (l_borderColor layer) |}.

(** [{}] *)
Definition noUpdates : PartialTextLayer :=
  mkPartialTextLayer None None None None None None None None None None None None
    None None None None None None None None None None None None.

(** [{ ...layer, zIndex: z }] *)
Definition with_zIndex (layer : TextLayer) (z : Z) : TextLayer :=
  spread layer
    (mkPartialTextLayer None None None None None None None None None None None None
       None None (Some z) None None None None None None None None None).

(** [{ ...layer, x: x, y: y }] *)
Definition with_position (layer : TextLayer) (x y : Q) : TextLayer :=
  spread layer
    (mkPartialTextLayer None None (Some x) (Some y) None None None None None None
       None None None None None None None None None None None None None None).

(** [{ ...layer, rotation: r }] *)
Definition with_rotation (layer : TextLayer) (r : Q) : TextLayer :=
  spread layer
    (mkPartialTextLayer None None None None None None (Some r) None None None
       None None None None None None None None None None None None None None).

(** [{ ...layer, text: t, width: w, height: h }] *)
Definition with_text (layer : TextLayer) (t : string) (w h : Q) : TextLayer :=
  spread layer
    (mkPartialTextLayer None (Some t) None None (Some w) (Some h) None None None
       None None None None None None None None None None None None None None None).

(** [{ ...layer, id: i, x: x, y: y, zIndex: z }] *)
Definition with_clone (layer : TextLayer) (i : string) (x y : Q) (z : Z)
  : TextLayer :=
  spread layer
    (mkPartialTextLayer (Some i) None (Some x) (Some y) None None None None None
       None None None None None (Some z) None None None None None None None None
       None).

(** [CanvasState], the document. *)
Record CanvasState := mkCanvasState {
  image : option string;
  imageWidth : Q;
  imageHeight : Q;
  textLayers : list TextLayer;
  selectedLayerId : option string
}.

(** [Partial<CanvasState>] *)
Record PartialCanvasState := mkPartialCanvasState {
  pc_image : option (option string);
  pc_imageWidth : option Q;
  pc_imageHeight : option Q;
  pc_textLayers : option (list TextLayer);
  pc_selectedLayerId : option (option string)
}.

(** [{ ...prevState, ...updates }] *)
Definition spreadCanvas (prevState : CanvasState) (updates : PartialCanvasState)
  : CanvasState :=
  {| image := pick (pc_image updates) (image prevState);
     imageWidth := pick (pc_imageWidth updates) (imageWidth prevState);
     imageHeight := pick (pc_imageHeight updates) (imageHeight prevState);
     textLayers := pick (pc_textLayers updates) (textLayers prevState);
     selectedLayerId := pick (pc_selectedLayerId updates) (selectedLayerId prevState) |}.

(** [{ textLayers: ls }] *)
Definition only_textLayers (ls : list TextLayer) : PartialCanvasState :=
  mkPartialCanvasState None None None (Some ls) None.

Inductive ExportFormat := png | jpg.

(** [ExportOptions] *)
Record ExportOptions := mkExportOptions {
  format : ExportFormat;
  quality : Q;
  scale : Q
}.

(** ** Layer utilities ([src/lib/utils.ts]) *)

(** [createDefaultTextLayer(x, y)]; [newId] is the value of [generateId()]. *)
Definition createDefaultTextLayer (newId : string) (x y : Q) : TextLayer :=
  {| l_id := newId;
     l_text := "Double click to edit";
     l_x := x;
     l_y := y;
     l_width := 200;
     l_height := 50;
     l_rotation := 0;
     l_fontSize := 24;
     l_fontFamily := "Arial";
     l_fontWeight := "normal";
     l_color := "#000000";
     l_opacity := 1;
     l_textAlign := AlignLeft;
     l_isSelected := false;
     l_zIndex := 0;
     l_isVisible := true;
     l_scale := Some 1%Q;
     l_shadowColor := Some "#000000"%string;
     l_shadowBlur := Some 0%Q;
     l_shadowOffsetX := Some 0%Q;
     l_shadowOffsetY := Some 0%Q;
     l_backgroundColor := Some "transparent"%string;
     l_borderWidth := Some 0%Q;
     l_borderColor := Some "#000000"%string |}.

(** [Math.max(...zs)] on a non-empty argument list. *)
Definition Math_max (z : Z) (zs : list Z) : Z := fold_left Z.max zs z.

(** [getNextZIndex] (lines 84-87) *)
Definition getNextZIndex (layers : list TextLayer) : Z :=
  match map l_zIndex layers with
  | [] => 0
  | z :: zs => Math_max z zs + 1
  end.

(** [reorderLayers] (lines 89-99), for array indices [fromIndex], [toIndex].
    [splice(toIndex, 0, removed)] clamps [toIndex] to the array.  When
    [fromIndex] is outside the array the source inserts [undefined] and maps it
    to an object that has a [zIndex] only, which is no [TextLayer]: that
    outcome is [None]. *)
Definition reorderLayers (layers : list TextLayer) (fromIndex toIndex : nat)
  : option (list TextLayer) :=
  match nth_error layers fromIndex with
  | Some removed =>
      let result := firstn fromIndex layers ++ skipn (S fromIndex) layers in
      let result := firstn toIndex result ++ removed :: skipn toIndex result in
      Some (JS.mapi (fun layer index => with_zIndex layer index) result)
  | None => None
  end.

(** The comparator [(a, b) => a.zIndex - b.zIndex]. *)
Definition by_zIndex (a b : TextLayer) : Z := l_zIndex a - l_zIndex b.

(** [normalizeZIndexes] (lines 101-108) *)
Definition normalizeZIndexes (layers : list TextLayer) : list TextLayer :=
  let sortedLayers := JS.sort by_zIndex layers in
  JS.mapi (fun layer index => with_zIndex layer index) sortedLayers.

(** The z-indexes of an array of layers, in array order. *)
Definition zIndexes (layers : list TextLayer) : list Z := map l_zIndex layers.

(** The z-indexes of the [N] layers are [0, 1, ..., N-1]: no gap, no
    duplicate.  (They are so in array order, which is more than the claim on
    the set of values asks.) *)
Definition contiguous (layers : list TextLayer) : Prop :=
  zIndexes layers = map Z.of_nat (seq 0 (List.length layers)).

(** [a] may come before [b] in the ascending order of [key]. *)
Definition key_le {A} (key : A -> Z) (a b : A) : Prop := key a <= key b.

(** ** The page component ([src/app/page.tsx]) *)

Inductive Tab := upload | properties | layers | export.

(** The React state of [Home] that the handlers below read or write. *)
Record AppState := mkAppState {
  canvasState : CanvasState;
  activeTab : Tab;
  hist : HistoryState CanvasState
}.

(** The blank document of lines 28-34 and 97-103. *)
Definition blankState : CanvasState :=
  mkCanvasState None 0 0 [] None.

(** The state [Home] is mounted with (lines 28-38). *)
Definition initialApp : AppState :=
  mkAppState blankState upload initialHistory.

(** The body shared by the state updaters of the mutating handlers:
    [addToHistory(newState); return newState].  The updater runs on the state
    [st] current when it runs; [addToHistory] is the callback of the render
    that created the handler, whose cursor was [closureIndex]. *)
Definition commitFrom (closureIndex : Z) (st : AppState) (newState : CanvasState)
  : AppState :=
  mkAppState newState (activeTab st)
    (addToHistory closureIndex newState (hist st)).

(** The same for a handler of the render that shows [st]: the first state
    update of an event. *)
Definition commit (st : AppState) (newState : CanvasState) : AppState :=
  commitFrom (historyIndex (hist st)) st newState.

(** What one event records: one document, or two documents through two
    handlers of the same render (as a double click on the empty canvas and the
    handlers of the properties panel do). *)
Inductive Mutation :=
| Once (newState : CanvasState)
| Twice (first second : CanvasState).

Definition mutate (st : AppState) (m : Mutation) : AppState :=
  match m with
  | Once newState => commit st newState
  | Twice first second =>
      commitFrom (historyIndex (hist st)) (commit st first) second
  end.

(** A sequence of events, oldest first. *)
Definition mutations (st : AppState) (ms : list Mutation) : AppState :=
  fold_left mutate ms st.

(** The states [Home] goes through under such events, undo and redo: at most
    20 entries, and either no entry and the cursor [-1], or the cursor on an
    entry that is the document on screen, or the cursor one past the last
    entry, which is the document on screen. *)
Definition app_ok (st : AppState) : Prop :=
  let h := history (hist st) in
  let i := historyIndex (hist st) in
  JS.len h <= MAX_HISTORY_STEPS /\
  ((h = [] /\ i = -1) \/
   (0 <= i < JS.len h /\ JS.index h i = Some (canvasState st)) \/
   (i = JS.len h /\ JS.index h (i - 1) = Some (canvasState st))).

(** The cursor is on the newest entry or past it: nothing to redo. *)
Definition at_newest (st : AppState) : Prop :=
  JS.len (history (hist st)) - 1 <= historyIndex (hist st).

Definition setActiveTab (t : Tab) (st : AppState) : AppState :=
  mkAppState (canvasState st) t (hist st).

(** [handleResetDesign] (lines 92-109) *)
Definition handleResetDesign (st : AppState) : AppState :=
  mkAppState blankState upload (mkHistory [blankState] 0).

(** [undo] (lines 144-150).  [None] stands for a [history[newIndex]] that is
    [undefined], which would become the canvas state. *)
Definition undo (st : AppState) : option AppState :=
  if historyIndex (hist st) >? 0 then
    let newIndex := historyIndex (hist st) - 1 in
    match JS.index (history (hist st)) newIndex with
    | Some s => Some (mkAppState s (activeTab st) (mkHistory (history (hist st)) newIndex))
    | None => None
    end
  else Some st.

(** [redo] (lines 152-158) *)
Definition redo (st : AppState) : option AppState :=
  if historyIndex (hist st) <? JS.len (history (hist st)) - 1 then
    let newIndex := historyIndex (hist st) + 1 in
    match JS.index (history (hist st)) newIndex with
    | Some s => Some (mkAppState s (activeTab st) (mkHistory (history (hist st)) newIndex))
    | None => None
    end
  else Some st.

(** [updateCanvas] (lines 161-167) *)
Definition updateCanvas (updates : PartialCanvasState) (st : AppState) : AppState :=
  commit st (spreadCanvas (canvasState st) updates).

(** [handleImageUpload] (lines 169-183) *)
Definition handleImageUpload (imageData : string) (width height : Q)
  (st : AppState) : AppState :=
  let newState := mkCanvasState (Some imageData) width height [] None in
  mkAppState newState properties (mkHistory [newState] 0).

(** [handleSelectLayer] (lines 185-194), as created by a render whose cursor
    was [closureIndex]. *)
Definition handleSelectLayerFrom (closureIndex : Z) (layerId : option string)
  (st : AppState) : AppState :=
  let prevState := canvasState st in
  let newState :=
    mkCanvasState (image prevState) (imageWidth prevState) (imageHeight prevState)
      (textLayers prevState) layerId in
  let st' := commitFrom closureIndex st newState in
  if JS.truthy layerId then setActiveTab properties st' else st'.

(** [handleSelectLayer] called first in an event. *)
Definition handleSelectLayer (layerId : option string) (st : AppState) : AppState :=
  handleSelectLayerFrom (historyIndex (hist st)) layerId st.

(** [handleUpdateLayer] (lines 196-212), as created by a render whose cursor
    was [closureIndex]. *)
Definition handleUpdateLayerFrom (closureIndex : Z) (updates : PartialTextLayer)
  (st : AppState) : AppState :=
  let prevState := canvasState st in
  match selectedLayerId prevState with
  | Some sel =>
      if negb (JS.truthy (Some sel)) then st
      else
        let updatedLayers :=
          map (fun layer =>
                 if String.eqb (l_id layer) sel then spread layer updates else layer)
              (textLayers prevState) in
        commitFrom closureIndex st
          (mkCanvasState (image prevState) (imageWidth prevState)
             (imageHeight prevState) updatedLayers (selectedLayerId prevState))
  | None => st
  end.

(** [handleUpdateLayer] called first in an event. *)
Definition handleUpdateLayer (updates : PartialTextLayer) (st : AppState) : AppState :=
  handleUpdateLayerFrom (historyIndex (hist st)) updates st.

(** [selectedLayer] (lines 365-367), the layer handed to the properties
    panel. *)
Definition selectedLayer (cs : CanvasState) : option TextLayer :=
  match selectedLayerId cs with
  | Some sel =>
      if JS.truthy (Some sel)
      then JS.find (fun layer => String.eqb (l_id layer) sel) (textLayers cs)
      else None
  | None => None
  end.

(** [prevState.selectedLayerId === layerId] for a [layerId : string] *)
Definition is_selected (sel : option string) (layerId : string) : bool :=
  match sel with
  | Some s => String.eqb s layerId
  | None => false
  end.

(** [handleDeleteLayer] (lines 214-230) *)
Definition handleDeleteLayer (layerId : string) (st : AppState) : AppState :=
  let prevState := canvasState st in
  let updatedLayers :=
    filter (fun layer => negb (String.eqb (l_id layer) layerId)) (textLayers prevState) in
  let newSelectedLayerId :=
    if is_selected (selectedLayerId prevState) layerId then None
    else selectedLayerId prevState in
  let normalizedLayers := normalizeZIndexes updatedLayers in
  commit st
    (mkCanvasState (image prevState) (imageWidth prevState) (imageHeight prevState)
       normalizedLayers newSelectedLayerId).

(** [handleDuplicateLayer] (lines 232-250); [newId] is the value of
    [Math.random().toString(36).substring(2, 11)]. *)
Definition handleDuplicateLayer (newId : string) (layerId : string) (st : AppState)
  : AppState :=
  let prevState := canvasState st in
  match JS.find (fun l => String.eqb (l_id l) layerId) (textLayers prevState) with
  | None => st
  | Some layer =>
      let duplicatedLayer :=
        with_clone layer newId (l_x layer + 20)%Q (l_y layer + 20)%Q
          (getNextZIndex (textLayers prevState)) in
      let updatedLayers :=
        normalizeZIndexes (textLayers prevState ++ [duplicatedLayer]) in
      commit st
        (mkCanvasState (image prevState) (imageWidth prevState)
           (imageHeight prevState) updatedLayers (selectedLayerId prevState))
  end.

(** [handleAddTextLayer] (lines 252-272); [newId] is the value of
    [generateId()]. *)
Definition handleAddTextLayer (newId : string) (st : AppState) : AppState :=
  let prevState := canvasState st in
  setActiveTab properties
    (if negb (JS.truthy (image prevState)) then st
     else
       let newLayer :=
         createDefaultTextLayer newId
           (imageWidth prevState / 2 - 100)%Q (imageHeight prevState / 2 - 25)%Q in
       let newLayer := with_zIndex newLayer (getNextZIndex (textLayers prevState)) in
       let updatedLayers := normalizeZIndexes (textLayers prevState ++ [newLayer]) in
       commit st
         (mkCanvasState (image prevState) (imageWidth prevState)
            (imageHeight prevState) updatedLayers (Some (l_id newLayer)))).

(** The claim on the id of a duplicate, as the specification words it: the
    duplicate, which is the last layer of the result, carries an id that no
    layer of the document had. *)
Definition duplicate_id_is_fresh (newId layerId : string) (st : AppState)
  : Prop :=
  forall duplicate,
    last (map Some (textLayers (canvasState (handleDuplicateLayer newId layerId st))))
         None = Some duplicate ->
    ~ In (l_id duplicate) (map l_id (textLayers (canvasState st))).

(** The [onUpdateLayers] handed to [LayersPanel] (lines 527-535) *)
Definition onUpdateLayers (layers : list TextLayer) (st : AppState) : AppState :=
  let normalizedLayers := normalizeZIndexes layers in
  let prevState := canvasState st in
  commit st
    (mkCanvasState (image prevState) (imageWidth prevState) (imageHeight prevState)
       normalizedLayers (selectedLayerId prevState)).

(** [findIndex(layer => layer.id === layerId)], [None] for [-1]. *)
Fixpoint findIndex (layerId : string) (layers : list TextLayer) : option nat :=
  match layers with
  | [] => None
  | l :: ls =>
      if String.eqb (l_id l) layerId then Some 0%nat
      else option_map Datatypes.S (findIndex layerId ls)
  end.

Inductive Direction := up | down.

(** [handleMoveLayer] of the layers panel ([LayersPanel.tsx], lines 66-81),
    with [onUpdateLayers] as above. *)
Definition handleMoveLayer (layerId : string) (direction : Direction)
  (st : AppState) : AppState :=
  let layers := textLayers (canvasState st) in
  match findIndex layerId layers with
  | None => st
  | Some currentIndex =>
      let target :=
        match direction with
        | up =>
            if (Z.of_nat currentIndex <? JS.len layers - 1)
            then Some (Datatypes.S currentIndex) else None
        | down =>
            if (Z.of_nat currentIndex >? 0)
            then Some (Nat.pred currentIndex) else None
        end in
      match target with
      | None => st
      | Some newIndex =>
          match reorderLayers layers currentIndex newIndex with
          | Some newLayers => onUpdateLayers newLayers st
          | None => st
          end
      end
  end.

(** ** The canvas component ([src/components/Canvas.tsx]) *)

(** What [ctx.font] is set to:
    [`${weight === 'bold' ? 'bold' : 'normal'} ${size}px ${family}`]. *)
Record FontSpec := mkFontSpec {
  font_weight : string;
  font_px : Q;
  font_family : string
}.

(** A 2D context used for measuring: [measureText(text).width] under the font
    that was set.  [getContext('2d')] may return [null], so the handlers take
    an [option MeasureCtx]. *)
Definition MeasureCtx := FontSpec -> string -> Q.

Definition fontOf (layer : TextLayer) (px : Q) : FontSpec :=
  mkFontSpec (if String.eqb (l_fontWeight layer) "bold" then "bold" else "normal")
    px (l_fontFamily layer).

(** The local React state of [Canvas] (lines 24-30). *)
Record CanvasLocal := mkCanvasLocal {
  selectedId : option string;
  isDragging : bool;
  dragOffset : Q * Q;
  editingLayerId : option string;
  editingText : string
}.

(** [snapToGrid] (lines 170-172); the callers use the default [gridSize = 20]. *)
Definition snapToGrid (value gridSize : Q) : Q :=
  (inject_Z (JS.Math_round (value / gridSize)) * gridSize)%Q.

(** [snapToCenter] (lines 174-193) *)
Definition snapToCenter (x y imageWidth imageHeight : Q) : Q * Q :=
  let centerX := (imageWidth / 2)%Q in
  let centerY := (imageHeight / 2)%Q in
  let snapThreshold := 50%Q in
  let snappedX := if JS.ltb (Qabs (x - centerX)) snapThreshold then centerX else x in
  let snappedY := if JS.ltb (Qabs (y - centerY)) snapThreshold then centerY else y in
  (snappedX, snappedY).

(** The snapping that [handleMouseMove] (lines 320-327) and [nudgeLayer]
    (lines 217-224) both apply to a candidate position: the grid when
    [showGrid], then the center. *)
Definition snapPosition (showGrid : bool) (newX newY : Q) (cs : CanvasState)
  : Q * Q :=
  let newX := if showGrid then snapToGrid newX 20 else newX in
  let newY := if showGrid then snapToGrid newY 20 else newY in
  snapToCenter newX newY (imageWidth cs) (imageHeight cs).

(** One axis of [snapPosition]: the candidate coordinate [v] and the
    coordinate [c] of the center on that axis. *)
Definition snapAxis (showGrid : bool) (v c : Q) : Q :=
  let v := if showGrid then snapToGrid v 20 else v in
  if JS.ltb (Qabs (v - c)) 50 then c else v.

(** A coordinate on the grid: a multiple of 20. *)
Definition on_grid (v : Q) : Prop := exists k : Z, (v == inject_Z k * 20)%Q.

(** The claim on positions of the grid, as the specification words it:
    snapping a position that is on the grid returns it unchanged. *)
Definition grid_position_is_fixed (showGrid : bool) (x y : Q) (cs : CanvasState)
  : Prop :=
  on_grid x -> on_grid y ->
  (fst (snapPosition showGrid x y cs) == x)%Q /\
  (snd (snapPosition showGrid x y cs) == y)%Q.

Inductive NudgeDirection := nudge_up | nudge_down | nudge_left | nudge_right.

(** [nudgeLayer] (lines 195-231) *)
Definition nudgeLayer (showGrid : bool) (layerId : string)
  (direction : NudgeDirection) (amount : Q) (st : AppState) : AppState :=
  let cs := canvasState st in
  match JS.find (fun l => String.eqb (l_id l) layerId) (textLayers cs) with
  | None => st
  | Some layer =>
      let newX :=
        match direction with
        | nudge_left => (l_x layer - amount)%Q
        | nudge_right => (l_x layer + amount)%Q
        | _ => l_x layer
        end in
      let newY :=
        match direction with
        | nudge_up => (l_y layer - amount)%Q
        | nudge_down => (l_y layer + amount)%Q
        | _ => l_y layer
        end in
      let snapped := snapPosition showGrid newX newY cs in
      let updatedLayers :=
        map (fun l =>
               if String.eqb (l_id l) layerId
               then with_position l (fst snapped) (snd snapped) else l)
            (textLayers cs) in
      updateCanvas (only_textLayers updatedLayers) st
  end.

(** The comparator [(a, b) => b.zIndex - a.zIndex]. *)
Definition by_zIndex_desc (a b : TextLayer) : Z := l_zIndex b - l_zIndex a.

(** The bounding box computed at lines 263-280: left edge, top edge, width
    and height. *)
Definition layerBox (textWidth textHeight : Q) (layer : TextLayer)
  : Q * Q * Q * Q :=
  match l_textAlign layer with
  | AlignLeft => (l_x layer, l_y layer - textHeight, textWidth, textHeight)
  | AlignCenter =>
      (l_x layer - textWidth / 2, l_y layer - textHeight, textWidth, textHeight)
  | AlignRight =>
      (l_x layer - textWidth, l_y layer - textHeight, textWidth, textHeight)
  end%Q.

(** The test of lines 282-283. *)
Definition boxContains (box : Q * Q * Q * Q) (x y : Q) : bool :=
  let '(layerX, layerY, layerWidth, layerHeight) := box in
  Qle_bool layerX x && Qle_bool x (layerX + layerWidth) &&
  Qle_bool layerY y && Qle_bool y (layerY + layerHeight).

(** The body of the loop of lines 252-287 for one layer: does the layer stop
    the search? *)
Definition hits (tempCtx : option MeasureCtx) (x y : Q) (layer : TextLayer) : bool :=
  match tempCtx with
  | Some measureText =>
      if JS.ltb 0 (l_opacity layer) && l_isVisible layer then
        let textWidth := measureText (fontOf layer (l_fontSize layer)) (l_text layer) in
        let textHeight := l_fontSize layer in
        boxContains (layerBox textWidth textHeight layer) x y
      else false
  | None => false
  end.

(** [findLayerAtPosition] (lines 244-289) *)
Definition findLayerAtPosition (tempCtx : option MeasureCtx) (cs : CanvasState)
  (x y : Q) : option TextLayer :=
  let sortedLayers := JS.sort by_zIndex_desc (textLayers cs) in
  JS.find (hits tempCtx x y) sortedLayers.

(** The bounding box in the words of the specification: the left edge is
    [x] for [left], [x - textWidth/2] for [center], [x - textWidth] for
    [right]; the top edge is [y - textHeight]; the box is [textWidth] wide and
    [textHeight] high, edges included.  The rotation plays no part. *)
Definition inBox (measureText : MeasureCtx) (layer : TextLayer) (x y : Q) : Prop :=
  let textWidth := measureText (fontOf layer (l_fontSize layer)) (l_text layer) in
  let textHeight := l_fontSize layer in
  let left :=
    match l_textAlign layer with
    | AlignLeft => l_x layer
    | AlignCenter => l_x layer - textWidth / 2
    | AlignRight => l_x layer - textWidth
    end%Q in
  let top := (l_y layer - textHeight)%Q in
  (left <= x /\ x <= left + textWidth /\ top <= y /\ y <= top + textHeight)%Q.

(** The hit test in the words of the specification: the visible layers from
    the highest to the lowest z-index, and the first one whose box holds the
    point. *)
Definition hitTest_visible (measureText : MeasureCtx) (cs : CanvasState)
  (x y : Q) : option TextLayer :=
  JS.find
    (fun layer =>
       l_isVisible layer &&
       boxContains
         (layerBox (measureText (fontOf layer (l_fontSize layer)) (l_text layer))
            (l_fontSize layer) layer) x y)
    (JS.sort by_zIndex_desc (textLayers cs)).

(** [handleMouseDown] (lines 291-311), at the document position [pos]. *)
Definition handleMouseDown (tempCtx : option MeasureCtx) (pos : Q * Q)
  (loc : CanvasLocal) (st : AppState) : CanvasLocal * AppState :=
  if JS.truthy (editingLayerId loc) then (loc, st)
  else
    match findLayerAtPosition tempCtx (canvasState st) (fst pos) (snd pos) with
    | Some layer =>
        (mkCanvasLocal (Some (l_id layer)) true
           (fst pos - l_x layer, snd pos - l_y layer)%Q
           (editingLayerId loc) (editingText loc),
         handleSelectLayer (Some (l_id layer)) st)
    | None =>
        (mkCanvasLocal None (isDragging loc) (dragOffset loc)
           (editingLayerId loc) (editingText loc),
         handleSelectLayer None st)
    end.

(** [handleMouseUp] (lines 338-340) *)
Definition handleMouseUp (loc : CanvasLocal) : CanvasLocal :=
  mkCanvasLocal (selectedId loc) false (dragOffset loc) (editingLayerId loc)
    (editingText loc).

(** [handleMouseMove] (lines 313-336), at the document position [pos]. *)
Definition handleMouseMove (showGrid : bool) (pos : Q * Q)
  (loc : CanvasLocal) (st : AppState) : AppState :=
  match selectedId loc with
  | Some sel =>
      if negb (isDragging loc) || negb (JS.truthy (Some sel))
         || JS.truthy (editingLayerId loc)
      then st
      else
        let cs := canvasState st in
        let newX := (fst pos - fst (dragOffset loc))%Q in
        let newY := (snd pos - snd (dragOffset loc))%Q in
        let snapped := snapPosition showGrid newX newY cs in
        let updatedLayers :=
          map (fun layer =>
                 if String.eqb (l_id layer) sel
                 then with_position layer (fst snapped) (snd snapped) else layer)
              (textLayers cs) in
        updateCanvas (only_textLayers updatedLayers) st
  | None => st
  end.

(** [handleDoubleClick] (lines 342-375), at the document position [pos].
    [newId] is the value of [generateId()].  On the empty canvas the handler
    calls [onUpdateCanvas] and then [onSelectLayer]: both are callbacks of the
    render that shows [st], so both close over its cursor, while the second
    state updater runs on the state the first one left. *)
Definition handleDoubleClick (tempCtx : option MeasureCtx) (showGrid : bool)
  (pos : Q * Q) (newId : string) (loc : CanvasLocal) (st : AppState)
  : CanvasLocal * AppState :=
  let cs := canvasState st in
  let closureIndex := historyIndex (hist st) in
  match findLayerAtPosition tempCtx cs (fst pos) (snd pos) with
  | Some layer =>
      (mkCanvasLocal (Some (l_id layer)) (isDragging loc) (dragOffset loc)
         (Some (l_id layer)) (l_text layer),
       handleSelectLayer (Some (l_id layer)) st)
  | None =>
      if JS.truthy (image cs) then
        let x := if showGrid then snapToGrid (fst pos) 20 else fst pos in
        let y := if showGrid then snapToGrid (snd pos) 20 else snd pos in
        let newLayer := createDefaultTextLayer newId x y in
        let newLayer := with_zIndex newLayer (getNextZIndex (textLayers cs)) in
        let updatedLayers := textLayers cs ++ [newLayer] in
        let st1 := updateCanvas (only_textLayers updatedLayers) st in
        let st2 := handleSelectLayerFrom closureIndex (Some (l_id newLayer)) st1 in
        (mkCanvasLocal (Some (l_id newLayer)) (isDragging loc) (dragOffset loc)
           (Some (l_id newLayer)) (l_text newLayer),
         st2)
      else (loc, st)
  end.

(** The text is empty or made of white space only: a sequence of code points
    of [JS.white_space_code_points]. *)
Inductive WhiteSpaceOnly : string -> Prop :=
| WhiteSpaceOnly_empty : WhiteSpaceOnly EmptyString
| WhiteSpaceOnly_more (cp : N) (s : string) :
    In cp JS.white_space_code_points -> WhiteSpaceOnly s ->
    WhiteSpaceOnly (JS.utf8 cp ++ s).

(** The same as a test. *)
Definition only_white_space (s : string) : bool := JS.blank s.

(** [handleTextEditSave] (lines 377-403) *)
Definition handleTextEditSave (tempCtx : option MeasureCtx)
  (loc : CanvasLocal) (st : AppState) : CanvasLocal * AppState :=
  let loc' :=
    mkCanvasLocal (selectedId loc) (isDragging loc) (dragOffset loc)
      None EmptyString in
  let st' :=
    match editingLayerId loc with
    | Some editing =>
        if JS.truthy (Some editing)
           && negb (String.eqb (JS.trim (editingText loc)) EmptyString)
        then
          match tempCtx with
          | Some measureText =>
              let cs := canvasState st in
              match JS.find (fun l => String.eqb (l_id l) editing) (textLayers cs) with
              | Some layer =>
                  let width :=
                    measureText (fontOf layer (l_fontSize layer)) (editingText loc) in
                  let updatedLayers :=
                    map (fun l =>
                           if String.eqb (l_id l) editing
                           then with_text l (editingText loc) width (l_fontSize layer)
                           else l)
                        (textLayers cs) in
                  updateCanvas (only_textLayers updatedLayers) st
              | None => st
              end
          | None => st
          end
        else st
    | None => st
    end in
  (loc', st').

(** ** The properties panel ([src/components/TextProperties.tsx]) *)

(** [Math.max(a, b)] and [Math.min(a, b)] on numbers. *)
Definition Math_max2 (a b : Q) : Q := if Qle_bool a b then b else a.
Definition Math_min2 (a b : Q) : Q := if Qle_bool a b then a else b.

(** [{ text }] *)
Definition upd_text (text : string) : PartialTextLayer :=
  mkPartialTextLayer None (Some text) None None None None None None None None
    None None None None None None None None None None None None None None.

(** [{ text, width, height }] *)
Definition upd_text_sized (text : string) (width height : Q) : PartialTextLayer :=
  mkPartialTextLayer None (Some text) None None (Some width) (Some height)
    None None None None None None None None None None None None None None None
    None None None.

(** [{ fontSize }] *)
Definition upd_fontSize (fontSize : Q) : PartialTextLayer :=
  mkPartialTextLayer None None None None None None None (Some fontSize) None
    None None None None None None None None None None None None None None None.

(** [{ fontSize, width, height }] *)
Definition upd_fontSize_sized (fontSize width height : Q) : PartialTextLayer :=
  mkPartialTextLayer None None None None (Some width) (Some height) None
    (Some fontSize) None None None None None None None None None None None
    None None None None None.

(** [{ fontWeight }] *)
Definition upd_fontWeight (fontWeight : string) : PartialTextLayer :=
  mkPartialTextLayer None None None None None None None None None
    (Some fontWeight) None None None None None None None None None None None
    None None None.

(** [{ fontWeight, width, height }] *)
Definition upd_fontWeight_sized (fontWeight : string) (width height : Q)
  : PartialTextLayer :=
  mkPartialTextLayer None None None None (Some width) (Some height) None None
    None (Some fontWeight) None None None None None None None None None None
    None None None None.

(** [{ fontFamily }] *)
Definition upd_fontFamily (fontFamily : string) : PartialTextLayer :=
  mkPartialTextLayer None None None None None None None None (Some fontFamily)
    None None None None None None None None None None None None None None None.

(** [{ fontFamily, width, height }] *)
Definition upd_fontFamily_sized (fontFamily : string) (width height : Q)
  : PartialTextLayer :=
  mkPartialTextLayer None None None None (Some width) (Some height) None None
    (Some fontFamily) None None None None None None None None None None None
    None None None None.

(** The handlers below receive [selectedLayer] and [onUpdateLayer] from the
    render that shows [st]; they call [onUpdateLayer] twice, so the second
    state updater runs on the state the first one left. *)

(** [handleTextChange] (lines 125-143) *)
Definition handleTextChange (tempCtx : option MeasureCtx) (text : string)
  (st : AppState) : AppState :=
  let closureIndex := historyIndex (hist st) in
  let st1 := handleUpdateLayerFrom closureIndex (upd_text text) st in
  match tempCtx, selectedLayer (canvasState st) with
  | Some measureText, Some selectedLayer =>
      let width :=
        measureText
          (mkFontSpec
             (if String.eqb (l_fontWeight selectedLayer) "bold"
              then "bold" else "normal")
             (l_fontSize selectedLayer) (l_fontFamily selectedLayer))
          text in
      handleUpdateLayerFrom closureIndex
        (upd_text_sized text width (l_fontSize selectedLayer)) st1
  | _, _ => st1
  end.

(** [handleFontSizeChange] (lines 103-121) *)
Definition handleFontSizeChange (tempCtx : option MeasureCtx) (fontSize : Q)
  (st : AppState) : AppState :=
  let closureIndex := historyIndex (hist st) in
  let newFontSize := Math_max2 8 (Math_min2 200 fontSize) in
  let st1 := handleUpdateLayerFrom closureIndex (upd_fontSize newFontSize) st in
  match tempCtx, selectedLayer (canvasState st) with
  | Some measureText, Some selectedLayer =>
      let width :=
        measureText
          (mkFontSpec
             (if String.eqb (l_fontWeight selectedLayer) "bold"
              then "bold" else "normal")
             newFontSize (l_fontFamily selectedLayer))
          (l_text selectedLayer) in
      handleUpdateLayerFrom closureIndex
        (upd_fontSize_sized newFontSize width newFontSize) st1
  | _, _ => st1
  end.

(** [handleFontWeightChange] (lines 79-97) *)
Definition handleFontWeightChange (tempCtx : option MeasureCtx) (weight : string)
  (st : AppState) : AppState :=
  let closureIndex := historyIndex (hist st) in
  let st1 := handleUpdateLayerFrom closureIndex (upd_fontWeight weight) st in
  match tempCtx, selectedLayer (canvasState st) with
  | Some measureText, Some selectedLayer =>
      let width :=
        measureText
          (mkFontSpec (if String.eqb weight "bold" then "bold" else "normal")
             (l_fontSize selectedLayer) (l_fontFamily selectedLayer))
          (l_text selectedLayer) in
      handleUpdateLayerFrom closureIndex
        (upd_fontWeight_sized weight width (l_fontSize selectedLayer)) st1
  | _, _ => st1
  end.

(** [handleFontChange] (lines 53-77), once [loadFont] has resolved (it never
    rejects: [src/lib/fonts.ts], lines 59-80). *)
Definition handleFontChange (tempCtx : option MeasureCtx) (fontFamily : string)
  (st : AppState) : AppState :=
  let closureIndex := historyIndex (hist st) in
  let st1 := handleUpdateLayerFrom closureIndex (upd_fontFamily fontFamily) st in
  match tempCtx, selectedLayer (canvasState st) with
  | Some measureText, Some selectedLayer =>
      let width :=
        measureText
          (mkFontSpec
             (if String.eqb (l_fontWeight selectedLayer) "bold"
              then "bold" else "normal")
             (l_fontSize selectedLayer) fontFamily)
          (l_text selectedLayer) in
      handleUpdateLayerFrom closureIndex
        (upd_fontFamily_sized fontFamily width (l_fontSize selectedLayer)) st1
  | _, _ => st1
  end.

(** The measurement contract: the width of a layer is the width its text
    measures under its font, and its height is its font size. *)
Definition sized (measureText : MeasureCtx) (layer : TextLayer) : Prop :=
  l_width layer = measureText (fontOf layer (l_fontSize layer)) (l_text layer) /\
  l_height layer = l_fontSize layer.

(** ** Export ([page.tsx], lines 275-342) *)

(** The calls made on the offscreen canvas and its context, in order. *)
Inductive CanvasCall :=
| SetSize (width height : Q)
| SetFillStyle (style : string)
| FillRect (x y w h : Q)
| DrawImage (src : string) (x y w h : Q)
| Save
| Restore
| SetGlobalAlpha (a : Q)
| SetFont (f : FontSpec)
| SetTextAlign (a : TextAlign)
| SetTextBaseline (b : string)
| Translate (x y : Q)
| RotateDegrees (deg : Q)
| FillText (text : string) (x y : Q)
| ToDataURL (mimeType : string) (quality : option Q).

(** What the promise returned by [handleExport] settles to. *)
Inductive ExportResult :=
| Resolved (calls : list CanvasCall)
| Rejected (message : string).

(** The calls of lines 306-326 for one layer; [ctx.rotate] receives
    [rotation * Math.PI / 180], kept here in degrees. *)
Definition drawLayer (s : Q) (layer : TextLayer) : list CanvasCall :=
  if JS.ltb 0 (l_opacity layer) && l_isVisible layer then
    [Save; SetGlobalAlpha (l_opacity layer);
     SetFont (fontOf layer (l_fontSize layer * s)%Q);
     SetFillStyle (l_color layer); SetTextAlign (l_textAlign layer);
     SetTextBaseline "alphabetic"]
    ++ (if negb (Qeq_bool (l_rotation layer) 0)
        then [Translate (l_x layer * s)%Q (l_y layer * s)%Q;
              RotateDegrees (l_rotation layer);
              FillText (l_text layer) 0 0]
        else [FillText (l_text layer) (l_x layer * s)%Q (l_y layer * s)%Q])
    ++ [Restore]
  else [].

(** [handleExport] (lines 275-342).  [ctx] tells whether [getContext('2d')]
    returned a context, [imageLoads] whether the image element fires [onload]
    (rather than [onerror]).  The function reads [canvasState] and sets no
    state. *)
Definition handleExport (ctx imageLoads : bool) (options : ExportOptions)
  (st : AppState) : ExportResult :=
  let cs := canvasState st in
  match image cs with
  | Some src =>
      if negb ctx || negb (JS.truthy (Some src))
      then Rejected "Failed to create canvas context"
      else if imageLoads then
        let scaledWidth := (imageWidth cs * scale options)%Q in
        let scaledHeight := (imageHeight cs * scale options)%Q in
        let sortedLayers := JS.sort by_zIndex (textLayers cs) in
        let mimeType :=
          match format options with
          | jpg => "image/jpeg"%string
          | png => "image/png"%string
          end in
        let quality :=
          match format options with jpg => Some (quality options) | png => None end in
        Resolved
          ([SetSize scaledWidth scaledHeight;
            SetFillStyle "#ffffff";
            FillRect 0 0 scaledWidth scaledHeight;
            DrawImage src 0 0 scaledWidth scaledHeight]
           ++ flat_map (drawLayer (scale options)) sortedLayers
           ++ [ToDataURL mimeType quality])
      else Rejected "Failed to load image"
  | None => Rejected "Failed to create canvas context"
  end.


(** The claim on exports, as the specification words it: the export fails
    when no background image is loaded, and otherwise resolves. *)
Definition export_fails_only_without_image (ctx imageLoads : bool)
  (options : ExportOptions) (st : AppState) : Prop :=
  (image (canvasState st) = None ->
   exists message, handleExport ctx imageLoads options st = Rejected message) /\
  (image (canvasState st) <> None ->
   exists calls, handleExport ctx imageLoads options st = Resolved calls).

(** ** Sample data *)

Module Sample.

(** A text measurement: ten units per character. *)
Definition measureText : MeasureCtx :=
  fun _ text => inject_Z (10 * Z.of_nat (String.length text)).

(** A default layer at [(10, 10)].  Its id is the one [generateId()]
    returns when [Math.random()] returns [0.5], which is [0.i] in base 36. *)
Definition layerA : TextLayer := createDefaultTextLayer "i" 10 10.

(** A 400 x 300 document with the single layer [layerA], selected. *)
Definition doc : CanvasState :=
  mkCanvasState (Some "data:image/png"%string) 400 300 [layerA]
    (Some "i"%string).

(** The page showing [doc], as left by a recorded mutation. *)
Definition app : AppState :=
  mkAppState doc properties (mkHistory [doc] 0).

(** [layerA] made fully transparent, its [isVisible] flag still set. *)
Definition transparentLayer : TextLayer :=
  spread layerA
    (mkPartialTextLayer None None None None None None None None None None None
       (Some 0%Q) None None None None None None None None None None None None).

(** [doc] with the transparent layer in place of [layerA]. *)
Definition transparentDoc : CanvasState :=
  mkCanvasState (Some "data:image/png"%string) 400 300 [transparentLayer]
    (Some "i"%string).

(** [layerA] centered on [(100, 100)]. *)
Definition centeredLayer : TextLayer :=
  spread layerA
    (mkPartialTextLayer None None (Some 100%Q) (Some 100%Q) None None None None
       None None None None (Some AlignCenter) None None None None None None None
       None None None None).

(** [doc] with the centered layer in place of [layerA]. *)
Definition centeredDoc : CanvasState :=
  mkCanvasState (Some "data:image/png"%string) 400 300 [centeredLayer]
    (Some "i"%string).

(** The canvas as it is mounted (lines 24-30). *)
Definition idle : CanvasLocal :=
  mkCanvasLocal None false (0, 0)%Q None EmptyString.

(** The events of a double click at [pos]: the button goes down and up twice,
    then the double click is delivered; each event runs on the render that
    the previous one left.  [newId] is the id drawn if a layer is created. *)
Definition doubleClickGesture (pos : Q * Q) (newId : string)
  (loc : CanvasLocal) (st : AppState) : CanvasLocal * AppState :=
  let '(loc, st) := handleMouseDown (Some measureText) pos loc st in
  let loc := handleMouseUp loc in
  let '(loc, st) := handleMouseDown (Some measureText) pos loc st in
  let loc := handleMouseUp loc in
  handleDoubleClick (Some measureText) false pos newId loc st.

(** The canvas while the text of [layerA] is edited. *)
Definition editing (text : string) : CanvasLocal :=
  mkCanvasLocal (Some "i"%string) false (0, 0)%Q (Some "i"%string) text.

End Sample.

(** * Further code *)

(** ** Repeated undo *)

(** [undo] called [k] times, one event each. *)
Fixpoint undos (k : nat) (st : AppState) : option AppState :=
  match k with
  | O => Some st
  | Datatypes.S k' =>
      match undo st with
      | Some st' => undos k' st'
      | None => None
      end
  end.

(** The last [n] elements of an array. *)
Definition lastn {A} (n : nat) (a : list A) : list A :=
  skipn (List.length a - n) a.

(** ** The history indicator ([src/components/HistoryIndicator.tsx]) *)

(** [historyPercentage] (lines 27-31) *)
Definition historyPercentage (historyLength currentIndex : Z) : Q :=
  if historyLength >? 1 then
    Math_min2 100
      (Math_max2 0
         (inject_Z currentIndex / inject_Z (historyLength - 1) * 100))%Q
  else if historyLength =? 1 then 100%Q
  else 0%Q.

(** [stepsRemaining] (lines 33-34) *)
Definition stepsRemaining (historyLength maxSteps : Z) : Z :=
  maxSteps - historyLength.

(** ** Reordering *)

(** A layer with its place in the stack left out of the comparison. *)
Definition ignoring_zIndex (layers : list TextLayer) : list TextLayer :=
  map (fun layer => with_zIndex layer 0) layers.

(** [a.splice(i, 1)] and [a.splice(j, 0, x)], as [reorderLayers] uses them,
    for their effect on [a]. *)
Definition removeAt {A} (i : nat) (a : list A) : list A :=
  firstn i a ++ skipn (Datatypes.S i) a.

Definition insertAt {A} (j : nat) (x : A) (a : list A) : list A :=
  firstn j a ++ x :: skipn j a.

(** ** Image sizing *)

(** The [File] handed to [processImage], as far as it is read. *)
Record File := mkFile {
  file_type : string;
  file_size : Z
}.

(** What [processImage] ends in: an error message on screen, a call of
    [onImageUpload], or neither (no drawing context). *)
Inductive UploadOutcome :=
| UploadError (message : string)
| Uploaded (dataUrl : string) (width height : Q)
| NoContext.

(** [processImage] of the upload panel ([ImageUpload], lines 19-83).  The
    browser decides whether the reader loads the file ([readOk]), whether the
    image decodes and to which size ([decoded]), whether the canvas gives a
    2D context ([ctx]) and what [toDataURL] returns ([dataUrl]).  The scaled
    size is the exact product here; the code rounds the quotient and the
    product to doubles, so that its width can come out a rounding error above
    1200 (and its height above 800): nothing below relies on these bounds. *)
Definition processImage (file : File) (readOk : bool) (decoded : option (Q * Q))
  (ctx : bool) (dataUrl : string) : UploadOutcome :=
  if negb (String.prefix "image/" (file_type file)) then
    UploadError "Please upload an image file"
  else if file_size file >? 10 * 1024 * 1024 then
    UploadError "Image size should be less than 10MB"
  else if negb readOk then UploadError "Failed to read file"
  else
    match decoded with
    | None => UploadError "Failed to load image"
    | Some (imgWidth, imgHeight) =>
        if ctx then
          let maxWidth := 1200%Q in
          let maxHeight := 800%Q in
          let '(width, height) :=
            if JS.ltb maxWidth imgWidth || JS.ltb maxHeight imgHeight then
              let ratio := Math_min2 (maxWidth / imgWidth) (maxHeight / imgHeight) in
              (imgWidth * ratio, imgHeight * ratio)%Q
            else (imgWidth, imgHeight) in
          Uploaded dataUrl width height
        else NoContext
    end.

(** [processImage] with [onImageUpload] bound to [handleImageUpload]
    ([page.tsx], line 518). *)
Definition uploadFile (file : File) (readOk : bool) (decoded : option (Q * Q))
  (ctx : bool) (dataUrl : string) (st : AppState) : AppState :=
  match processImage file readOk decoded ctx dataUrl with
  | Uploaded data width height => handleImageUpload data width height st
  | _ => st
  end.

(** ** Keyboard *)

(** A [KeyboardEvent], as far as the handlers read it; [e_inField] is the
    test on [e.target] for an input, a text area or editable content. *)
Record KeyboardEvent := mkKeyboardEvent {
  e_key : string;
  e_shiftKey : bool;
  e_ctrlKey : bool;
  e_metaKey : bool;
  e_inField : bool
}.

(** [a % b] on numbers: the remainder has the sign of [a]. *)
Definition Math_trunc (q : Q) : Z :=
  if Qle_bool 0 q then Qfloor q else Qceiling q.

Definition js_rem (a b : Q) : Q := (a - b * inject_Z (Math_trunc (a / b)))%Q.

(** The [newRotation] of the rotation shortcut ([Canvas.tsx], lines 473-474). *)
Definition newRotation (shiftKey : bool) (rotation : Q) : Q :=
  let rotationAmount := if shiftKey then 45%Q else 15%Q in
  js_rem (rotation + rotationAmount) 360.

(** The [switch] on [e.key] of lines 441-458. *)
Definition arrowDirection (key : string) : option NudgeDirection :=
  if String.eqb key "ArrowUp" then Some nudge_up
  else if String.eqb key "ArrowDown" then Some nudge_down
  else if String.eqb key "ArrowLeft" then Some nudge_left
  else if String.eqb key "ArrowRight" then Some nudge_right
  else None.

(** The key handler of the canvas ([Canvas.tsx], lines 428-491).  The
    branches on [e.key] exclude one another. *)
Definition canvasKeyDown (showGrid : bool) (e : KeyboardEvent) (loc : CanvasLocal)
  (st : AppState) : AppState :=
  if JS.truthy (editingLayerId loc) then st
  else if e_inField e then st
  else
    match selectedId loc with
    | None => st
    | Some sel =>
        if negb (JS.truthy (Some sel)) then st
        else
          let direction := arrowDirection (e_key e) in
          let amount := if e_shiftKey e then 50%Q else 10%Q in
          match direction with
          | Some d => nudgeLayer showGrid sel d amount st
          | None =>
              let layers := textLayers (canvasState st) in
              if String.eqb (e_key e) "r" || String.eqb (e_key e) "R" then
                match JS.find (fun l => String.eqb (l_id l) sel) layers with
                | Some layer =>
                    let r := newRotation (e_shiftKey e) (l_rotation layer) in
                    let updatedLayers :=
                      map (fun l =>
                             if String.eqb (l_id l) sel then with_rotation l r
                             else l)
                          layers in
                    updateCanvas (only_textLayers updatedLayers) st
                | None => st
                end
              else if String.eqb (e_key e) "0" then
                let updatedLayers :=
                  map (fun l =>
                         if String.eqb (l_id l) sel then with_rotation l 0 else l)
                      layers in
                updateCanvas (only_textLayers updatedLayers) st
              else st
          end
    end.

(** The same key pressed [k] times, a render apart. *)
Fixpoint canvasKeyPresses (k : nat) (showGrid : bool) (e : KeyboardEvent)
  (loc : CanvasLocal) (st : AppState) : AppState :=
  match k with
  | O => st
  | Datatypes.S k' =>
      canvasKeyPresses k' showGrid e loc (canvasKeyDown showGrid e loc st)
  end.

(** The zoom updaters ([page.tsx], lines 413, 416, 457 and 458). *)
Definition zoomIn (prev : Q) : Q := Math_min2 3 (prev + (1 # 10))%Q.
Definition zoomOut (prev : Q) : Q := Math_max2 (1 # 10) (prev - (1 # 10))%Q.

(** [handleKeyDown] of the page ([page.tsx], lines 373-421) on the document
    and the [zoom] state; [newId] is the id a duplicate would get.  [None]
    as for [undo]. *)
Definition handleKeyDown (newId : string) (e : KeyboardEvent) (zoom : Q)
  (st : AppState) : option (AppState * Q) :=
  let selected := selectedLayerId (canvasState st) in
  if e_inField e then Some (st, zoom)
  else if (e_ctrlKey e || e_metaKey e) && String.eqb (e_key e) "z" then
    option_map (fun st' => (st', zoom)) (if e_shiftKey e then redo st else undo st)
  else if (e_ctrlKey e || e_metaKey e) && String.eqb (e_key e) "y" then
    option_map (fun st' => (st', zoom)) (redo st)
  else if (e_ctrlKey e || e_metaKey e) && String.eqb (e_key e) "d" then
    Some (match selected with
          | Some sel =>
              if JS.truthy (Some sel) then handleDuplicateLayer newId sel st else st
          | None => st
          end, zoom)
  else
    let st1 :=
      match selected with
      | Some sel =>
          if JS.truthy (Some sel)
             && (String.eqb (e_key e) "Delete" || String.eqb (e_key e) "Backspace")
          then handleDeleteLayer sel st
          else st
      | None => st
      end in
    let zoom1 :=
      if String.eqb (e_key e) "+" || String.eqb (e_key e) "=" then zoomIn zoom
      else if String.eqb (e_key e) "-" then zoomOut zoom
      else if String.eqb (e_key e) "0" then 1%Q
      else zoom in
    Some (st1, zoom1).

(** ** Dragging *)

(** The mouse moves of one drag, a render apart: the pointer positions
    [moves] in turn, with the local state [loc] that [handleMouseDown] left. *)
Definition dragThrough (showGrid : bool) (moves : list (Q * Q)) (loc : CanvasLocal)
  (st : AppState) : AppState :=
  fold_left (fun st' pos => handleMouseMove showGrid pos loc st') moves st.

(** The documents a drag goes through, one for each mouse move. *)
Fixpoint dragStates (showGrid : bool) (moves : list (Q * Q)) (loc : CanvasLocal)
  (st : AppState) : list CanvasState :=
  match moves with
  | [] => []
  | pos :: moves' =>
      let st' := handleMouseMove showGrid pos loc st in
      canvasState st' :: dragStates showGrid moves' loc st'
  end.

(** How far an arrow key takes a layer that is on the grid, by the direction
    of the key: with the grid shown the candidate position is rounded to the
    grid, halves going up; without it the layer moves by the amount. *)
Definition arrowStep (showGrid shiftKey : bool) (d : NudgeDirection) : Q :=
  match d with
  | nudge_left | nudge_up =>
      if showGrid then (if shiftKey then - (40) else 0)
      else (if shiftKey then - (50) else - (10))
  | nudge_right | nudge_down =>
      if showGrid then (if shiftKey then 60 else 20)
      else (if shiftKey then 50 else 10)
  end%Q.

(** A coordinate [v] that the center snap on [c] leaves alone. *)
Definition off_center (v c : Q) : Prop := ~ (Qabs (v - c) < 50)%Q.

(** ** Reading a list of canvas calls *)

(** The test of line 306 of [page.tsx] and line 82 of [Canvas.tsx]: the
    layer is drawn. *)
Definition drawn (layer : TextLayer) : bool :=
  JS.ltb 0 (l_opacity layer) && l_isVisible layer.

(** The texts passed to [fillText], in order. *)
Fixpoint textsDrawn (calls : list CanvasCall) : list string :=
  match calls with
  | [] => []
  | FillText text _ _ :: calls' => text :: textsDrawn calls'
  | _ :: calls' => textsDrawn calls'
  end.

(** The calls keep the drawing state of one layer to that layer: [save] and
    [restore] alternate, starting with [save] and ending restored ([inside]
    tells whether a [save] is open); the alpha, the font, the alignment, the
    baseline, the transformations and [fillText] occur between a [save] and
    its [restore]; the surface is sized, filled, given the image and encoded
    outside of them. *)
Fixpoint scoped (inside : bool) (calls : list CanvasCall) : bool :=
  match calls with
  | [] => negb inside
  | Save :: calls' => negb inside && scoped true calls'
  | Restore :: calls' => inside && scoped false calls'
  | SetFillStyle _ :: calls' => scoped inside calls'
  | (SetGlobalAlpha _ | SetFont _ | SetTextAlign _ | SetTextBaseline _
     | Translate _ _ | RotateDegrees _ | FillText _ _ _) :: calls' =>
      inside && scoped inside calls'
  | (SetSize _ _ | FillRect _ _ _ _ | DrawImage _ _ _ _ _ | ToDataURL _ _)
    :: calls' =>
      negb inside && scoped inside calls'
  end.

(** The calls of a resolved export; none for a rejected one. *)
Definition callsOf (r : ExportResult) : list CanvasCall :=
  match r with
  | Resolved calls => calls
  | Rejected _ => []
  end.

(** ** Editing a text on the canvas, continued ([Canvas.tsx]) *)



(** ** The preview ([Canvas.tsx], lines 45-154) *)

(** The calls [drawCanvas] makes on the context of the visible canvas: the
    ones the export makes too, and the ones of the preview alone. *)
Inductive PreviewCall :=
| Ctx (call : CanvasCall)
| ClearRect (x y w h : Q)
| SetStrokeStyle (style : string)
| SetLineWidth (w : Q)
| BeginPath
| MoveTo (x y : Q)
| LineTo (x y : Q)
| Stroke
| MeasureText (text : string)
| SetLineDash (segments : list Q)
| SetLineDashOffset (offset : Q)
| StrokeRect (x y w h : Q).

(** [for (let v = v0; v <= limit; v += gridSize) body(v)]; [None] when the
    loop has not ended after [fuel] tests. *)
Fixpoint gridLoop (fuel : nat) (v limit gridSize : Q)
  (body : Q -> list PreviewCall) : option (list PreviewCall) :=
  match fuel with
  | O => None
  | Datatypes.S fuel' =>
      if Qle_bool v limit then
        option_map (app (body v)) (gridLoop fuel' (v + gridSize)%Q limit gridSize body)
      else Some []
  end.

(** The selection border of lines 108-148; [dashOffset] is the value of
    [Math.sin(Date.now() * 0.005) * 5]. *)
Definition selectionBorder (textWidth textHeight textX textY dashOffset : Q)
  (layer : TextLayer) : list PreviewCall :=
  let '(borderX, borderY, borderWidth, borderHeight) :=
    if negb (Qeq_bool (l_rotation layer) 0) then
      let maxDimension := Math_max2 textWidth textHeight in
      let borderWidth := (maxDimension + 20)%Q in
      let borderHeight := (maxDimension + 20)%Q in
      ((textX - borderWidth / 2)%Q, (textY - borderHeight / 2)%Q,
       borderWidth, borderHeight)
    else
      let borderWidth := (textWidth + 20)%Q in
      let borderHeight := (textHeight + 20)%Q in
      let borderX :=
        match l_textAlign layer with
        | AlignLeft => (textX - 10)%Q
        | AlignCenter => (textX - textWidth / 2 - 10)%Q
        | AlignRight => (textX - textWidth - 10)%Q
        end in
      (borderX, (textY - textHeight - 10)%Q, borderWidth, borderHeight) in
  [SetStrokeStyle "#3b82f6"; SetLineWidth 2; SetLineDash [5; 5]%Q;
   SetLineDashOffset dashOffset;
   StrokeRect borderX borderY borderWidth borderHeight;
   SetLineDash []; SetLineDashOffset 0].

(** The body of the [forEach] of lines 81-152 for one layer. *)
Definition drawPreviewLayer (measureText : MeasureCtx) (zoom dashOffset : Q)
  (selected : option string) (layer : TextLayer) : list PreviewCall :=
  if JS.ltb 0 (l_opacity layer) && l_isVisible layer then
    let font := fontOf layer (l_fontSize layer * zoom)%Q in
    let textWidth := measureText font (l_text layer) in
    let textHeight := (l_fontSize layer * zoom)%Q in
    let textX := (l_x layer * zoom)%Q in
    let textY := (l_y layer * zoom)%Q in
    [Ctx Save; Ctx (SetGlobalAlpha (l_opacity layer)); Ctx (SetFont font);
     Ctx (SetFillStyle (l_color layer)); Ctx (SetTextAlign (l_textAlign layer));
     MeasureText (l_text layer)]
    ++ (if negb (Qeq_bool (l_rotation layer) 0)
        then [Ctx (Translate textX textY);
              Ctx (RotateDegrees (l_rotation layer));
              Ctx (FillText (l_text layer) 0 0)]
        else [Ctx (FillText (l_text layer) textX textY)])
    ++ (if is_selected selected (l_id layer)
        then selectionBorder textWidth textHeight textX textY dashOffset layer
        else [])
    ++ [Ctx Restore]
  else [].

(** The grid of lines 59-78. *)
Definition drawGrid (fuel : nat) (canvasWidth canvasHeight zoom : Q)
  : option (list PreviewCall) :=
  let gridSize := (20 * zoom)%Q in
  match
    gridLoop fuel 0 canvasWidth gridSize
      (fun x => [BeginPath; MoveTo x 0; LineTo x canvasHeight; Stroke]),
    gridLoop fuel 0 canvasHeight gridSize
      (fun y => [BeginPath; MoveTo 0 y; LineTo canvasWidth y; Stroke])
  with
  | Some vertical, Some horizontal =>
      Some ([SetStrokeStyle "#e5e7eb"; SetLineWidth 1;
             Ctx (SetGlobalAlpha (1 # 2))]
            ++ vertical ++ horizontal ++ [Ctx (SetGlobalAlpha 1)])
  | _, _ => None
  end.

(** [drawCanvas] (lines 45-154).  [ctx] tells whether the canvas gives a 2D
    context, [imageElement] is the source of the image element once it has
    loaded, [canvasWidth] and [canvasHeight] are the size of the canvas
    element.  [None] when a grid loop has not ended within [fuel] steps. *)
Definition drawCanvas (fuel : nat) (ctx : bool) (imageElement : option string)
  (measureText : MeasureCtx) (canvasWidth canvasHeight zoom dashOffset : Q)
  (showGrid : bool) (selected : option string) (cs : CanvasState)
  : option (list PreviewCall) :=
  match imageElement with
  | None => Some []
  | Some img =>
      if negb ctx then Some []
      else
        match (if showGrid then drawGrid fuel canvasWidth canvasHeight zoom
               else Some []) with
        | None => None
        | Some grid =>
            let sortedLayers := JS.sort by_zIndex (textLayers cs) in
            Some ([ClearRect 0 0 canvasWidth canvasHeight;
                   Ctx (DrawImage img 0 0 canvasWidth canvasHeight)]
                  ++ grid
                  ++ flat_map (drawPreviewLayer measureText zoom dashOffset selected)
                       sortedLayers)
        end
  end.

(** The calls of the preview that the export has too. *)
Fixpoint sharedCalls (calls : list PreviewCall) : list CanvasCall :=
  match calls with
  | [] => []
  | Ctx call :: calls' => call :: sharedCalls calls'
  | _ :: calls' => sharedCalls calls'
  end.

(** The calls of an export without [textBaseline = 'alphabetic'], which
    sets the baseline a context starts with. *)
Definition withoutBaseline (calls : list CanvasCall) : list CanvasCall :=
  filter (fun call => match call with SetTextBaseline _ => false | _ => true end)
    calls.

(** ** Both key listeners *)

(** The canvas and the page each listen to [keydown] on [document]
    ([Canvas.tsx], line 494; [page.tsx], lines 424-428): one key press runs
    both handlers, created by the same render.  The canvas acts on the arrow
    keys, [r], [R] and [0]; the page changes the document on other keys only
    and, of the document, reads the selection, which the canvas handler never
    changes: so at most one of the two records, and the page handler does on
    the state the canvas handler left what it does on the state of its
    render. *)
Definition keyDown (showGrid : bool) (newId : string) (e : KeyboardEvent)
  (loc : CanvasLocal) (zoom : Q) (st : AppState) : option (AppState * Q) :=
  handleKeyDown newId e zoom (canvasKeyDown showGrid e loc st).

(** ** The hide and show switch ([TextProperties.tsx], line 163) *)

(** [{ isVisible: v }] *)
Definition upd_isVisible (v : bool) : PartialTextLayer :=
  mkPartialTextLayer None None None None None None None None None None None None
    None None None (Some v) None None None None None None None None.

(** [onUpdateLayer({ isVisible: !selectedLayer.isVisible })]; the panel
    shows the switch only when a layer is selected (lines 145-155). *)
Definition toggleVisibility (st : AppState) : AppState :=
  match selectedLayer (canvasState st) with
  | Some layer => handleUpdateLayer (upd_isVisible (negb (l_isVisible layer))) st
  | None => st
  end.

(** ** Sequences of structural operations *)




(** The invariant on z-indexes as the specification words it: the values
    across the [N] layers are exactly [0, ..., N-1], in any order. *)
Definition exactly_0_to_N (layers : list TextLayer) : Prop :=
  Permutation (zIndexes layers) (map Z.of_nat (seq 0 (List.length layers))).

(** * Properties *)

(** ** Arrays *)

Lemma len_nonneg {A} (a : list A) : 0 <= JS.len a.
Proof. unfold JS.len. lia. Qed.

Lemma len_app {A} (a b : list A) : JS.len (a ++ b) = JS.len a + JS.len b.
Proof. unfold JS.len. rewrite length_app. lia. Qed.

Lemma slice0_firstn {A} (a : list A) (e : Z) :
  0 <= e -> JS.slice0 a e = firstn (Z.to_nat e) a.
Proof.
  intros He. unfold JS.slice0.
  destruct (Z.ltb_spec e 0); [lia | reflexivity].
Qed.

Lemma len_slice0 {A} (a : list A) (e : Z) :
  0 <= e -> JS.len (JS.slice0 a e) = Z.min e (JS.len a).
Proof.
  intros He. rewrite slice0_firstn by assumption.
  unfold JS.len. rewrite length_firstn. lia.
Qed.

Lemma len_tl {A} (a : list A) : JS.len (tl a) = Z.max 0 (JS.len a - 1).
Proof.
  unfold JS.len. destruct a as [|v a]; [reflexivity|].
  cbn [tl Datatypes.length]. lia.
Qed.

Lemma index_last {A} (a : list A) (s : A) :
  JS.index (a ++ [s]) (JS.len a) = Some s.
Proof.
  unfold JS.index, JS.len.
  destruct (Z.ltb_spec (Z.of_nat (List.length a)) 0); [lia|].
  rewrite Nat2Z.id, nth_error_app2 by lia.
  rewrite Nat.sub_diag. reflexivity.
Qed.

Lemma index_tl {A} (a : list A) (i : Z) :
  0 <= i -> JS.index (tl a) i = JS.index a (i + 1).
Proof.
  intros Hi. unfold JS.index.
  destruct (Z.ltb_spec i 0); [lia|].
  destruct (Z.ltb_spec (i + 1) 0); [lia|].
  replace (Z.to_nat (i + 1)) with (Datatypes.S (Z.to_nat i)) by lia.
  destruct a; simpl; [destruct (Z.to_nat i)|]; reflexivity.
Qed.

(** ** History *)

Section HistoryFacts.

Variable S : Type.
Implicit Types (h : HistoryState S) (s : S) (ss : list S).

Lemma len_appended h s :
  history_wf h -> JS.len (appended h s) = historyIndex h + 2.
Proof.
  intros [_ Hi]. unfold appended. rewrite len_app.
  unfold JS.len in *. rewrite length_firstn. simpl. lia.
Qed.

Lemma record_unfold h s :
  history_wf h ->
  record h s =
    if JS.len (appended h s) >? MAX_HISTORY_STEPS
    then mkHistory (tl (appended h s)) (MAX_HISTORY_STEPS - 1)
    else mkHistory (appended h s) (JS.len (appended h s) - 1).
Proof.
  intros [Hl Hi]. unfold record, addToHistory, appended, JS.shift.
  rewrite slice0_firstn by lia.
  destruct (_ >? _); reflexivity.
Qed.

Lemma len_record h s :
  history_wf h ->
  JS.len (history (record h s)) = Z.min MAX_HISTORY_STEPS (historyIndex h + 2).
Proof.
  intros Hwf. rewrite record_unfold by assumption.
  pose proof (len_appended s Hwf) as Hlen.
  destruct Hwf as [Hl Hi]. unfold MAX_HISTORY_STEPS in *.
  destruct (Z.gtb_spec (JS.len (appended h s)) 20); simpl.
  - rewrite len_tl. lia.
  - lia.
Qed.

Lemma cursor_record h s :
  history_wf h ->
  historyIndex (record h s) = JS.len (history (record h s)) - 1.
Proof.
  intros Hwf. rewrite len_record by assumption.
  rewrite record_unfold by assumption.
  pose proof (len_appended s Hwf) as Hlen.
  destruct Hwf as [Hl Hi]. unfold MAX_HISTORY_STEPS in *.
  destruct (Z.gtb_spec (JS.len (appended h s)) 20); simpl; lia.
Qed.

Lemma record_wf h s : history_wf h -> history_wf (record h s).
Proof.
  intros Hwf. unfold history_wf.
  rewrite (cursor_record s Hwf), (len_record s Hwf).
  destruct Hwf as [Hl Hi]. unfold MAX_HISTORY_STEPS in *. lia.
Qed.

Lemma entry_at_cursor_record h s :
  history_wf h ->
  JS.index (history (record h s)) (historyIndex (record h s)) = Some s.
Proof.
  intros Hwf. rewrite record_unfold by assumption.
  pose proof (len_appended s Hwf) as Hlen.
  destruct Hwf as [Hl Hi]. unfold MAX_HISTORY_STEPS in *.
  assert (Hfirst : JS.len (appended h s) - 1 =
            JS.len (firstn (Z.to_nat (historyIndex h + 1)) (history h))).
  { unfold appended. rewrite len_app. change (JS.len [s]) with 1. lia. }
  destruct (Z.gtb_spec (JS.len (appended h s)) 20);
    cbn [history historyIndex].
  - rewrite index_tl by lia.
    replace (20 - 1 + 1) with (JS.len (appended h s) - 1) by lia.
    rewrite Hfirst. apply index_last.
  - rewrite Hfirst. apply index_last.
Qed.

Lemma canRedo_record h s : history_wf h -> canRedo (record h s) = false.
Proof.
  intros Hwf. unfold canRedo. rewrite (cursor_record s Hwf).
  apply Z.ltb_irrefl.
Qed.

Lemma records_wf h ss : history_wf h -> history_wf (records h ss).
Proof.
  revert h. induction ss as [|s ss IH]; intros h Hwf; simpl.
  - assumption.
  - apply IH, record_wf, Hwf.
Qed.

(** After at least one record the cursor is on the last entry and the
    length has grown by one per record up to the bound. *)
Lemma len_records h s ss :
  history_wf h ->
  let h' := records h (s :: ss) in
  historyIndex h' = JS.len (history h') - 1 /\
  JS.len (history h') =
    Z.min MAX_HISTORY_STEPS (historyIndex h + 1 + JS.len (s :: ss)).
Proof.
  revert h s. induction ss as [|s' ss IH]; intros h s Hwf h'; subst h'.
  - change (records h [s]) with (record h s).
    split; [apply cursor_record, Hwf|].
    rewrite (len_record s Hwf). change (JS.len [s]) with 1. f_equal. lia.
  - change (records h (s :: s' :: ss)) with (records (record h s) (s' :: ss)).
    destruct (IH (record h s) s' (record_wf s Hwf)) as [Hc Hn].
    split; [exact Hc|].
    rewrite Hn, (cursor_record s Hwf), (len_record s Hwf).
    destruct Hwf as [Hl Hi]. unfold MAX_HISTORY_STEPS, JS.len in *.
    cbn [Datatypes.length] in *. lia.
Qed.

(** The outcome of [addToHistory] whatever cursor the callback closed over:
    the array is cut after the closed-over cursor, the cursor advances from
    the current one, and the new snapshot is the last entry. *)
Lemma addToHistory_shape closureIndex h s :
  JS.len (history h) <= MAX_HISTORY_STEPS ->
  -1 <= closureIndex -> -1 <= historyIndex h ->
  let h' := addToHistory closureIndex s h in
  JS.len (history h')
    = Z.min (Z.min (closureIndex + 1) (JS.len (history h)) + 1) MAX_HISTORY_STEPS /\
  historyIndex h'
    = Z.min (Z.min (historyIndex h + 1) (JS.len (history h)))
        (MAX_HISTORY_STEPS - 1) /\
  JS.index (history h') (JS.len (history h') - 1) = Some s.
Proof.
  intros Hl Hc Hi h'. subst h'. unfold addToHistory, JS.shift.
  cbn [history historyIndex].
  set (A := JS.slice0 (history h) (closureIndex + 1)).
  set (B := JS.slice0 (history h) (historyIndex h + 1)).
  assert (HA : JS.len A = Z.min (closureIndex + 1) (JS.len (history h)))
    by (apply len_slice0; lia).
  assert (HB : JS.len B = Z.min (historyIndex h + 1) (JS.len (history h)))
    by (apply len_slice0; lia).
  rewrite !len_app. change (JS.len [s]) with 1.
  pose proof (len_nonneg (history h)) as Hn.
  unfold MAX_HISTORY_STEPS in *.
  destruct (Z.gtb_spec (JS.len A + 1) 20) as [HgA|HgA];
    destruct (Z.gtb_spec (JS.len B + 1) 20) as [HgB|HgB];
    rewrite ?len_tl, ?len_app; change (JS.len [s]) with 1;
    (split; [lia|]); (split; [lia|]).
  - rewrite index_tl by lia.
    replace (Z.max 0 (JS.len A + 1 - 1) - 1 + 1) with (JS.len A) by lia.
    apply index_last.
  - rewrite index_tl by lia.
    replace (Z.max 0 (JS.len A + 1 - 1) - 1 + 1) with (JS.len A) by lia.
    apply index_last.
  - replace (JS.len A + 1 - 1) with (JS.len A) by lia. apply index_last.
  - replace (JS.len A + 1 - 1) with (JS.len A) by lia. apply index_last.
Qed.

(** Two records through callbacks of one render, from a history in step with
    the cursor on its last entry and two free places: the first of the two
    entries is dropped and the cursor ends one past the last entry. *)
Lemma second_record_of_a_render h s1 s2 :
  historyIndex h = JS.len (history h) - 1 ->
  JS.len (history h) + 2 <= MAX_HISTORY_STEPS ->
  let h' := addToHistory (historyIndex h) s2 (record h s1) in
  history h' = history h ++ [s2] /\
  historyIndex h' = JS.len (history h').
Proof.
  intros Hi Hl h'. subst h'. unfold record, addToHistory, JS.shift.
  cbn [history historyIndex]. unfold MAX_HISTORY_STEPS in *.
  pose proof (len_nonneg (history h)) as Hn.
  assert (Hall : JS.slice0 (history h) (historyIndex h + 1) = history h).
  { rewrite slice0_firstn by lia. apply firstn_all2. unfold JS.len in *. lia. }
  rewrite Hall. rewrite !len_app. change (JS.len [s1]) with 1.
  destruct (Z.gtb_spec (JS.len (history h) + 1) 20) as [Hg|_]; [lia|].
  assert (Hcut : JS.slice0 (history h ++ [s1]) (historyIndex h + 1) = history h).
  { rewrite slice0_firstn by lia.
    replace (Z.to_nat (historyIndex h + 1))
      with (List.length (history h) + 0)%nat by (unfold JS.len in *; lia).
    rewrite firstn_app_2. cbn [firstn]. apply app_nil_r. }
  assert (Hkeep : JS.slice0 (history h ++ [s1]) (JS.len (history h) + 1 - 1 + 1)
                  = history h ++ [s1]).
  { rewrite slice0_firstn by lia. apply firstn_all2.
    rewrite length_app. unfold JS.len in *. cbn [Datatypes.length]. lia. }
  rewrite Hcut, Hkeep. rewrite !len_app.
  change (JS.len [s1]) with 1. change (JS.len [s2]) with 1.
  destruct (Z.gtb_spec (JS.len (history h) + 1 + 1) 20) as [Hg|_]; [lia|].
  destruct (Z.gtb_spec (JS.len (history h) + 1) 20) as [Hg|_]; [lia|].
  split; [reflexivity|].
  rewrite len_app. change (JS.len [s2]) with 1. lia.
Qed.

End HistoryFacts.

(** Recording once per render keeps the history as the specification
    describes it.  From any history
    the application can hold, and after any sequence [ss] of recorded
    mutations: the history has at most 20 entries; one more record [s]
    truncates the entries after the cursor, appends [s] and, when that makes
    21 entries, drops the oldest one; the cursor is then on the entry just
    appended, which is the last one; and once 20 or more mutations have been
    recorded the history holds exactly 20 entries. *)
Lemma record_keeps_history_within_max_steps :
  forall (S : Type) (h : HistoryState S) (ss : list S),
    history_wf h ->
    let h' := records h ss in
    JS.len (history h') <= 20 /\
    (forall s,
        let truncated :=
          firstn (Z.to_nat (historyIndex h' + 1)) (history h') ++ [s] in
        history (record h' s) =
          (if JS.len truncated >? 20 then tl truncated else truncated) /\
        historyIndex (record h' s) = JS.len (history (record h' s)) - 1 /\
        JS.index (history (record h' s)) (historyIndex (record h' s)) = Some s /\
        JS.len (history (record h' s)) <= 20) /\
    (20 <= JS.len ss -> JS.len (history h') = 20).
Proof.
  intros S h ss Hwf h'.
  assert (Hwf' : history_wf h') by (apply records_wf, Hwf).
  split; [exact (proj1 Hwf')|]. split.
  - intros s truncated. repeat split.
    + rewrite record_unfold by assumption.
      change truncated with (appended h' s).
      change MAX_HISTORY_STEPS with 20.
      destruct (JS.len (appended h' s) >? 20); reflexivity.
    + apply cursor_record, Hwf'.
    + apply entry_at_cursor_record, Hwf'.
    + exact (proj1 (record_wf s Hwf')).
  - intros Hn. subst h'. destruct ss as [|s ss].
    + unfold JS.len in Hn. simpl in Hn. lia.
    + pose proof (len_records s ss Hwf) as Hlr. cbv zeta in Hlr.
      destruct Hlr as [_ Hlen]. rewrite Hlen.
      destruct Hwf as [Hl Hi]. unfold MAX_HISTORY_STEPS in *. lia.
Qed.

(** ** Undo and redo *)

Lemma index_in_range {A} (a : list A) (i : Z) :
  0 <= i < JS.len a -> exists v, JS.index a i = Some v.
Proof.
  intros [Hi Hlen]. unfold JS.index, JS.len in *.
  destruct (Z.ltb_spec i 0); [lia|].
  destruct (nth_error a (Z.to_nat i)) as [v|] eqn:E; [now exists v|].
  apply nth_error_None in E. lia.
Qed.

Lemma index_some_range {A} (a : list A) (i : Z) v :
  JS.index a i = Some v -> 0 <= i < JS.len a.
Proof.
  unfold JS.index, JS.len. destruct (Z.ltb_spec i 0) as [Hneg|Hpos];
    [discriminate|].
  intros H. assert (Hn : nth_error a (Z.to_nat i) <> None) by congruence.
  apply nth_error_Some in Hn. lia.
Qed.

Lemma index_firstn_snoc {A} (a : list A) (n : nat) (s : A) (i : Z) :
  0 <= i < Z.of_nat n -> i < JS.len a ->
  JS.index (firstn n a ++ [s]) i = JS.index a i.
Proof.
  intros Hi Hlen. unfold JS.index, JS.len in *.
  destruct (Z.ltb_spec i 0); [lia|].
  rewrite nth_error_app1 by (rewrite length_firstn; lia).
  rewrite nth_error_firstn.
  destruct (Nat.ltb_spec (Z.to_nat i) n); [reflexivity | lia].
Qed.

Lemma app_ok_cursor st :
  app_ok st ->
  -1 <= historyIndex (hist st) <= JS.len (history (hist st)) /\
  JS.len (history (hist st)) <= MAX_HISTORY_STEPS.
Proof.
  intros [Hl Hc]. pose proof (len_nonneg (history (hist st))) as Hn.
  split; [|exact Hl].
  destruct Hc as [[Hh Hi] | [[Hi _] | [Hi _]]]; lia.
Qed.

Lemma initialApp_ok : app_ok initialApp.
Proof.
  split.
  - unfold MAX_HISTORY_STEPS, JS.len. simpl. lia.
  - left. split; reflexivity.
Qed.

(** After one record from the current render the cursor is on the new
    entry. *)
Lemma commit_ok st newState :
  app_ok st ->
  app_ok (commit st newState) /\
  historyIndex (hist (commit st newState))
    = JS.len (history (hist (commit st newState))) - 1.
Proof.
  intros Hok. destruct (app_ok_cursor Hok) as [Hc Hl].
  destruct (@addToHistory_shape _ (historyIndex (hist st)) (hist st) newState)
    as (Hlen & Hidx & Hlast); try lia.
  pose proof (len_nonneg (history (hist st))) as Hn.
  unfold commit, commitFrom, app_ok. cbn [hist canvasState].
  unfold MAX_HISTORY_STEPS in *.
  assert (Hsync : historyIndex (addToHistory (historyIndex (hist st)) newState (hist st))
                  = JS.len (history (addToHistory (historyIndex (hist st)) newState
                                       (hist st))) - 1) by lia.
  split; [|exact Hsync]. split; [lia|].
  right. left. rewrite Hsync. split; [lia | exact Hlast].
Qed.

(** After a second record from the same render the cursor is on the new
    entry or one past it. *)
Lemma mutate_ok st m :
  app_ok st -> app_ok (mutate st m) /\ at_newest (mutate st m).
Proof.
  intros Hok. destruct m as [newState | first second]; cbn [mutate].
  - destruct (commit_ok newState Hok) as [Hok' Hsync].
    split; [exact Hok'|]. unfold at_newest. lia.
  - destruct (commit_ok first Hok) as [Hok1 Hsync1].
    destruct (app_ok_cursor Hok) as [Hc Hl].
    destruct (app_ok_cursor Hok1) as [Hc1 Hl1].
    destruct (@addToHistory_shape _ (historyIndex (hist st))
                (hist (commit st first)) second)
      as (Hlen & Hidx & Hlast); try lia.
    destruct (@addToHistory_shape _ (historyIndex (hist st)) (hist st) first)
      as (Hlen1 & _ & _); try lia.
    change (addToHistory (historyIndex (hist st)) first (hist st))
      with (hist (commit st first)) in Hlen1.
    pose proof (len_nonneg (history (hist st))) as Hn.
    unfold at_newest, app_ok, commitFrom. cbn [hist canvasState].
    set (h2 := addToHistory (historyIndex (hist st)) second
                 (hist (commit st first))) in *.
    unfold MAX_HISTORY_STEPS in *.
    split; [|lia]. split; [lia|].
    destruct (Z.eq_dec (historyIndex h2) (JS.len (history h2) - 1)) as [E|E].
    + right. left. rewrite E. split; [lia | exact Hlast].
    + right. right. assert (E' : historyIndex h2 = JS.len (history h2)) by lia.
      rewrite E'. split; [reflexivity | exact Hlast].
Qed.

Lemma mutations_ok st m ms :
  app_ok st ->
  app_ok (mutations st (m :: ms)) /\ at_newest (mutations st (m :: ms)).
Proof.
  revert st m. induction ms as [|m' ms IH]; intros st m Hok.
  - apply mutate_ok, Hok.
  - apply (IH (mutate st m) m'), mutate_ok, Hok.
Qed.

Lemma undo_ok st :
  app_ok st -> exists st1, undo st = Some st1 /\ app_ok st1.
Proof.
  intros Hok. destruct (app_ok_cursor Hok) as [Hc Hl]. unfold undo.
  destruct (Z.gtb_spec (historyIndex (hist st)) 0) as [Hi|Hi];
    [|exists st; split; [reflexivity | exact Hok]].
  destruct (@index_in_range _ (history (hist st)) (historyIndex (hist st) - 1))
    as [s Hs]; [lia|].
  rewrite Hs. eexists. split; [reflexivity|].
  split; cbn [hist history historyIndex canvasState]; [exact Hl|].
  right. left. split; [lia | exact Hs].
Qed.

Lemma redo_ok st :
  app_ok st -> forall st1, redo st = Some st1 -> app_ok st1.
Proof.
  intros Hok st1. destruct (app_ok_cursor Hok) as [Hc Hl]. unfold redo.
  destruct (Z.ltb_spec (historyIndex (hist st))
              (JS.len (history (hist st)) - 1)) as [Hi|Hi];
    [|intros H; injection H as <-; exact Hok].
  destruct (JS.index _ _) as [s|] eqn:Hs; [|discriminate].
  intros H. injection H as <-.
  split; cbn [hist history historyIndex canvasState]; [exact Hl|].
  right. left. split; [lia | exact Hs].
Qed.

Lemma handleImageUpload_ok imageData width height st :
  app_ok (handleImageUpload imageData width height st).
Proof.
  split.
  - unfold MAX_HISTORY_STEPS, JS.len. simpl. lia.
  - right. left. split; [unfold JS.len; simpl; lia | reflexivity].
Qed.

Lemma handleResetDesign_ok st : app_ok (handleResetDesign st).
Proof.
  split.
  - unfold MAX_HISTORY_STEPS, JS.len. simpl. lia.
  - right. left. split; [unfold JS.len; simpl; lia | reflexivity].
Qed.

(** One undo and one redo, from a state with nothing to redo, show the same
    document again; they give the very same state when the cursor was on an
    entry. *)
Lemma redo_undo st :
  app_ok st -> at_newest st ->
  exists st1 st2,
    undo st = Some st1 /\ redo st1 = Some st2 /\
    canvasState st2 = canvasState st /\
    (historyIndex (hist st) < JS.len (history (hist st)) -> st2 = st).
Proof.
  intros [Hl Hc] Hnew. unfold at_newest, undo, redo in *.
  destruct st as [cs tab [hs i]].
  cbn [hist history historyIndex canvasState activeTab] in *.
  pose proof (len_nonneg hs) as Hn.
  destruct (Z.gtb_spec i 0) as [Hi|Hi].
  - assert (Hcur : (i < JS.len hs /\ JS.index hs i = Some cs) \/
                   (i = JS.len hs /\ JS.index hs (i - 1) = Some cs)).
    { destruct Hc as [[_ Hc] | [[Hr Hc] | Hc]]; [lia | left | right]; tauto. }
    destruct (@index_in_range _ hs (i - 1)) as [s Hs]; [lia|].
    rewrite Hs. exists (mkAppState s tab (mkHistory hs (i - 1))).
    cbn [hist history historyIndex activeTab canvasState].
    destruct Hcur as [[Hr Hcs] | [Hr Hcs]].
    + destruct (Z.ltb_spec (i - 1) (JS.len hs - 1)); [|lia].
      replace (i - 1 + 1) with i by lia. rewrite Hcs.
      eexists. repeat split; reflexivity.
    + destruct (Z.ltb_spec (i - 1) (JS.len hs - 1)); [lia|].
      eexists. repeat split; try reflexivity.
      * cbn [canvasState]. congruence.
      * lia.
  - exists (mkAppState cs tab (mkHistory hs i)).
    cbn [hist history historyIndex activeTab canvasState].
    destruct (Z.ltb_spec i (JS.len hs - 1)); [lia|].
    eexists. repeat split; reflexivity.
Qed.

Lemma redo_at_newest st : at_newest st -> redo st = Some st.
Proof.
  unfold at_newest, redo. intros H.
  destruct (Z.ltb_spec (historyIndex (hist st))
              (JS.len (history (hist st)) - 1)); [lia | reflexivity].
Qed.

Lemma canRedo_at_newest st : at_newest st -> canRedo (hist st) = false.
Proof.
  unfold at_newest, canRedo. intros H. apply Z.ltb_ge. lia.
Qed.

(** [C2] After any non-empty sequence of events that record mutations
    (one record per event, or two as a double click on the empty canvas
    makes), one undo followed by one redo shows the document of before the
    undo, field for field, and gives back the whole state when the cursor was
    on an entry; and once a mutation is recorded after the undo the cursor is
    on the newest entry or past it: [canRedo] is false and [redo] changes
    nothing. *)
Theorem undo_then_redo_restores_document :
  forall (st0 : AppState) (m : Mutation) (ms : list Mutation),
    app_ok st0 ->
    let st := mutations st0 (m :: ms) in
    exists st1 st2,
      undo st = Some st1 /\ redo st1 = Some st2 /\
      canvasState st2 = canvasState st /\
      (historyIndex (hist st) < JS.len (history (hist st)) -> st2 = st) /\
      forall m',
        canRedo (hist (mutate st1 m')) = false /\
        redo (mutate st1 m') = Some (mutate st1 m').
Proof.
  intros st0 m ms Hok0 st.
  destruct (mutations_ok m ms Hok0) as [Hok Hnew]. fold st in Hok, Hnew.
  destruct (redo_undo Hok Hnew) as (st1 & st2 & Hu & Hr & Hcs & Hst).
  exists st1, st2. repeat split; try assumption.
  - apply canRedo_at_newest, mutate_ok.
    destruct (undo_ok Hok) as (st1' & Hu' & Hok1). congruence.
  - apply redo_at_newest, mutate_ok.
    destruct (undo_ok Hok) as (st1' & Hu' & Hok1). congruence.
Qed.

(** [C2], at two documents recorded from the state the page is mounted with. *)
Lemma undo_then_redo_restores_document_witness :
  let docA := mkCanvasState (Some "a"%string) 400 300 [] None in
  let docB := mkCanvasState (Some "a"%string) 400 300 [] (Some "x"%string) in
  let st := mutations initialApp [Once docA; Once docB] in
  exists st1 st2,
    undo st = Some st1 /\ redo st1 = Some st2 /\
    canvasState st2 = canvasState st /\
    (historyIndex (hist st) < JS.len (history (hist st)) -> st2 = st) /\
    forall m',
      canRedo (hist (mutate st1 m')) = false /\
      redo (mutate st1 m') = Some (mutate st1 m').
Proof.
  intros docA docB.
  apply (@undo_then_redo_restores_document initialApp (Once docA) [Once docB]).
  split.
  - unfold MAX_HISTORY_STEPS, JS.len. simpl. lia.
  - left. split; reflexivity.
Defined.

(** ** Selection *)

Lemma undo_setActiveTab t st :
  undo (setActiveTab t st) = option_map (setActiveTab t) (undo st).
Proof.
  unfold undo, setActiveTab. cbn [hist activeTab canvasState].
  destruct (_ >? 0); [|reflexivity].
  destruct (JS.index _ _); reflexivity.
Qed.

(** Undoing a mutation recorded from the current render shows the document
    that was on screen before it, provided the history held that document. *)
Lemma undo_commit st newState :
  app_ok st -> history (hist st) <> [] ->
  exists st1, undo (commit st newState) = Some st1 /\
              canvasState st1 = canvasState st.
Proof.
  intros Hok Hne.
  destruct (commit_ok newState Hok) as [Hok' Hsync].
  destruct (app_ok_cursor Hok) as [Hc Hl].
  destruct (@addToHistory_shape _ (historyIndex (hist st)) (hist st) newState)
    as (Hlen & _ & _); try lia.
  change (addToHistory (historyIndex (hist st)) newState (hist st))
    with (hist (commit st newState)) in Hlen.
  destruct Hok as [_ Hcur].
  assert (Hprev : 0 <= historyIndex (hist st) /\
            exists j, 0 <= j < historyIndex (hist st) + 1 /\
                      j = Z.min (historyIndex (hist st)) (JS.len (history (hist st)) - 1) /\
                      JS.index (history (hist st)) j = Some (canvasState st)).
  { destruct Hcur as [[Hh _] | [[Hr Hcs] | [Hr Hcs]]]; [contradiction| |].
    - split; [lia|]. exists (historyIndex (hist st)).
      repeat split; try lia. exact Hcs.
    - pose proof (index_some_range _ _ Hcs) as Hrange.
      split; [lia|]. exists (historyIndex (hist st) - 1).
      repeat split; try lia. exact Hcs. }
  destruct Hprev as (Hi0 & j & Hj & Hjmin & Hjcs).
  pose proof (index_some_range _ _ Hjcs) as Hjr.
  unfold MAX_HISTORY_STEPS in *.
  assert (Hentry : JS.index (history (hist (commit st newState)))
                     (historyIndex (hist (commit st newState)) - 1)
                   = Some (canvasState st)).
  { rewrite Hsync. unfold commit, commitFrom, addToHistory, JS.shift.
    cbn [hist history historyIndex].
    rewrite slice0_firstn by lia.
    set (A := firstn (Z.to_nat (historyIndex (hist st) + 1)) (history (hist st))).
    assert (HA : JS.len A
                 = Z.min (historyIndex (hist st) + 1) (JS.len (history (hist st)))).
    { unfold A, JS.len. rewrite length_firstn. lia. }
    rewrite len_app. change (JS.len [newState]) with 1.
    unfold MAX_HISTORY_STEPS.
    destruct (Z.gtb_spec (JS.len A + 1) 20) as [Hg|Hg].
    - rewrite len_tl, len_app. change (JS.len [newState]) with 1.
      rewrite index_tl by lia.
      replace (Z.max 0 (JS.len A + 1 - 1) - 1 - 1 + 1) with j by lia.
      unfold A. rewrite index_firstn_snoc by lia. exact Hjcs.
    - rewrite len_app. change (JS.len [newState]) with 1.
      replace (JS.len A + 1 - 1 - 1) with j by lia.
      unfold A. rewrite index_firstn_snoc by lia. exact Hjcs. }
  unfold undo.
  destruct (Z.gtb_spec (historyIndex (hist (commit st newState))) 0); [|lia].
  rewrite Hentry. eexists. split; reflexivity.
Qed.

(** ** Two records from one render *)

(** [C1] at a double click on the empty canvas right after an upload.
    The two presses of the button each record the cleared selection; the
    double click then records the document with the new layer and the
    document with that layer selected, through two callbacks of one render.
    The array is cut after the cursor of that render both times, so the first
    of these two entries is dropped, while the cursor advances twice: the
    history holds 4 entries and the cursor is 4, one past the last entry,
    where the claim has [length - 1].  An undo then shows the document that
    was already on screen.  Eleven events of two records each, 22 records in
    all, leave 16 entries where the claim has 20. *)
Theorem double_click_leaves_cursor_past_end :
  let st0 := handleImageUpload "data" 400 300 initialApp in
  let st := snd (Sample.doubleClickGesture (50, 50)%Q "i" Sample.idle st0) in
  (textLayers (canvasState st) = [createDefaultTextLayer "i" 50 50] /\
   selectedLayerId (canvasState st) = Some "i"%string /\
   history (hist st)
     = [canvasState st0; canvasState st0; canvasState st0; canvasState st] /\
   historyIndex (hist st) = 4 /\
   JS.len (history (hist st)) - 1 = 3 /\
   JS.index (history (hist st)) (historyIndex (hist st)) = None /\
   option_map canvasState (undo st) = Some (canvasState st)) /\
  JS.len (history (hist (mutations initialApp
                           (repeat (Twice blankState blankState) 11)))) = 16.
Proof. split; [repeat split | reflexivity]. Qed.

(** ** Committing a text edit *)

Lemma strip_prefix_sound w s r :
  JS.strip_prefix w s = Some r -> s = (w ++ r)%string.
Proof.
  revert s; induction w as [|a w IH]; intros s H.
  - injection H as <-. reflexivity.
  - destruct s as [|b s]; [discriminate|]. cbn [JS.strip_prefix] in H.
    destruct (Ascii.eqb a b) eqn:E; [|discriminate].
    apply Ascii.eqb_eq in E. subst b. cbn [String.append].
    f_equal. apply IH, H.
Qed.

Lemma strip_space_sound s r :
  JS.strip_space s = Some r ->
  exists cp, In cp JS.white_space_code_points /\ s = (JS.utf8 cp ++ r)%string.
Proof.
  unfold JS.strip_space, JS.white_space.
  induction JS.white_space_code_points as [|cp cps IH]; [discriminate|].
  cbn [map JS.strip_any].
  destruct (JS.strip_prefix (JS.utf8 cp) s) as [r'|] eqn:E.
  - intros H. injection H as <-. exists cp. split; [left; reflexivity|].
    apply strip_prefix_sound, E.
  - intros H. destruct (IH H) as [cp' [Hin Hs]].
    exists cp'. split; [right; exact Hin|exact Hs].
Qed.

Lemma strip_space_complete cp r :
  In cp JS.white_space_code_points ->
  JS.strip_space (JS.utf8 cp ++ r) = Some r.
Proof.
  intros H. unfold JS.white_space_code_points in H.
  repeat (destruct H as [<-|H]; [reflexivity|]). destruct H.
Qed.

Lemma strip_space_empty : JS.strip_space EmptyString = None.
Proof. reflexivity. Qed.

Lemma length_append (a b : string) :
  String.length (a ++ b) = (String.length a + String.length b)%nat.
Proof.
  induction a as [|c a IH]; [reflexivity|].
  cbn [String.append String.length]. rewrite IH. reflexivity.
Qed.

Lemma strip_space_shorter s r :
  JS.strip_space s = Some r -> (String.length r < String.length s)%nat.
Proof.
  intros H. destruct (strip_space_sound _ H) as [cp [Hin ->]].
  rewrite length_append.
  assert (Hlen : (1 <= String.length (JS.utf8 cp))%nat).
  { unfold JS.white_space_code_points in Hin.
    repeat (destruct Hin as [<-|Hin]; [cbn; lia|]). destruct Hin. }
  lia.
Qed.

Lemma blank_from_more n m s :
  (String.length s <= n)%nat -> (String.length s <= m)%nat ->
  JS.blank_from n s = JS.blank_from m s.
Proof.
  revert m s; induction n as [|n IH]; intros m s Hn Hm.
  - destruct s; [destruct m; reflexivity|cbn in Hn; lia].
  - destruct s as [|c s]; [destruct m; reflexivity|].
    destruct m as [|m]; [cbn in Hm; lia|].
    cbn [JS.blank_from].
    destruct (JS.strip_space (String c s)) as [r|] eqn:E; [|reflexivity].
    apply strip_space_shorter in E. apply IH; lia.
Qed.

Lemma trim_start_from_blank n s :
  (String.length s <= n)%nat ->
  JS.trim_start_from n s = EmptyString <-> JS.blank_from n s = true.
Proof.
  revert s; induction n as [|n IH]; intros s Hn.
  - destruct s; [cbn; tauto|cbn in Hn; lia].
  - destruct s as [|c s]; [cbn; tauto|].
    cbn [JS.trim_start_from JS.blank_from].
    destruct (JS.strip_space (String c s)) as [r|] eqn:E.
    + apply strip_space_shorter in E. apply IH. lia.
    + split; discriminate.
Qed.

Lemma trim_start_from_done n s :
  (String.length s <= n)%nat ->
  JS.trim_start_from n s = EmptyString \/
  JS.strip_space (JS.trim_start_from n s) = None.
Proof.
  revert s; induction n as [|n IH]; intros s Hn.
  - destruct s; [left; reflexivity|cbn in Hn; lia].
  - cbn [JS.trim_start_from].
    destruct (JS.strip_space s) as [r|] eqn:E; [|right; exact E].
    apply strip_space_shorter in E. apply IH. lia.
Qed.

Lemma blank_strip s :
  JS.blank s = true -> s = EmptyString \/ exists r, JS.strip_space s = Some r.
Proof.
  unfold JS.blank. destruct s as [|c s]; [left; reflexivity|right].
  cbn [String.length JS.blank_from] in H.
  destruct (JS.strip_space (String c s)) as [r|]; [exists r; reflexivity|discriminate].
Qed.

(** The test decides the predicate. *)
Lemma only_white_space_spec s : only_white_space s = true <-> WhiteSpaceOnly s.
Proof.
  unfold only_white_space, JS.blank. split.
  - remember (String.length s) as n eqn:En.
    assert (Hn : (String.length s <= n)%nat) by lia. clear En.
    revert s Hn. induction n as [|n IH]; intros s Hn H.
    + destruct s; [constructor|discriminate].
    + destruct s as [|c s]; [constructor|].
      cbn [JS.blank_from] in H.
      destruct (JS.strip_space (String c s)) as [r|] eqn:E; [|discriminate].
      destruct (strip_space_sound _ E) as [cp [Hin Hs]]. rewrite Hs.
      apply strip_space_shorter in E.
      constructor; [exact Hin|]. apply IH; [lia|exact H].
  - induction 1 as [|cp s Hin Hs IH]; [reflexivity|].
    pose proof (strip_space_complete s Hin) as E.
    pose proof (strip_space_shorter _ E) as Hlen.
    destruct (JS.utf8 cp ++ s)%string as [|c t] eqn:Et; [reflexivity|].
    cbn [String.length JS.blank_from]. rewrite E.
    rewrite (@blank_from_more _ (String.length s) s); [exact IH| |lia].
    cbn [String.length] in Hlen. lia.
Qed.

Lemma trim_empty s : JS.trim s = EmptyString <-> only_white_space s = true.
Proof.
  unfold JS.trim, only_white_space.
  assert (Hend : forall t, JS.trim_end t = EmptyString <-> JS.blank t = true).
  { intros [|c t]; [cbn; tauto|]. cbn [JS.trim_end].
    destruct (JS.blank (String c t)); split; congruence. }
  rewrite Hend.
  pose proof (@trim_start_from_blank (String.length s) s (Nat.le_refl _)) as Hs.
  fold (JS.trim_start s) (JS.blank s) in Hs.
  split.
  - intros Hb. apply Hs.
    destruct (@trim_start_from_done (String.length s) s (Nat.le_refl _)) as [E|E];
      fold (JS.trim_start s) in E; [exact E|].
    destruct (blank_strip _ Hb) as [E'|[r E']]; [exact E'|congruence].
  - intros Hb. apply Hs in Hb. rewrite Hb. reflexivity.
Qed.

(** [C9] Committing a text edit whose text is empty or white space only
    (any sequence of the characters [trim] removes: the ASCII white space,
    the no-break space, the Unicode space separators, the line and paragraph
    separators and the byte order mark) leaves the application state as it
    is: the document (every layer, with its text, width and height) and the
    history are unchanged; the canvas only leaves the editing mode.  This
    holds with or without a layer being edited and with or without a
    measuring context. *)
Theorem blank_text_edit_is_noop :
  forall (tempCtx : option MeasureCtx) (loc : CanvasLocal) (st : AppState),
    WhiteSpaceOnly (editingText loc) ->
    handleTextEditSave tempCtx loc st =
      (mkCanvasLocal (selectedId loc) (isDragging loc) (dragOffset loc)
         None EmptyString,
       st).
Proof.
  intros tempCtx loc st Hblank.
  apply only_white_space_spec, trim_empty in Hblank.
  unfold handleTextEditSave. rewrite Hblank. simpl String.eqb.
  destruct (editingLayerId loc); [|reflexivity].
  rewrite andb_false_r. reflexivity.
Qed.

(** [C9], at an edit of a space, an em space (U+2003), an ideographic space
    (U+3000), a no-break space and a tabulation. *)
Lemma blank_text_edit_is_noop_witness :
  let text :=
    (" " ++ JS.utf8 0x2003 ++ JS.utf8 0x3000 ++ JS.utf8 0xA0 ++ JS.utf8 0x9)%string in
  WhiteSpaceOnly text /\
  handleTextEditSave (Some Sample.measureText) (Sample.editing text) Sample.app
  = (mkCanvasLocal (Some "i"%string) false (0, 0)%Q None EmptyString, Sample.app).
Proof.
  intros text.
  assert (Hblank : WhiteSpaceOnly text) by (apply only_white_space_spec; reflexivity).
  split; [exact Hblank|].
  apply (@blank_text_edit_is_noop (Some Sample.measureText)
           (Sample.editing text) Sample.app).
  exact Hblank.
Defined.

(** ** Sorting and z-indexes *)

Section SortFacts.

Variable A : Type.
Variable cmp : A -> A -> Z.

Lemma insert_perm x l : Permutation (JS.insert cmp x l) (x :: l).
Proof.
  induction l as [|y l IH]; simpl.
  - apply Permutation_refl.
  - destruct (cmp x y <=? 0).
    + apply Permutation_refl.
    + eapply perm_trans; [apply perm_skip, IH | apply perm_swap].
Qed.

Lemma sort_perm l : Permutation (JS.sort cmp l) l.
Proof.
  induction l as [|x l IH]; simpl.
  - apply perm_nil.
  - eapply perm_trans; [apply insert_perm | apply perm_skip, IH].
Qed.

Lemma sort_length l : List.length (JS.sort cmp l) = List.length l.
Proof. apply Permutation_length, sort_perm. Qed.

(** An element that may stay before [x] stays before it when [x] is the
    last one. *)
Lemma insert_snoc a m x :
  cmp a x <= 0 -> JS.insert cmp a (m ++ [x]) = JS.insert cmp a m ++ [x].
Proof.
  intros Hax. induction m as [|y m IH]; simpl.
  - destruct (Z.leb_spec (cmp a x) 0); [reflexivity | lia].
  - destruct (cmp a y <=? 0); [reflexivity|]. rewrite IH. reflexivity.
Qed.

Lemma sort_snoc l x :
  (forall a, In a l -> cmp a x <= 0) ->
  JS.sort cmp (l ++ [x]) = JS.sort cmp l ++ [x].
Proof.
  induction l as [|a l IH]; intros Hle; simpl.
  - reflexivity.
  - rewrite IH by (intros b Hb; apply Hle; now right).
    apply insert_snoc, Hle. now left.
Qed.

(** The comparators of the sources order by a key: [cmp a b] is
    [key a - key b]. *)
Variable key : A -> Z.
Hypothesis cmp_key : forall a b, cmp a b = key a - key b.

Lemma insert_sorted x l :
  StronglySorted (key_le key) l ->
  StronglySorted (key_le key) (JS.insert cmp x l).
Proof.
  induction 1 as [|y l Hs IH Hy]; simpl.
  - repeat constructor.
  - rewrite cmp_key.
    destruct (Z.leb_spec (key x - key y) 0) as [Hxy|Hxy].
    + constructor; [constructor; assumption|].
      constructor; [unfold key_le; lia|].
      eapply Forall_impl; [|exact Hy].
      unfold key_le. intros b Hb. lia.
    + constructor; [exact IH|].
      eapply Permutation_Forall; [apply Permutation_sym, insert_perm|].
      constructor; [unfold key_le; lia | exact Hy].
Qed.

Lemma sort_sorted l : StronglySorted (key_le key) (JS.sort cmp l).
Proof.
  induction l as [|x l IH]; simpl.
  - constructor.
  - apply insert_sorted, IH.
Qed.

(** The sort is stable: the elements that share a key keep their order. *)
Lemma insert_stable k x l :
  filter (fun y => key y =? k) (JS.insert cmp x l) =
  filter (fun y => key y =? k) (x :: l).
Proof.
  induction l as [|y l IH].
  - reflexivity.
  - cbn [JS.insert]. rewrite cmp_key.
    destruct (Z.leb_spec (key x - key y) 0) as [Hxy|Hxy];
      [reflexivity|].
    cbn [filter] in *. rewrite IH.
    destruct (Z.eqb_spec (key y) k), (Z.eqb_spec (key x) k);
      try reflexivity; lia.
Qed.

Lemma sort_stable k l :
  filter (fun y => key y =? k) (JS.sort cmp l) =
  filter (fun y => key y =? k) l.
Proof.
  induction l as [|x l IH]; [reflexivity|].
  cbn [JS.sort]. rewrite insert_stable. cbn [filter]. rewrite IH. reflexivity.
Qed.

Lemma sorted_nth_le l i j a b :
  StronglySorted (key_le key) l -> (i < j)%nat ->
  nth_error l i = Some a -> nth_error l j = Some b -> key_le key a b.
Proof.
  intros Hs. revert i j. induction Hs as [|y l Hs IH Hy]; intros i j Hij Ha Hb.
  - destruct i; discriminate.
  - destruct j as [|j]; [lia|]. cbn [nth_error] in Hb.
    destruct i as [|i]; cbn [nth_error] in Ha.
    + injection Ha as <-. rewrite Forall_forall in Hy.
      apply Hy. eapply nth_error_In, Hb.
    + apply (IH i j); [lia | assumption | assumption].
Qed.

Lemma sort_sorted_id l : StronglySorted (key_le key) l -> JS.sort cmp l = l.
Proof.
  induction 1 as [|x l Hs IH Hx]; [reflexivity|].
  cbn [JS.sort]. rewrite IH. destruct l as [|y l]; [reflexivity|].
  cbn [JS.insert]. rewrite cmp_key.
  apply Forall_inv in Hx. unfold key_le in Hx.
  destruct (Z.leb_spec (key x - key y) 0); [reflexivity | lia].
Qed.

End SortFacts.

Lemma by_zIndex_key a b : by_zIndex a b = l_zIndex a - l_zIndex b.
Proof. reflexivity. Qed.

Lemma by_zIndex_desc_key a b :
  by_zIndex_desc a b = - l_zIndex a - - l_zIndex b.
Proof. unfold by_zIndex_desc. lia. Qed.

Lemma mapi_from_length {B C} (f : B -> Z -> C) i0 l :
  List.length (JS.mapi_from f i0 l) = List.length l.
Proof.
  revert i0. induction l as [|v l IH]; intros i0; simpl; [|rewrite IH]; reflexivity.
Qed.

Lemma mapi_from_app {B C} (f : B -> Z -> C) i0 l l' :
  JS.mapi_from f i0 (l ++ l') =
  JS.mapi_from f i0 l ++ JS.mapi_from f (i0 + JS.len l) l'.
Proof.
  revert i0. induction l as [|v l IH]; intros i0.
  - simpl. f_equal. unfold JS.len. simpl. lia.
  - cbn [app JS.mapi_from]. rewrite IH. do 3 f_equal.
    unfold JS.len. cbn [Datatypes.length]. lia.
Qed.

Lemma mapi_from_nth {B C} (f : B -> Z -> C) i0 l i v :
  nth_error l i = Some v ->
  nth_error (JS.mapi_from f i0 l) i = Some (f v (i0 + Z.of_nat i)).
Proof.
  revert i0 i. induction l as [|w l IH]; intros i0 i Hv.
  - destruct i; discriminate.
  - destruct i as [|i]; cbn [nth_error JS.mapi_from] in *.
    + injection Hv as ->. do 2 f_equal. lia.
    + rewrite (IH _ _ Hv). do 2 f_equal. lia.
Qed.

Lemma zIndexes_mapi_from (n : nat) l :
  zIndexes (JS.mapi_from (fun layer index => with_zIndex layer index)
              (Z.of_nat n) l)
  = map Z.of_nat (seq n (List.length l)).
Proof.
  revert n. induction l as [|v l IH]; intros n; [reflexivity|].
  cbn [JS.mapi_from zIndexes map Datatypes.length seq].
  f_equal. replace (Z.of_nat n + 1) with (Z.of_nat (Datatypes.S n)) by lia.
  apply IH.
Qed.

Lemma mapi_contiguous l :
  contiguous (JS.mapi (fun layer index => with_zIndex layer index) l).
Proof.
  unfold contiguous, JS.mapi. rewrite mapi_from_length.
  apply (zIndexes_mapi_from 0).
Qed.


Lemma normalizeZIndexes_contiguous l : contiguous (normalizeZIndexes l).
Proof. apply mapi_contiguous. Qed.

Lemma contiguous_from_sorted (a : nat) l :
  zIndexes l = map Z.of_nat (seq a (List.length l)) ->
  StronglySorted (key_le l_zIndex) l /\
  Forall (fun y => Z.of_nat a <= l_zIndex y) l.
Proof.
  revert a. induction l as [|x l IH]; intros a H.
  - split; constructor.
  - cbn [zIndexes map Datatypes.length seq] in H. injection H as Hx Hl.
    destruct (IH (Datatypes.S a) Hl) as [Hs Hf]. split.
    + constructor; [exact Hs|].
      eapply Forall_impl; [|exact Hf]. unfold key_le. intros y Hy. lia.
    + constructor; [lia|].
      eapply Forall_impl; [|exact Hf]. intros y Hy. simpl in Hy. lia.
Qed.

Lemma with_zIndex_same layer : with_zIndex layer (l_zIndex layer) = layer.
Proof. destruct layer. reflexivity. Qed.

Lemma mapi_from_id (a : nat) l :
  zIndexes l = map Z.of_nat (seq a (List.length l)) ->
  JS.mapi_from (fun layer index => with_zIndex layer index) (Z.of_nat a) l = l.
Proof.
  revert a. induction l as [|x l IH]; intros a H; [reflexivity|].
  cbn [zIndexes map Datatypes.length seq] in H. injection H as Hx Hl.
  cbn [JS.mapi_from]. rewrite <- Hx, with_zIndex_same. f_equal.
  replace (l_zIndex x + 1) with (Z.of_nat (Datatypes.S a)) by lia.
  apply IH, Hl.
Qed.

(** Renormalizing layers whose z-indexes are already [0 .. N-1] in array
    order changes nothing. *)
Lemma normalizeZIndexes_contiguous_id l :
  contiguous l -> normalizeZIndexes l = l.
Proof.
  intros H. unfold normalizeZIndexes, JS.mapi.
  rewrite (@sort_sorted_id _ by_zIndex l_zIndex by_zIndex_key)
    by (apply (contiguous_from_sorted 0), H).
  apply (mapi_from_id 0), H.
Qed.

Lemma normalizeZIndexes_idempotent l :
  normalizeZIndexes (normalizeZIndexes l) = normalizeZIndexes l.
Proof. apply normalizeZIndexes_contiguous_id, normalizeZIndexes_contiguous. Qed.

(** What [contiguous] says on the set of values. *)
Lemma contiguous_values l :
  contiguous l ->
  NoDup (zIndexes l) /\
  forall z, In z (zIndexes l) <-> 0 <= z < JS.len l.
Proof.
  unfold contiguous, JS.len. intros ->. split.
  - apply Finite.Injective_map_NoDup; [|apply seq_NoDup].
    intros a b. apply Nat2Z.inj.
  - intros z. rewrite in_map_iff. split.
    + intros [k [<- Hk]]. apply in_seq in Hk. lia.
    + intros Hz. exists (Z.to_nat z). rewrite in_seq. lia.
Qed.

Lemma Math_max_ge z zs :
  z <= Math_max z zs /\ Forall (fun y => y <= Math_max z zs) zs.
Proof.
  unfold Math_max. revert z. induction zs as [|y zs IH]; intros z; simpl.
  - split; [lia | constructor].
  - destruct (IH (Z.max z y)) as [H1 H2]. split; [lia|].
    constructor; [lia | exact H2].
Qed.

(** The next z-index is above the z-index of every layer. *)
Lemma getNextZIndex_above layers :
  Forall (fun y => l_zIndex y < getNextZIndex layers) layers.
Proof.
  unfold getNextZIndex. destruct layers as [|x layers]; [constructor|].
  cbn [map]. destruct (Math_max_ge (l_zIndex x) (map l_zIndex layers)) as [H1 H2].
  constructor; [lia|].
  rewrite Forall_map in H2. eapply Forall_impl; [|exact H2].
  intros y Hy. simpl in Hy. lia.
Qed.



(** A layer placed last with the next z-index stays last, and takes the
    z-index [N], when the array is renormalized. *)
Lemma normalizeZIndexes_snoc layers x :
  l_zIndex x = getNextZIndex layers ->
  normalizeZIndexes (layers ++ [x]) =
  normalizeZIndexes layers ++ [with_zIndex x (JS.len layers)].
Proof.
  intros Hx. unfold normalizeZIndexes, JS.mapi.
  rewrite sort_snoc.
  - rewrite mapi_from_app. cbn [JS.mapi_from]. do 3 f_equal.
    unfold JS.len. rewrite sort_length. lia.
  - intros a Ha. unfold by_zIndex. rewrite Hx.
    pose proof (getNextZIndex_above layers) as Hab.
    rewrite Forall_forall in Hab. specialize (Hab a Ha). lia.
Qed.


Lemma reorderLayers_contiguous layers fromIndex toIndex newLayers :
  reorderLayers layers fromIndex toIndex = Some newLayers ->
  contiguous newLayers /\ List.length newLayers = List.length layers.
Proof.
  unfold reorderLayers.
  destruct (nth_error layers fromIndex) as [removed|] eqn:E; [|discriminate].
  intros H. injection H as <-. split; [apply mapi_contiguous|].
  unfold JS.mapi. rewrite mapi_from_length.
  assert (Hlt : (fromIndex < List.length layers)%nat).
  { apply nth_error_Some. rewrite E. discriminate. }
  repeat first [rewrite length_app | rewrite length_firstn
               | rewrite length_skipn | rewrite length_cons].
  change (match layers with [] => [] | _ :: l => skipn fromIndex l end)
    with (skipn (Datatypes.S fromIndex) layers).
  rewrite length_skipn. lia.
Qed.

(** ** Duplicating a layer *)

Lemma with_zIndex_with_clone layer i x y z z' :
  with_zIndex (with_clone layer i x y z) z' = with_clone layer i x y z'.
Proof. reflexivity. Qed.

Lemma find_none_id layerId layers :
  ~ In layerId (map l_id layers) ->
  JS.find (fun l => String.eqb (l_id l) layerId) layers = None.
Proof.
  intros Hn. unfold JS.find. induction layers as [|l ls IH]; [reflexivity|].
  cbn [List.find]. destruct (String.eqb_spec (l_id l) layerId) as [E|E].
  - exfalso. apply Hn. left. exact E.
  - apply IH. intros H. apply Hn. right. exact H.
Qed.

(** [C7] Duplicating a layer.  When a layer of the document has the id
    [layerId], with [layer] the first such one and [N] the number of layers,
    the result holds the [N] layers renormalized followed by one more layer:
    a copy of [layer], field by field, except for the id, which is the id
    [newId] drawn by the random generator, the position, moved by [(+20, +20)],
    and the z-index, which is [N] (the top).  The z-indexes of the result are
    [0 .. N]; the rest of the document is as before and the result is
    recorded.  The id of the duplicate differs from every id of the document
    whenever the drawn id does.  When no layer has the id, the state is
    returned as it is. *)
Theorem duplicate_layer_appends_offset_clone :
  forall (st : AppState) (newId layerId : string),
    let cs := canvasState st in
    let st' := handleDuplicateLayer newId layerId st in
    (forall layer,
        JS.find (fun l => String.eqb (l_id l) layerId) (textLayers cs) = Some layer ->
        let duplicate :=
          mkTextLayer newId (l_text layer) (l_x layer + 20)%Q (l_y layer + 20)%Q
            (l_width layer) (l_height layer) (l_rotation layer) (l_fontSize layer)
            (l_fontFamily layer) (l_fontWeight layer) (l_color layer)
            (l_opacity layer) (l_textAlign layer) (l_isSelected layer)
            (JS.len (textLayers cs)) (l_isVisible layer) (l_scale layer)
            (l_shadowColor layer) (l_shadowBlur layer) (l_shadowOffsetX layer)
            (l_shadowOffsetY layer) (l_backgroundColor layer)
            (l_borderWidth layer) (l_borderColor layer) in
        textLayers (canvasState st')
          = normalizeZIndexes (textLayers cs) ++ [duplicate] /\
        contiguous (textLayers (canvasState st')) /\
        image (canvasState st') = image cs /\
        imageWidth (canvasState st') = imageWidth cs /\
        imageHeight (canvasState st') = imageHeight cs /\
        selectedLayerId (canvasState st') = selectedLayerId cs /\
        hist st' = record (hist st) (canvasState st') /\
        (~ In newId (map l_id (textLayers cs)) -> duplicate_id_is_fresh newId layerId st)) /\
    (JS.find (fun l => String.eqb (l_id l) layerId) (textLayers cs) = None ->
     st' = st) /\
    (~ In layerId (map l_id (textLayers cs)) -> st' = st).
Proof.
  intros st newId layerId cs st'.
  assert (Hnone : JS.find (fun l => String.eqb (l_id l) layerId) (textLayers cs)
                  = None -> st' = st).
  { intros H. subst st'. unfold handleDuplicateLayer. fold cs. rewrite H.
    reflexivity. }
  split; [|split; [exact Hnone | intros H; apply Hnone, find_none_id, H]].
  intros layer Hfind duplicate. clear Hnone.
  assert (Hlayers : textLayers (canvasState st')
                    = normalizeZIndexes (textLayers cs) ++ [duplicate]).
  { subst st'. unfold handleDuplicateLayer. fold cs. rewrite Hfind.
    cbn [commit commitFrom canvasState textLayers].
    rewrite normalizeZIndexes_snoc by reflexivity.
    rewrite with_zIndex_with_clone. reflexivity. }
  split; [exact Hlayers|].
  subst st'. unfold handleDuplicateLayer in *. fold cs in Hlayers |- *.
  rewrite Hfind in Hlayers |- *. cbn [commit commitFrom canvasState textLayers] in Hlayers.
  cbn [commit commitFrom canvasState hist image imageWidth imageHeight selectedLayerId
       textLayers].
  repeat split.
  - apply normalizeZIndexes_contiguous.
  - intros Hfresh dup Hlast. unfold handleDuplicateLayer in Hlast.
    fold cs in Hlast. rewrite Hfind in Hlast.
    cbn [commit commitFrom canvasState textLayers] in Hlast.
    rewrite Hlayers, map_app in Hlast.
    change (map Some [duplicate]) with [Some duplicate] in Hlast.
    rewrite last_last in Hlast.
    injection Hlast as <-. exact Hfresh.
Qed.

(** [C7], at the document with one layer at [(10, 10)]: the result has two
    layers, the duplicate at [(30, 30)], z-indexes [0] and [1] and two
    different ids. *)
Lemma duplicate_layer_appends_offset_clone_witness :
  let st' := handleDuplicateLayer "r" "i" Sample.app in
  textLayers (canvasState st')
    = [Sample.layerA;
       with_clone Sample.layerA "r" 30 30 1] /\
  zIndexes (textLayers (canvasState st')) = [0; 1] /\
  duplicate_id_is_fresh "r" "i" Sample.app.
Proof.
  intros st'.
  destruct (duplicate_layer_appends_offset_clone Sample.app "r" "i")
    as [Hfound _].
  destruct (Hfound Sample.layerA eq_refl) as (Hl & Hc & _ & _ & _ & _ & _ & Hf).
  split; [exact Hl|]. split; [exact Hc|].
  apply Hf. simpl. intros [H|[]]. discriminate.
Defined.

(** [C7] as stated fails when the generator draws an id that a layer of
    the document already has: the duplicate then shares it. *)
Lemma duplicate_id_may_collide :
  ~ duplicate_id_is_fresh "i" "i" Sample.app /\
  map l_id (textLayers (canvasState (handleDuplicateLayer "i" "i" Sample.app)))
    = ["i"; "i"]%string.
Proof.
  split; [|reflexivity].
  intros H. apply (H (with_clone Sample.layerA "i" 30 30 1)).
  - reflexivity.
  - left. reflexivity.
Qed.

(** ** Updating a layer *)

Lemma handleUpdateLayerFrom_layers closureIndex updates st sel :
  selectedLayerId (canvasState st) = Some sel -> sel <> EmptyString ->
  let st' := handleUpdateLayerFrom closureIndex updates st in
  canvasState st'
    = mkCanvasState (image (canvasState st)) (imageWidth (canvasState st))
        (imageHeight (canvasState st))
        (map (fun layer =>
                if String.eqb (l_id layer) sel then spread layer updates
                else layer)
             (textLayers (canvasState st)))
        (selectedLayerId (canvasState st)) /\
  hist st' = addToHistory closureIndex (canvasState st') (hist st).
Proof.
  intros Hsel Hne st'. subst st'. unfold handleUpdateLayerFrom.
  rewrite Hsel. cbn [JS.truthy].
  destruct (String.eqb_spec sel EmptyString) as [E|_]; [contradiction|].
  cbn [negb]. split; reflexivity.
Qed.

Lemma selectedLayer_found cs layer :
  selectedLayer cs = Some layer ->
  exists sel,
    selectedLayerId cs = Some sel /\ sel <> EmptyString /\
    In layer (textLayers cs) /\ l_id layer = sel.
Proof.
  unfold selectedLayer. destruct (selectedLayerId cs) as [sel|]; [|discriminate].
  cbn [JS.truthy]. destruct (String.eqb_spec sel EmptyString) as [E|E];
    [discriminate|].
  cbn [negb]. unfold JS.find. intros H. apply find_some in H.
  destruct H as [Hin Hid]. exists sel. repeat split; try assumption.
  apply String.eqb_eq, Hid.
Qed.

(** What the two calls of a handler of the properties panel leave: the
    layers with the selected id merged with the second update, when the second
    update has the keys of the first one with the same values. *)
Lemma two_updates_layers (first second : PartialTextLayer) st sel :
  selectedLayerId (canvasState st) = Some sel -> sel <> EmptyString ->
  (forall layer, l_id (spread layer first) = l_id layer) ->
  (forall layer, spread (spread layer first) second = spread layer second) ->
  textLayers
    (canvasState
       (handleUpdateLayerFrom (historyIndex (hist st)) second
          (handleUpdateLayerFrom (historyIndex (hist st)) first st)))
  = map (fun layer =>
           if String.eqb (l_id layer) sel then spread layer second else layer)
        (textLayers (canvasState st)).
Proof.
  intros Hsel Hne Hid Hsp.
  destruct (@handleUpdateLayerFrom_layers (historyIndex (hist st)) first st sel
              Hsel Hne) as [Hcs1 _].
  set (st1 := handleUpdateLayerFrom (historyIndex (hist st)) first st) in *.
  assert (Hsel1 : selectedLayerId (canvasState st1) = Some sel)
    by (rewrite Hcs1; exact Hsel).
  destruct (@handleUpdateLayerFrom_layers (historyIndex (hist st)) second st1 sel
              Hsel1 Hne) as [Hcs2 _].
  rewrite Hcs2. cbn [textLayers]. rewrite Hcs1. cbn [textLayers].
  rewrite map_map. apply map_ext. intros layer.
  destruct (String.eqb (l_id layer) sel) eqn:E.
  - rewrite Hid, E. apply Hsp.
  - rewrite E. reflexivity.
Qed.

Lemma in_updated_layers (updates : PartialTextLayer) layers layer sel :
  In layer layers -> l_id layer = sel ->
  In (spread layer updates)
     (map (fun l => if String.eqb (l_id l) sel then spread l updates else l)
          layers).
Proof.
  intros Hin Hid. apply in_map_iff. exists layer. split; [|exact Hin].
  rewrite Hid, String.eqb_refl. reflexivity.
Qed.

(** [C4] Updating the selected layer.  With no layer selected
    [handleUpdateLayer] returns the state as it is.  With the layer [sel]
    selected it replaces every layer whose id is [sel] by the layer with the
    given fields merged in, leaves the other layers and the rest of the
    document alone, and records the result; width and height are merged as the
    other fields are.  Every change of the text, of the font (family or
    weight) or of the size recomputes them: the handlers of the properties
    panel and the commit of a text edit measure the text with the font that
    results from the change and hand the measure over, so that the selected
    layer comes out with the width of its text under its font and with its
    font size as height.  (A size is a number here, as every number of the
    document is; what [parseInt] makes of an emptied size field is none.)  The commit of a text edit does so for
    every text that is not empty or white space only.  The measure is taken
    on a 2D context; where the browser gives none, the handlers of the panel
    merge the change alone and the commit of a text edit changes nothing. *)
Theorem update_layer_merges_and_changes_remeasure :
  forall (measureText : MeasureCtx) (st : AppState),
    let cs := canvasState st in
    let tempCtx := Some measureText in
    (forall updates,
        selectedLayerId cs = None -> handleUpdateLayer updates st = st) /\
    (forall updates sel,
        selectedLayerId cs = Some sel -> sel <> EmptyString ->
        let st' := handleUpdateLayer updates st in
        textLayers (canvasState st')
          = map (fun layer =>
                   if String.eqb (l_id layer) sel then spread layer updates
                   else layer)
                (textLayers cs) /\
        image (canvasState st') = image cs /\
        imageWidth (canvasState st') = imageWidth cs /\
        imageHeight (canvasState st') = imageHeight cs /\
        selectedLayerId (canvasState st') = selectedLayerId cs /\
        hist st' = record (hist st) (canvasState st')) /\
    (forall layer,
        selectedLayer cs = Some layer ->
        let changed (st' : AppState) (layer' : TextLayer) :=
          In layer' (textLayers (canvasState st')) /\ sized measureText layer' in
        (forall text,
            changed (handleTextChange tempCtx text st)
              (spread layer (upd_text_sized text
                 (measureText (fontOf layer (l_fontSize layer)) text)
                 (l_fontSize layer))) /\
            l_text
              (spread layer (upd_text_sized text
                 (measureText (fontOf layer (l_fontSize layer)) text)
                 (l_fontSize layer))) = text) /\
        (forall fontSize,
            let newFontSize := Math_max2 8 (Math_min2 200 fontSize) in
            changed (handleFontSizeChange tempCtx fontSize st)
              (spread layer (upd_fontSize_sized newFontSize
                 (measureText (fontOf layer newFontSize) (l_text layer))
                 newFontSize)) /\
            l_fontSize
              (spread layer (upd_fontSize_sized newFontSize
                 (measureText (fontOf layer newFontSize) (l_text layer))
                 newFontSize)) = newFontSize) /\
        (forall weight,
            let width :=
              measureText
                (mkFontSpec (if String.eqb weight "bold" then "bold" else "normal")
                   (l_fontSize layer) (l_fontFamily layer))
                (l_text layer) in
            changed (handleFontWeightChange tempCtx weight st)
              (spread layer (upd_fontWeight_sized weight width (l_fontSize layer))) /\
            l_fontWeight
              (spread layer (upd_fontWeight_sized weight width (l_fontSize layer)))
              = weight) /\
        (forall fontFamily,
            let width :=
              measureText
                (mkFontSpec (font_weight (fontOf layer (l_fontSize layer)))
                   (l_fontSize layer) fontFamily)
                (l_text layer) in
            changed (handleFontChange tempCtx fontFamily st)
              (spread layer (upd_fontFamily_sized fontFamily width (l_fontSize layer))) /\
            l_fontFamily
              (spread layer (upd_fontFamily_sized fontFamily width (l_fontSize layer)))
              = fontFamily)) /\
    (forall (loc : CanvasLocal) editing layer,
        editingLayerId loc = Some editing -> editing <> EmptyString ->
        ~ WhiteSpaceOnly (editingText loc) ->
        JS.find (fun l => String.eqb (l_id l) editing) (textLayers cs) = Some layer ->
        let st' := snd (handleTextEditSave tempCtx loc st) in
        let layer' :=
          with_text layer (editingText loc)
            (measureText (fontOf layer (l_fontSize layer)) (editingText loc))
            (l_fontSize layer) in
        In layer' (textLayers (canvasState st')) /\
        sized measureText layer' /\ l_text layer' = editingText loc) /\
    ((forall text,
         handleTextChange None text st = handleUpdateLayer (upd_text text) st) /\
     (forall fontSize,
         handleFontSizeChange None fontSize st
         = handleUpdateLayer (upd_fontSize (Math_max2 8 (Math_min2 200 fontSize))) st) /\
     (forall weight,
         handleFontWeightChange None weight st
         = handleUpdateLayer (upd_fontWeight weight) st) /\
     (forall fontFamily,
         handleFontChange None fontFamily st
         = handleUpdateLayer (upd_fontFamily fontFamily) st) /\
     (forall loc : CanvasLocal, snd (handleTextEditSave None loc st) = st)).
Proof.
  intros measureText st cs tempCtx.
  split; [|split; [|split; [|split]]].
  - intros updates Hsel. unfold handleUpdateLayer, handleUpdateLayerFrom.
    fold cs. rewrite Hsel. reflexivity.
  - intros updates sel Hsel Hne st'.
    destruct (@handleUpdateLayerFrom_layers (historyIndex (hist st)) updates st
                sel Hsel Hne) as [Hcs Hh].
    fold (handleUpdateLayer updates st) in Hcs, Hh. fold st' in Hcs, Hh.
    rewrite Hcs. cbn [textLayers image imageWidth imageHeight selectedLayerId].
    repeat split. rewrite <- Hcs. exact Hh.
  - intros layer Hsl changed.
    destruct (selectedLayer_found _ Hsl) as (sel & Hsel & Hne & Hin & Hid).
    fold cs in Hsel, Hin.
    assert (Htwo : forall first second,
               (forall l, l_id (spread l first) = l_id l) ->
               (forall l, spread (spread l first) second = spread l second) ->
               In (spread layer second)
                  (textLayers
                     (canvasState
                        (handleUpdateLayerFrom (historyIndex (hist st)) second
                           (handleUpdateLayerFrom (historyIndex (hist st)) first
                              st))))).
    { intros first second Hid1 Hsp.
      rewrite (@two_updates_layers first second st sel Hsel Hne Hid1 Hsp).
      apply in_updated_layers; assumption. }
    subst changed tempCtx. cbv beta.
    split; [|split; [|split]].
    + intros text. unfold handleTextChange. fold cs. rewrite Hsl.
      split; [split; [|split; reflexivity] | reflexivity].
      apply Htwo; intros l; reflexivity.
    + intros fontSize newFontSize. unfold handleFontSizeChange. fold cs.
      rewrite Hsl. fold newFontSize.
      split; [split; [|split; reflexivity] | reflexivity].
      apply Htwo; intros l; reflexivity.
    + intros weight width. unfold handleFontWeightChange. fold cs. rewrite Hsl.
      split; [split; [|split; reflexivity] | reflexivity].
      apply Htwo; intros l; reflexivity.
    + intros fontFamily width. unfold handleFontChange. fold cs. rewrite Hsl.
      split; [split; [|split; reflexivity] | reflexivity].
      apply Htwo; intros l; reflexivity.
  - intros loc editing layer Hed Hne Hblank Hfind st' layer'.
    split; [|repeat split].
    subst st'. unfold handleTextEditSave. fold cs. subst tempCtx.
    rewrite Hed, Hfind. cbn [JS.truthy].
    destruct (String.eqb_spec editing EmptyString) as [E|_]; [contradiction|].
    destruct (String.eqb_spec (JS.trim (editingText loc)) EmptyString) as [E|_].
    + apply trim_empty, only_white_space_spec in E. contradiction.
    + cbn [negb andb snd updateCanvas commit commitFrom canvasState spreadCanvas
           only_textLayers pick pc_textLayers textLayers].
      unfold JS.find in Hfind. apply find_some in Hfind.
      destruct Hfind as [Hin Hid]. apply String.eqb_eq in Hid.
      apply in_map_iff. exists layer. split; [|exact Hin].
      rewrite Hid, String.eqb_refl. reflexivity.
  - split; [|split; [|split; [|split]]]; try (intros x; reflexivity).
    intros loc. unfold handleTextEditSave. cbn [snd].
    destruct (editingLayerId loc); [|reflexivity].
    destruct (JS.truthy (Some s) && _); reflexivity.
Qed.

(** [C4], at the sample layer: typing [Hi] in the properties panel leaves
    it with the measured width 20 and the height 24, and so does committing
    the text [Hi] in the editor. *)
Lemma update_layer_merges_and_changes_remeasure_witness :
  In (with_text Sample.layerA "Hi" 20 24)
     (textLayers (canvasState (handleTextChange (Some Sample.measureText) "Hi"
                                 Sample.app))) /\
  In (with_text Sample.layerA "Hi" 20 24)
     (textLayers (canvasState (snd (handleTextEditSave (Some Sample.measureText)
                                      (Sample.editing "Hi") Sample.app)))).
Proof.
  destruct (update_layer_merges_and_changes_remeasure Sample.measureText Sample.app)
    as (_ & _ & Hpanel & Hedit & _).
  split.
  - exact (proj1 (proj1 (proj1 (Hpanel Sample.layerA eq_refl) "Hi"%string))).
  - refine (proj1 (Hedit (Sample.editing "Hi") "i"%string Sample.layerA
                     eq_refl _ _ eq_refl)).
    + discriminate.
    + intros H. apply only_white_space_spec in H. discriminate H.
Defined.

(** ** Hit testing *)

Lemma ltb_lt a b : JS.ltb a b = true <-> (a < b)%Q.
Proof.
  unfold JS.ltb. rewrite negb_true_iff. split.
  - intros H. apply Qnot_le_lt. intros Hle.
    apply Qle_bool_iff in Hle. congruence.
  - intros H. destruct (Qle_bool b a) eqn:E; [|reflexivity].
    apply Qle_bool_iff in E. exfalso. exact (Qlt_not_le _ _ H E).
Qed.

Lemma boxContains_inBox (measureText : MeasureCtx) layer x y :
  boxContains
    (layerBox (measureText (fontOf layer (l_fontSize layer)) (l_text layer))
       (l_fontSize layer) layer) x y = true
  <-> inBox measureText layer x y.
Proof.
  unfold inBox, layerBox, boxContains.
  destruct (l_textAlign layer);
    rewrite !andb_true_iff, !Qle_bool_iff; tauto.
Qed.

(** The layer stops the search: it is visible, not fully transparent, and its
    box holds the point. *)
Lemma hits_spec (measureText : MeasureCtx) x y layer :
  hits (Some measureText) x y layer = true <->
  l_isVisible layer = true /\ (0 < l_opacity layer)%Q /\
  inBox measureText layer x y.
Proof.
  unfold hits. rewrite <- boxContains_inBox, <- ltb_lt.
  destruct (JS.ltb 0 (l_opacity layer)), (l_isVisible layer); simpl;
    intuition congruence.
Qed.

Lemma find_first {A} (p : A -> bool) l a :
  JS.find p l = Some a ->
  exists above below,
    l = above ++ a :: below /\ p a = true /\
    forall b, In b above -> p b = false.
Proof.
  unfold JS.find. induction l as [|v l IH]; [discriminate|].
  cbn [List.find]. destruct (p v) eqn:E.
  - intros H. injection H as ->. exists [], l. repeat split; try assumption.
    intros b [].
  - intros H. destruct (IH H) as (above & below & -> & Hp & Hab).
    exists (v :: above), below. repeat split; try assumption.
    intros b [<-|Hb]; [exact E | apply Hab, Hb].
Qed.

Lemma find_map {A B} (f : A -> B) (p : B -> bool) l :
  JS.find p (map f l) = option_map f (JS.find (fun a => p (f a)) l).
Proof.
  unfold JS.find. induction l as [|v l IH]; [reflexivity|].
  cbn [map List.find]. destruct (p (f v)); [reflexivity | exact IH].
Qed.

Lemma sort_map {A B} (f : A -> B) (cmp : B -> B -> Z) l :
  JS.sort cmp (map f l) = map f (JS.sort (fun a b => cmp (f a) (f b)) l).
Proof.
  induction l as [|x l IH]; [reflexivity|].
  cbn [map JS.sort]. rewrite IH. clear IH.
  induction (JS.sort (fun a b => cmp (f a) (f b)) l) as [|y m IHm];
    [reflexivity|].
  cbn [map JS.insert]. destruct (cmp (f x) (f y) <=? 0); [reflexivity|].
  cbn [map]. rewrite IHm. reflexivity.
Qed.

Lemma StronglySorted_weaken {A} (R R' : A -> A -> Prop) l :
  (forall a b, R a b -> R' a b) -> StronglySorted R l -> StronglySorted R' l.
Proof.
  intros HR. induction 1 as [|a l Hs IH Ha]; constructor; [exact IH|].
  eapply Forall_impl; [|exact Ha]. intros b. apply HR.
Qed.

(** [C5] Hit testing at a point of the document.  The layers are gone
    through from the highest to the lowest z-index (layers that share one in
    array order).  The layer returned is the first of them that is visible,
    has an opacity above zero and whose box holds the point; none is returned
    exactly when no layer is such.  The box is aligned with the axes: its left
    edge is [x], [x - textWidth/2] or [x - textWidth] for the alignments left,
    center and right, its top edge [y - textHeight], with [textWidth] measured
    under the font of the layer and [textHeight] the font size.  The rotation
    of the layers is ignored: giving the layers any other rotations gives the
    same answer. *)
Theorem hit_test_returns_topmost_drawn_layer :
  forall (measureText : MeasureCtx) (cs : CanvasState) (x y : Q),
    let sorted := JS.sort by_zIndex_desc (textLayers cs) in
    let stops layer :=
      l_isVisible layer = true /\ (0 < l_opacity layer)%Q /\
      inBox measureText layer x y in
    Permutation sorted (textLayers cs) /\
    StronglySorted (fun a b => l_zIndex a >= l_zIndex b) sorted /\
    (forall k, filter (fun l => l_zIndex l =? k) sorted
               = filter (fun l => l_zIndex l =? k) (textLayers cs)) /\
    (forall layer,
        findLayerAtPosition (Some measureText) cs x y = Some layer ->
        exists above below,
          sorted = above ++ layer :: below /\ stops layer /\
          forall l, In l above -> ~ stops l) /\
    (findLayerAtPosition (Some measureText) cs x y = None <->
     forall l, In l (textLayers cs) -> ~ stops l) /\
    (forall rotationOf : TextLayer -> Q,
        let turn l := with_rotation l (rotationOf l) in
        findLayerAtPosition (Some measureText)
          (mkCanvasState (image cs) (imageWidth cs) (imageHeight cs)
             (map turn (textLayers cs)) (selectedLayerId cs)) x y
        = option_map turn (findLayerAtPosition (Some measureText) cs x y)).
Proof.
  intros measureText cs x y sorted stops.
  assert (Hperm : Permutation sorted (textLayers cs)) by apply sort_perm.
  assert (Hstops : forall l, hits (Some measureText) x y l = true <-> stops l)
    by (intros l; apply hits_spec).
  split; [|split; [|split; [|split; [|split]]]].
  - exact Hperm.
  - pose proof (@sort_sorted _ by_zIndex_desc (fun l => - l_zIndex l)
                  by_zIndex_desc_key (textLayers cs)) as Hs.
    eapply StronglySorted_weaken; [|exact Hs].
    unfold key_le. intros a b Hab. lia.
  - intros k.
    pose proof (@sort_stable _ by_zIndex_desc (fun l => - l_zIndex l)
                  by_zIndex_desc_key (- k) (textLayers cs)) as Hst.
    fold sorted in Hst.
    assert (Hext : forall a : TextLayer,
               (l_zIndex a =? k) = (- l_zIndex a =? - k)).
    { intros a.
      destruct (Z.eqb_spec (l_zIndex a) k), (Z.eqb_spec (- l_zIndex a) (- k));
        try reflexivity; lia. }
    rewrite (filter_ext _ _ Hext sorted), (filter_ext _ _ Hext (textLayers cs)).
    exact Hst.
  - intros layer Hfind. unfold findLayerAtPosition in Hfind. fold sorted in Hfind.
    destruct (find_first _ _ Hfind) as (above & below & Hs & Hp & Hab).
    exists above, below.
    split; [exact Hs|]. split; [apply Hstops, Hp|].
    intros l Hl Hst. apply Hstops in Hst. rewrite (Hab l Hl) in Hst.
    discriminate.
  - unfold findLayerAtPosition. fold sorted. unfold JS.find. split.
    + intros Hnone l Hl Hst. apply Hstops in Hst.
      rewrite (find_none _ _ Hnone l) in Hst; [discriminate|].
      eapply Permutation_in; [apply Permutation_sym, Hperm | exact Hl].
    + intros Hno. destruct (List.find _ sorted) as [l|] eqn:E; [|reflexivity].
      apply find_some in E. destruct E as [Hin Hp]. exfalso.
      apply (Hno l); [eapply Permutation_in; eassumption | apply Hstops, Hp].
  - intros rotationOf turn. unfold findLayerAtPosition. cbn [textLayers].
    rewrite sort_map, find_map. f_equal.
Qed.

(** [C5] as stated fails on a layer that is visible and fully
    transparent: its box holds the point [(20, 0)], the visible layers hold no
    other one, and the hit test returns nothing. *)
Lemma hit_test_skips_transparent_layer :
  findLayerAtPosition (Some Sample.measureText) Sample.transparentDoc 20 0
    <> hitTest_visible Sample.measureText Sample.transparentDoc 20 0 /\
  findLayerAtPosition (Some Sample.measureText) Sample.transparentDoc 20 0 = None /\
  hitTest_visible Sample.measureText Sample.transparentDoc 20 0
    = Some Sample.transparentLayer /\
  l_isVisible Sample.transparentLayer = true.
Proof. split; [discriminate | repeat split]. Qed.

(** [C5], at a layer centered on [(100, 100)]: the point [(100, 90)],
    just above the baseline, hits it and the point [(100, 200)] hits
    nothing. *)
Lemma hit_test_returns_topmost_drawn_layer_witness :
  (exists above below,
      JS.sort by_zIndex_desc (textLayers Sample.centeredDoc)
        = above ++ Sample.centeredLayer :: below /\
      (l_isVisible Sample.centeredLayer = true /\
       (0 < l_opacity Sample.centeredLayer)%Q /\
       inBox Sample.measureText Sample.centeredLayer 100 90) /\
      forall l, In l above ->
        ~ (l_isVisible l = true /\ (0 < l_opacity l)%Q /\
           inBox Sample.measureText l 100 90)) /\
  ~ inBox Sample.measureText Sample.centeredLayer 100 200.
Proof.
  split.
  - exact (proj1 (proj2 (proj2 (proj2
      (hit_test_returns_topmost_drawn_layer Sample.measureText
         Sample.centeredDoc 100 90)))) Sample.centeredLayer eq_refl).
  - intros Hin.
    refine (proj1 (proj1 (proj2 (proj2 (proj2 (proj2
      (hit_test_returns_topmost_drawn_layer Sample.measureText
         Sample.centeredDoc 100 200)))))) eq_refl Sample.centeredLayer
      (or_introl eq_refl) _).
    split; [reflexivity|]. split; [reflexivity | exact Hin].
Defined.

(** ** Snapping *)

Lemma Qfloor_unique (r : Q) (k : Z) :
  (inject_Z k <= r)%Q -> (r < inject_Z (k + 1))%Q -> Qfloor r = k.
Proof.
  intros Hlo Hhi.
  assert (H1 : k <= Qfloor r).
  { rewrite <- (Qfloor_Z k). apply Qfloor_resp_le, Hlo. }
  assert (H2 : Qfloor r < k + 1).
  { rewrite Zlt_Qlt. eapply Qle_lt_trans; [apply Qfloor_le | exact Hhi]. }
  lia.
Qed.

(** The grid snap moves a coordinate by at most half a grid unit. *)
Lemma snapToGrid_near v : (Qabs (snapToGrid v 20 - v) <= 10)%Q.
Proof.
  unfold snapToGrid, JS.Math_round.
  pose proof (Qfloor_le (v / 20 + (1 # 2))) as Hlo.
  pose proof (Qlt_floor (v / 20 + (1 # 2))) as Hhi.
  rewrite inject_Z_plus in Hhi. change (inject_Z 1) with 1%Q in Hhi.
  set (K := inject_Z (Qfloor (v / 20 + (1 # 2)))) in *.
  assert (Hv : (v / 20 == v * (1 # 20))%Q) by (unfold Qdiv; reflexivity).
  rewrite Hv in Hlo, Hhi.
  apply Qabs_Qle_condition. split; lra.
Qed.

Lemma snapToGrid_on_grid v : on_grid (snapToGrid v 20).
Proof. exists (JS.Math_round (v / 20)). reflexivity. Qed.

Lemma snapToGrid_aligned v : on_grid v -> (snapToGrid v 20 == v)%Q.
Proof.
  intros [k Hv]. unfold snapToGrid, JS.Math_round.
  assert (H : (v / 20 == inject_Z k)%Q) by (rewrite Hv; field).
  rewrite (@Qfloor_unique _ k).
  - symmetry. exact Hv.
  - rewrite H. lra.
  - rewrite H, inject_Z_plus. change (inject_Z 1) with 1%Q. lra.
Qed.

Lemma ltb_comp a a' b : (a == a')%Q -> JS.ltb a b = JS.ltb a' b.
Proof. intros H. unfold JS.ltb. rewrite H. reflexivity. Qed.

Lemma ltb_false a b : JS.ltb a b = false <-> ~ (a < b)%Q.
Proof.
  rewrite <- ltb_lt. destruct (JS.ltb a b); split; congruence.
Qed.

Lemma snapPosition_axes showGrid x y cs :
  snapPosition showGrid x y cs =
  (snapAxis showGrid x (imageWidth cs / 2), snapAxis showGrid y (imageHeight cs / 2)).
Proof. reflexivity. Qed.

(** A coordinate at the center stays at the center, exactly. *)
Lemma snapAxis_center showGrid v c : (v == c)%Q -> snapAxis showGrid v c = c.
Proof.
  intros Hv. unfold snapAxis.
  set (v' := if showGrid then snapToGrid v 20 else v).
  assert (Hnear : (Qabs (v' - c) < 50)%Q).
  { subst v'. destruct showGrid.
    - pose proof (snapToGrid_near v) as Hn.
      apply Qabs_Qle_condition in Hn.
      apply Qabs_Qlt_condition. split; lra.
    - apply Qabs_Qlt_condition. split; lra. }
  apply ltb_lt in Hnear. rewrite Hnear. reflexivity.
Qed.

(** A coordinate not nearer than 50 to the center, and on the grid when the
    grid is shown, is left where it is. *)
Lemma snapAxis_far showGrid v c :
  (showGrid = true -> on_grid v) -> ~ (Qabs (v - c) < 50)%Q ->
  (snapAxis showGrid v c == v)%Q.
Proof.
  intros Hg Hfar. unfold snapAxis.
  assert (Hv : ((if showGrid then snapToGrid v 20 else v) == v)%Q).
  { destruct showGrid; [apply snapToGrid_aligned, Hg|]; reflexivity. }
  assert (Hab : (Qabs ((if showGrid then snapToGrid v 20 else v) - c)
                 == Qabs (v - c))%Q) by (rewrite Hv; reflexivity).
  rewrite (ltb_comp _ Hab). apply ltb_false in Hfar. rewrite Hfar. exact Hv.
Qed.

(** Snapping a snapped coordinate changes nothing. *)
Lemma snapAxis_idempotent showGrid v c :
  (snapAxis showGrid (snapAxis showGrid v c) c == snapAxis showGrid v c)%Q.
Proof.
  unfold snapAxis at 2 3.
  set (v' := if showGrid then snapToGrid v 20 else v).
  destruct (JS.ltb (Qabs (v' - c)) 50) eqn:E.
  - rewrite snapAxis_center; reflexivity.
  - apply snapAxis_far.
    + intros ->. apply snapToGrid_on_grid.
    + apply ltb_false, E.
Qed.


Lemma nudgeLayer_layers showGrid layerId direction amount st layer :
  JS.find (fun l => String.eqb (l_id l) layerId) (textLayers (canvasState st))
    = Some layer ->
  let candidate :=
    match direction with
    | nudge_up => (l_x layer, l_y layer - amount)
    | nudge_down => (l_x layer, l_y layer + amount)
    | nudge_left => (l_x layer - amount, l_y layer)
    | nudge_right => (l_x layer + amount, l_y layer)
    end%Q in
  let snapped :=
    snapPosition showGrid (fst candidate) (snd candidate) (canvasState st) in
  textLayers (canvasState (nudgeLayer showGrid layerId direction amount st))
  = map (fun l =>
           if String.eqb (l_id l) layerId
           then with_position l (fst snapped) (snd snapped) else l)
        (textLayers (canvasState st)).
Proof.
  intros Hfind candidate snapped. unfold nudgeLayer. rewrite Hfind.
  subst snapped candidate. destruct direction; reflexivity.
Qed.

(** [C6] Snapping a candidate position.  The grid snap comes first and
    the center snap second.  The grid snap, applied when the grid is shown,
    takes each coordinate to a nearest multiple of 20 (at most 10 away).  The
    center snap takes a coordinate that is less than 50 away from the center
    of the document on its axis to exactly that center, and leaves the other
    coordinates alone.  The whole is idempotent: snapping a snapped position
    returns it.  A coordinate that sits exactly on the center comes out as
    exactly the center, grid or not.  A coordinate on the grid comes out
    unchanged when it is not less than 50 away from the center of its axis
    (less than 50 away it is taken to the center). *)
Theorem snap_grid_then_center :
  forall (showGrid : bool) (x y : Q) (cs : CanvasState),
    let centerX := (imageWidth cs / 2)%Q in
    let centerY := (imageHeight cs / 2)%Q in
    let snapped := snapPosition showGrid x y cs in
    snapped =
      snapToCenter (if showGrid then snapToGrid x 20 else x)
        (if showGrid then snapToGrid y 20 else y)
        (imageWidth cs) (imageHeight cs) /\
    (forall v, on_grid (snapToGrid v 20) /\ (Qabs (snapToGrid v 20 - v) <= 10)%Q) /\
    (forall a b,
        let p := snapToCenter a b (imageWidth cs) (imageHeight cs) in
        ((Qabs (a - centerX) < 50)%Q -> fst p = centerX) /\
        (~ (Qabs (a - centerX) < 50)%Q -> fst p = a) /\
        ((Qabs (b - centerY) < 50)%Q -> snd p = centerY) /\
        (~ (Qabs (b - centerY) < 50)%Q -> snd p = b)) /\
    ((fst (snapPosition showGrid (fst snapped) (snd snapped) cs) == fst snapped)%Q /\
     (snd (snapPosition showGrid (fst snapped) (snd snapped) cs) == snd snapped)%Q) /\
    ((x == centerX)%Q -> fst snapped = centerX) /\
    ((y == centerY)%Q -> snd snapped = centerY) /\
    (on_grid x -> ~ (Qabs (x - centerX) < 50)%Q -> (fst snapped == x)%Q) /\
    (on_grid y -> ~ (Qabs (y - centerY) < 50)%Q -> (snd snapped == y)%Q).
Proof.
  intros showGrid x y cs centerX centerY snapped.
  split; [reflexivity|]. split.
  { intros v. split; [apply snapToGrid_on_grid | apply snapToGrid_near]. }
  split.
  { intros a b p. subst p. unfold snapToCenter. cbn [fst snd].
    fold centerX centerY. repeat split; intros H.
    - apply ltb_lt in H. rewrite H. reflexivity.
    - apply ltb_false in H. rewrite H. reflexivity.
    - apply ltb_lt in H. rewrite H. reflexivity.
    - apply ltb_false in H. rewrite H. reflexivity. }
  subst snapped. rewrite !snapPosition_axes. cbn [fst snd].
  fold centerX centerY.
  split; [split; apply snapAxis_idempotent|].
  split; [apply snapAxis_center|].
  split; [apply snapAxis_center|].
  split; intros Hg Hfar; apply snapAxis_far; auto.
Qed.

(** [C6], at the center of the sample document, [(200, 150)], and at the
    grid position [(100, 20)] away from it. *)
Lemma snap_grid_then_center_witness :
  fst (snapPosition true 200 150 Sample.doc) = (400 / 2)%Q /\
  (fst (snapPosition true 100 20 Sample.doc) == 100)%Q.
Proof.
  split.
  - refine (proj1 (proj2 (proj2 (proj2 (proj2
      (snap_grid_then_center true 200 150 Sample.doc))))) _).
    reflexivity.
  - refine (proj1 (proj2 (proj2 (proj2 (proj2 (proj2 (proj2
      (snap_grid_then_center true 100 20 Sample.doc))))))) _ _).
    + exists 5. reflexivity.
    + vm_compute. intros H. discriminate H.
Defined.

(** [C6] as stated fails on a position of the grid that is less than 50
    away from the center: [(180, 20)] in the 400 x 300 document comes out as
    [(200, 20)]. *)
Lemma snap_moves_grid_position_to_center :
  ~ grid_position_is_fixed true 180 20 Sample.doc /\
  snapPosition true 180 20 Sample.doc = ((400 / 2)%Q, 20%Q).
Proof.
  split; [|reflexivity].
  intros H. destruct H as [Hx _].
  - exists 9. reflexivity.
  - exists 1. reflexivity.
  - vm_compute in Hx. discriminate Hx.
Qed.

(** ** Export *)

(** [C8] Exporting.  The export is rejected with an error when the
    document has no background image, when no 2D context is obtained, and when
    the image fails to load; it reads the state and sets none.  In the
    remaining case (an image, a context, the image loaded) it resolves after
    these calls, in this order: the surface is sized
    [imageWidth * scale] by [imageHeight * scale]; it is filled with [#ffffff]
    over its whole area; the image and then the layers are drawn; the surface
    is encoded with the quality given for [jpg] and with no quality for
    [png]. *)
Theorem export_fills_white_and_encodes :
  forall (ctx imageLoads : bool) (options : ExportOptions) (st : AppState),
    let cs := canvasState st in
    let scaledWidth := (imageWidth cs * scale options)%Q in
    let scaledHeight := (imageHeight cs * scale options)%Q in
    (JS.truthy (image cs) = false ->
     handleExport ctx imageLoads options st
       = Rejected "Failed to create canvas context") /\
    (ctx = false ->
     handleExport ctx imageLoads options st
       = Rejected "Failed to create canvas context") /\
    (JS.truthy (image cs) = true -> ctx = true -> imageLoads = false ->
     handleExport ctx imageLoads options st = Rejected "Failed to load image") /\
    (forall src,
        image cs = Some src -> src <> EmptyString ->
        ctx = true -> imageLoads = true ->
        handleExport ctx imageLoads options st
          = Resolved
              ([SetSize scaledWidth scaledHeight;
                SetFillStyle "#ffffff";
                FillRect 0 0 scaledWidth scaledHeight;
                DrawImage src 0 0 scaledWidth scaledHeight]
               ++ flat_map (drawLayer (scale options))
                    (JS.sort by_zIndex (textLayers cs))
               ++ [match format options with
                   | jpg => ToDataURL "image/jpeg" (Some (quality options))
                   | png => ToDataURL "image/png" None
                   end])).
Proof.
  intros ctx imageLoads options st cs scaledWidth scaledHeight.
  unfold handleExport. fold cs. repeat apply conj.
  - intros Himg. destruct (image cs) as [src|]; [|reflexivity].
    rewrite Himg, orb_true_r. reflexivity.
  - intros ->. destruct (image cs); reflexivity.
  - intros Himg -> ->. destruct (image cs) as [src|]; [|discriminate].
    rewrite Himg. reflexivity.
  - intros src -> Hne -> ->. cbn [JS.truthy].
    destruct (String.eqb_spec src EmptyString) as [E|_]; [contradiction|].
    cbn [negb orb]. fold scaledWidth scaledHeight.
    destruct (format options); reflexivity.
Qed.

(** [C8], at the sample document exported as [jpg] at scale 2 and quality
    0.8: an 800 x 600 surface, white first. *)
Lemma export_fills_white_and_encodes_witness :
  handleExport true true (mkExportOptions jpg (8 # 10) 2) Sample.app
  = Resolved
      ([SetSize (400 * 2) (300 * 2); SetFillStyle "#ffffff";
        FillRect 0 0 (400 * 2) (300 * 2);
        DrawImage "data:image/png" 0 0 (400 * 2) (300 * 2)]
       ++ flat_map (drawLayer 2) [Sample.layerA]
       ++ [ToDataURL "image/jpeg" (Some (8 # 10))]).
Proof.
  refine (proj2 (proj2 (proj2
    (export_fills_white_and_encodes true true (mkExportOptions jpg (8 # 10) 2)
       Sample.app))) "data:image/png"%string eq_refl _ eq_refl eq_refl).
  discriminate.
Defined.

(** [C8] as stated fails when the document has an image that does not
    load: the export is rejected, no surface is drawn. *)
Lemma export_rejected_when_image_fails_to_load :
  ~ export_fails_only_without_image true false (mkExportOptions png 1 1) Sample.app /\
  handleExport true false (mkExportOptions png 1 1) Sample.app
    = Rejected "Failed to load image".
Proof.
  split; [|reflexivity].
  intros [_ H]. destruct H as [calls Hc]; discriminate.
Qed.

(** * Further properties *)

(** ** History *)

Lemma skipn_S_tl {A} (n : nat) (l : list A) :
  skipn (Datatypes.S n) l = tl (skipn n l).
Proof.
  revert l; induction n as [|n IH]; intros l.
  - destruct l; reflexivity.
  - destruct l as [|a l]; [reflexivity|].
    rewrite !skipn_cons. apply IH.
Qed.

Lemma lastn_short {A} (n : nat) (l : list A) :
  (List.length l <= n)%nat -> lastn n l = l.
Proof.
  intros H. unfold lastn.
  replace (List.length l - n)%nat with 0%nat by lia. reflexivity.
Qed.

Lemma lastn_length {A} (n : nat) (l : list A) :
  List.length (lastn n l) = Nat.min n (List.length l).
Proof. unfold lastn. rewrite length_skipn. lia. Qed.

Lemma lastn_snoc {A} (n : nat) (l : list A) (s : A) :
  lastn (Datatypes.S n) (l ++ [s]) = lastn n l ++ [s].
Proof.
  unfold lastn. rewrite length_app. cbn [Datatypes.length].
  replace (List.length l + 1 - Datatypes.S n)%nat with (List.length l - n)%nat
    by lia.
  rewrite skipn_app.
  replace (List.length l - n - List.length l)%nat with 0%nat by lia.
  reflexivity.
Qed.

Lemma lastn_tl {A} (n : nat) (l : list A) :
  (n < List.length l)%nat -> lastn n l = tl (lastn (Datatypes.S n) l).
Proof.
  intros H. unfold lastn.
  replace (List.length l - n)%nat
    with (Datatypes.S (List.length l - Datatypes.S n)) by lia.
  apply skipn_S_tl.
Qed.

Lemma records_snoc {S} (h : HistoryState S) ss s :
  records h (ss ++ [s]) = record (records h ss) s.
Proof. unfold records. rewrite fold_left_app. reflexivity. Qed.

Lemma record_newest {S} (h : HistoryState S) (s : S) :
  JS.len (history h) <= 20 ->
  historyIndex h = JS.len (history h) - 1 ->
  history (record h s) = lastn 20 (history h ++ [s]) /\
  JS.len (history (record h s)) <= 20 /\
  historyIndex (record h s) = JS.len (history (record h s)) - 1.
Proof.
  intros Hlen Hcur.
  assert (Hwf : history_wf h).
  { split; [exact Hlen|]. pose proof (len_nonneg (history h)). lia. }
  pose proof (record_wf s Hwf) as [Hlen' _].
  split; [|split; [exact Hlen'|apply cursor_record; exact Hwf]].
  rewrite (record_unfold s Hwf).
  assert (Happ : appended h s = history h ++ [s]).
  { unfold appended. rewrite Hcur.
    replace (JS.len (history h) - 1 + 1) with (JS.len (history h)) by lia.
    unfold JS.len. rewrite Nat2Z.id, firstn_all. reflexivity. }
  rewrite Happ, len_app. unfold MAX_HISTORY_STEPS, JS.len in *.
  cbn [Datatypes.length].
  destruct (Z.of_nat (List.length (history h)) + Z.of_nat 1 >? 20) eqn:E;
    cbn [history].
  - apply Z.gtb_lt in E.
    replace (history h) with (lastn 20 (history h)) at 1
      by (apply lastn_short; lia).
    rewrite <- lastn_snoc, (lastn_tl (n := 20)); [reflexivity|].
    rewrite length_app. cbn [Datatypes.length]. lia.
  - rewrite Z.gtb_ltb in E. apply Z.ltb_ge in E.
    rewrite lastn_short; [reflexivity|].
    rewrite length_app. cbn [Datatypes.length]. lia.
Qed.

Lemma lastn_app_lastn {A} (n : nat) (a b : list A) :
  lastn n (lastn n a ++ b) = lastn n (a ++ b).
Proof.
  unfold lastn. rewrite !length_app, length_skipn.
  destruct (Nat.le_gt_cases (List.length a) n) as [H|H].
  - replace (List.length a - n)%nat with 0%nat by lia.
    cbn [skipn]. rewrite Nat.sub_0_r. reflexivity.
  - rewrite !skipn_app, length_skipn.
    rewrite skipn_skipn. f_equal; [f_equal; lia|f_equal; lia].
Qed.

(** X1.  Starting from a history whose cursor is on its newest entry, a
    run of records made one per render (each through the callback of the
    render that shows the current cursor, as events that record once do)
    leaves exactly the last 20 of all the documents recorded so far, oldest
    first, with the cursor on the newest: the oldest entries are the ones
    evicted, and nothing else is lost or reordered. *)
Theorem records_keep_the_newest_documents :
  forall (S : Type) (h : HistoryState S) (ss : list S),
    JS.len (history h) <= 20 ->
    historyIndex h = JS.len (history h) - 1 ->
    history (records h ss) = lastn 20 (history h ++ ss) /\
    historyIndex (records h ss) = JS.len (history (records h ss)) - 1.
Proof.
  intros S h ss Hlen Hcur.
  assert (H : history (records h ss) = lastn 20 (history h ++ ss) /\
              JS.len (history (records h ss)) <= 20 /\
              historyIndex (records h ss) = JS.len (history (records h ss)) - 1).
  { induction ss as [|s ss IH] using rev_ind.
    - cbn. split; [|split; assumption].
      symmetry. rewrite app_nil_r. apply lastn_short.
      unfold JS.len in Hlen. lia.
    - destruct IH as [IHh [IHl IHc]].
      rewrite records_snoc.
      destruct (record_newest (records h ss) s IHl IHc) as [Rh Rc].
      split; [|exact Rc].
      rewrite Rh, IHh, app_assoc. apply lastn_app_lastn. }
  split; [apply H|apply H].
Qed.

Lemma records_keep_the_newest_documents_witness :
  history (records (mkHistory [1; 2] 1) (map Z.of_nat (seq 3 20)))
    = lastn 20 ([1; 2] ++ map Z.of_nat (seq 3 20)) /\
  lastn 20 ([1; 2] ++ map Z.of_nat (seq 3 20)) = map Z.of_nat (seq 3 20).
Proof.
  split; [|reflexivity].
  apply (records_keep_the_newest_documents (mkHistory [1; 2] 1)
           (map Z.of_nat (seq 3 20))); vm_compute; [discriminate|reflexivity].
Defined.

Lemma undo_on_entry st :
  0 <= historyIndex (hist st) < JS.len (history (hist st)) ->
  exists s,
    JS.index (history (hist st)) (Z.max 0 (historyIndex (hist st) - 1)) = Some s /\
    undo st =
      Some (if historyIndex (hist st) >? 0
            then mkAppState s (activeTab st)
                   (mkHistory (history (hist st)) (historyIndex (hist st) - 1))
            else st).
Proof.
  intros Hi.
  destruct (@index_in_range _ (history (hist st))
              (Z.max 0 (historyIndex (hist st) - 1))) as [s Hs]; [lia|].
  exists s. split; [exact Hs|].
  unfold undo. destruct (historyIndex (hist st) >? 0) eqn:E; [|reflexivity].
  apply Z.gtb_lt in E.
  replace (Z.max 0 (historyIndex (hist st) - 1))
    with (historyIndex (hist st) - 1) in Hs by lia.
  rewrite Hs. reflexivity.
Qed.

(** X2.  From a state whose cursor is on the entry shown on screen, [k]
    undos in a row always succeed, leave the history array untouched, and
    show the entry [k] places back; they stop at the oldest entry.  As there
    are at most 20 entries, 19 undos always reach the oldest one and every
    further undo changes nothing. *)
Theorem repeated_undo_walks_back_to_oldest :
  forall (st : AppState) (k : nat),
    app_ok st ->
    0 <= historyIndex (hist st) < JS.len (history (hist st)) ->
    let target := Z.max 0 (historyIndex (hist st) - Z.of_nat k) in
    (exists s,
        JS.index (history (hist st)) target = Some s /\
        undos k st =
          Some (mkAppState s (activeTab st) (mkHistory (history (hist st)) target))) /\
    ((19 <= k)%nat -> undos k st = undos 19 st).
Proof.
  assert (Hmain : forall k st,
    0 <= historyIndex (hist st) < JS.len (history (hist st)) ->
    JS.index (history (hist st)) (historyIndex (hist st)) = Some (canvasState st) ->
    exists s,
      JS.index (history (hist st)) (Z.max 0 (historyIndex (hist st) - Z.of_nat k))
        = Some s /\
      undos k st =
        Some (mkAppState s (activeTab st)
                (mkHistory (history (hist st))
                   (Z.max 0 (historyIndex (hist st) - Z.of_nat k))))).
  { induction k as [|k IH]; intros st Hi Hs.
    - exists (canvasState st).
      replace (Z.max 0 (historyIndex (hist st) - Z.of_nat 0))
        with (historyIndex (hist st)) by lia.
      split; [exact Hs|].
      destruct st as [cs tab [h i]]; reflexivity.
    - destruct (undo_on_entry st Hi) as [s1 [Hs1 Hu]].
      cbn [undos]. rewrite Hu.
      destruct (historyIndex (hist st) >? 0) eqn:E.
      + apply Z.gtb_lt in E.
        replace (Z.max 0 (historyIndex (hist st) - 1))
          with (historyIndex (hist st) - 1) in Hs1 by lia.
        destruct (IH (mkAppState s1 (activeTab st)
                        (mkHistory (history (hist st)) (historyIndex (hist st) - 1))))
          as [s [Hs' Hu']]; cbn [hist history historyIndex canvasState]; [lia|exact Hs1|].
        cbn [hist history historyIndex canvasState activeTab] in Hs', Hu'.
        replace (Z.max 0 (historyIndex (hist st) - 1 - Z.of_nat k))
          with (Z.max 0 (historyIndex (hist st) - Z.of_nat (Datatypes.S k)))
          in Hs', Hu' by lia.
        exists s. split; assumption.
      + rewrite Z.gtb_ltb in E. apply Z.ltb_ge in E.
        destruct (IH st Hi Hs) as [s [Hs' Hu']].
        replace (Z.max 0 (historyIndex (hist st) - Z.of_nat k))
          with (Z.max 0 (historyIndex (hist st) - Z.of_nat (Datatypes.S k)))
          in Hs', Hu' by lia.
        exists s. split; assumption. }
  intros st k Hok Hi target.
  assert (Hs : JS.index (history (hist st)) (historyIndex (hist st))
               = Some (canvasState st)).
  { destruct Hok as [_ [[Hnil _]|[[_ H]|[H _]]]]; [|exact H|lia].
    rewrite Hnil in Hi. cbn in Hi. lia. }
  split; [apply Hmain; assumption|].
  intros Hk.
  destruct (Hmain k st Hi Hs) as [s [Hs1 Hu1]].
  destruct (Hmain 19%nat st Hi Hs) as [s' [Hs2 Hu2]].
  destruct Hok as [Hlen _]. unfold MAX_HISTORY_STEPS in Hlen.
  replace (Z.max 0 (historyIndex (hist st) - Z.of_nat k)) with 0 in Hs1, Hu1 by lia.
  replace (Z.max 0 (historyIndex (hist st) - Z.of_nat 19)) with 0 in Hs2, Hu2 by lia.
  rewrite Hu1, Hu2. congruence.
Qed.

Lemma repeated_undo_walks_back_to_oldest_witness :
  let docA := mkCanvasState (Some "a"%string) 400 300 [] None in
  let docB := mkCanvasState (Some "a"%string) 400 300 [] (Some "x"%string) in
  let st := mutations initialApp [Once docA; Once docB; Once docA] in
  (exists s,
      JS.index (history (hist st)) (Z.max 0 (historyIndex (hist st) - Z.of_nat 5))
        = Some s /\
      undos 5 st =
        Some (mkAppState s (activeTab st)
                (mkHistory (history (hist st))
                   (Z.max 0 (historyIndex (hist st) - Z.of_nat 5))))) /\
  option_map canvasState (undos 5 st) = Some docA.
Proof.
  intros docA docB st. split; [|reflexivity].
  refine (proj1 (repeated_undo_walks_back_to_oldest (st := st) 5 _ _)).
  - apply (@mutations_ok initialApp (Once docA) [Once docB; Once docA]),
      initialApp_ok.
  - vm_compute. split; [discriminate|reflexivity].
Defined.

(** X3.  Redo followed by undo is the identity: whenever a redo is
    available, it succeeds without touching the history array, and undoing
    it gives back exactly the state before, cursor included. *)
Theorem redo_then_undo_is_identity :
  forall st : AppState,
    app_ok st ->
    canRedo (hist st) = true ->
    exists st1,
      redo st = Some st1 /\
      history (hist st1) = history (hist st) /\
      historyIndex (hist st1) = historyIndex (hist st) + 1 /\
      JS.index (history (hist st)) (historyIndex (hist st) + 1)
        = Some (canvasState st1) /\
      canUndo (hist st1) = true /\
      undo st1 = Some st.
Proof.
  intros st Hok Hredo.
  unfold canRedo in Hredo. pose proof Hredo as Hlt. apply Z.ltb_lt in Hlt.
  destruct Hok as [_ [[Hnil Hi]|[[Hi Hs]|[Hi _]]]]; [|clear Hlt|lia].
  { rewrite Hnil in Hlt. cbn in Hlt. lia. }
  destruct (@index_in_range _ (history (hist st)) (historyIndex (hist st) + 1))
    as [s1 Hs1]; [apply Z.ltb_lt in Hredo; lia|].
  unfold redo. rewrite Hredo, Hs1. eexists. split; [reflexivity|].
  cbn [hist history historyIndex canvasState activeTab].
  split; [reflexivity|]. split; [reflexivity|]. split; [reflexivity|].
  assert (Hgt : (historyIndex (hist st) + 1 >? 0) = true) by (apply Z.gtb_lt; lia).
  split; [exact Hgt|].
  unfold undo. cbn [hist history historyIndex canvasState activeTab].
  rewrite Hgt.
  replace (historyIndex (hist st) + 1 - 1) with (historyIndex (hist st)) by lia.
  rewrite Hs. destruct st as [cs tab [h i]]; reflexivity.
Qed.

Lemma redo_then_undo_is_identity_witness :
  let docA := mkCanvasState (Some "a"%string) 400 300 [] None in
  let docB := mkCanvasState (Some "a"%string) 400 300 [] (Some "x"%string) in
  let st := mkAppState docA properties (mkHistory [docA; docB] 0) in
  exists st1,
    redo st = Some st1 /\
    history (hist st1) = history (hist st) /\
    historyIndex (hist st1) = historyIndex (hist st) + 1 /\
    JS.index (history (hist st)) (historyIndex (hist st) + 1)
      = Some (canvasState st1) /\
    canUndo (hist st1) = true /\
    undo st1 = Some st.
Proof.
  intros docA docB st.
  apply (redo_then_undo_is_identity (st := st)).
  - split; [vm_compute; discriminate|]. right; left.
    split; [vm_compute; split; [discriminate|reflexivity]|reflexivity].
  - reflexivity.
Defined.

(** X4.  Uploading an image or resetting the design starts the history
    over: the one entry is the new document, which has no layers and no
    selection, so that neither undo nor redo is available and both leave the
    state as it is; a change made afterwards can be undone back to that
    document, and nothing from before it can be reached. *)
Theorem upload_and_reset_restart_history :
  forall (st : AppState) (imageData : string) (width height : Q),
    let fresh (st' : AppState) :=
      history (hist st') = [canvasState st'] /\
      textLayers (canvasState st') = [] /\
      selectedLayerId (canvasState st') = None /\
      canUndo (hist st') = false /\ canRedo (hist st') = false /\
      undo st' = Some st' /\ redo st' = Some st' /\
      (forall k, undos k st' = Some st') /\
      forall newState,
        exists st1, undo (commit st' newState) = Some st1 /\
                    canvasState st1 = canvasState st' /\
                    undo st1 = Some st1 in
    fresh (handleImageUpload imageData width height st) /\
    image (canvasState (handleImageUpload imageData width height st))
      = Some imageData /\
    fresh (handleResetDesign st) /\
    canvasState (handleResetDesign st) = blankState.
Proof.
  intros st imageData width height fresh.
  assert (H : forall cs tab,
             textLayers cs = [] -> selectedLayerId cs = None ->
             fresh (mkAppState cs tab (mkHistory [cs] 0))).
  { intros cs tab Hl Hsel. unfold fresh.
    cbn [hist history historyIndex canvasState].
    repeat (split; [first [assumption|reflexivity]|]).
    split; [induction k as [|k IH]; [reflexivity|exact IH]|].
    intros newState. eexists. split; [reflexivity|]. split; reflexivity. }
  split; [apply H; reflexivity|]. split; [reflexivity|].
  split; [apply H; reflexivity|reflexivity].
Qed.

(** ** Stacking order *)

Lemma getNextZIndex_attained layers :
  layers <> [] ->
  exists layer, In layer layers /\ getNextZIndex layers = l_zIndex layer + 1.
Proof.
  destruct layers as [|a l]; [congruence|intros _].
  unfold getNextZIndex. cbn [map]. unfold Math_max.
  assert (H : forall zs z, fold_left Z.max zs z = z \/ In (fold_left Z.max zs z) zs).
  { induction zs as [|y zs IH]; intros z; [left; reflexivity|].
    cbn [fold_left]. destruct (IH (Z.max z y)) as [E|E].
    - rewrite E. destruct (Z.max_spec z y) as [[_ M]|[_ M]]; rewrite M;
        [right; left; reflexivity|left; reflexivity].
    - right; right; exact E. }
  destruct (H (map l_zIndex l) (l_zIndex a)) as [E|E].
  - exists a. split; [left; reflexivity|]. rewrite E. reflexivity.
  - apply in_map_iff in E. destruct E as [b [Eb Hb]].
    exists b. split; [right; exact Hb|]. rewrite Eb. reflexivity.
Qed.

(** X5.  [getNextZIndex] is 0 for no layers and otherwise one more than the
    largest z-index in use, so it is above every layer and used by none; a
    layer appended with it is still the last one, on top, after
    [normalizeZIndexes]. *)
Theorem getNextZIndex_is_fresh_and_on_top :
  forall layers : list TextLayer,
    getNextZIndex [] = 0 /\
    (forall layer, In layer layers -> l_zIndex layer < getNextZIndex layers) /\
    (layers <> [] ->
     exists layer, In layer layers /\ getNextZIndex layers = l_zIndex layer + 1) /\
    ~ In (getNextZIndex layers) (zIndexes layers) /\
    (forall x,
        normalizeZIndexes (layers ++ [with_zIndex x (getNextZIndex layers)])
        = normalizeZIndexes layers ++ [with_zIndex x (JS.len layers)]).
Proof.
  intros layers.
  pose proof (getNextZIndex_above layers) as Habove.
  rewrite Forall_forall in Habove.
  split; [reflexivity|]. split; [exact Habove|].
  split; [apply getNextZIndex_attained|]. split.
  - intros Hin. apply in_map_iff in Hin. destruct Hin as [l [E Hl]].
    specialize (Habove l Hl). lia.
  - intros x. rewrite normalizeZIndexes_snoc; reflexivity.
Qed.

Lemma ignoring_mapi_from k l :
  ignoring_zIndex (JS.mapi_from (fun layer index => with_zIndex layer index) k l)
  = ignoring_zIndex l.
Proof.
  revert k; induction l as [|a l IH]; intros k; [reflexivity|].
  cbn [JS.mapi_from ignoring_zIndex map].
  f_equal. apply IH.
Qed.

Lemma mapi_from_ignoring k l l' :
  ignoring_zIndex l = ignoring_zIndex l' ->
  JS.mapi_from (fun layer index => with_zIndex layer index) k l
  = JS.mapi_from (fun layer index => with_zIndex layer index) k l'.
Proof.
  revert k l'; induction l as [|a l IH]; intros k [|b l'] E;
    try discriminate; [reflexivity|].
  unfold ignoring_zIndex in E. cbn [map] in E.
  pose proof (f_equal (hd a) E) as Eab. pose proof (f_equal (@tl _) E) as El.
  cbn [hd tl] in Eab, El.
  cbn [JS.mapi_from]. f_equal; [|apply IH; exact El].
  change (with_zIndex a k) with (with_zIndex (with_zIndex a 0) k).
  rewrite Eab. reflexivity.
Qed.

Lemma normalizeZIndexes_perm layers :
  Permutation (ignoring_zIndex (normalizeZIndexes layers)) (ignoring_zIndex layers).
Proof.
  unfold normalizeZIndexes, JS.mapi. rewrite ignoring_mapi_from.
  apply Permutation_map, sort_perm.
Qed.

(** X6.  [normalizeZIndexes] changes nothing but z-indexes, leaves exactly
    the arrays whose z-indexes already are [0, 1, ..., N-1] untouched, and
    normalising twice is the same as normalising once. *)
Theorem normalizeZIndexes_fixes_contiguous_arrays :
  forall layers : list TextLayer,
    Permutation (ignoring_zIndex (normalizeZIndexes layers)) (ignoring_zIndex layers) /\
    (normalizeZIndexes layers = layers <-> contiguous layers) /\
    normalizeZIndexes (normalizeZIndexes layers) = normalizeZIndexes layers.
Proof.
  intros layers. split; [|split].
  - apply normalizeZIndexes_perm.
  - split; [intros E; rewrite <- E; apply normalizeZIndexes_contiguous
           |apply normalizeZIndexes_contiguous_id].
  - apply normalizeZIndexes_idempotent.
Qed.

Lemma nth_error_split_at {A} (l : list A) i x :
  nth_error l i = Some x ->
  l = firstn i l ++ x :: skipn (Datatypes.S i) l /\ List.length (firstn i l) = i.
Proof.
  revert i; induction l as [|a l IH]; intros [|i] H; try discriminate.
  - injection H as ->. split; reflexivity.
  - cbn [nth_error] in H. destruct (IH i H) as [E L].
    cbn [firstn]. rewrite skipn_cons. cbn [app Datatypes.length].
    split; [f_equal; exact E|f_equal; exact L].
Qed.

Lemma removeAt_length {A} (l : list A) i x :
  nth_error l i = Some x ->
  Datatypes.S (List.length (removeAt i l)) = List.length l.
Proof.
  intros H. destruct (nth_error_split_at l i H) as [E L].
  rewrite E at 2. unfold removeAt.
  rewrite !length_app. cbn [Datatypes.length]. lia.
Qed.

Lemma insertAt_removeAt {A} (l : list A) i x :
  nth_error l i = Some x -> insertAt i x (removeAt i l) = l.
Proof.
  intros H. destruct (nth_error_split_at l i H) as [E L].
  unfold insertAt, removeAt.
  rewrite firstn_app, skipn_app, L, Nat.sub_diag.
  rewrite <- L at 1. rewrite firstn_all.
  rewrite <- L at 3. rewrite skipn_all.
  cbn [firstn skipn app]. rewrite app_nil_r. symmetry. exact E.
Qed.

Lemma insertAt_nth {A} (r : list A) j x :
  nth_error (insertAt j x r) (Nat.min j (List.length r)) = Some x.
Proof.
  unfold insertAt.
  rewrite nth_error_app2; rewrite length_firstn; [|lia].
  rewrite Nat.sub_diag. reflexivity.
Qed.

Lemma removeAt_insertAt {A} (r : list A) j x :
  (j <= List.length r)%nat -> removeAt j (insertAt j x r) = r.
Proof.
  intros H. unfold removeAt, insertAt.
  assert (L : List.length (firstn j r) = j) by (rewrite length_firstn; lia).
  rewrite firstn_app, skipn_app, L, Nat.sub_diag.
  rewrite <- L at 1. rewrite firstn_all.
  replace (Datatypes.S j - j)%nat with 1%nat by lia.
  rewrite (skipn_all2 (n := Datatypes.S j)) by lia.
  cbn [firstn skipn app]. rewrite app_nil_r. apply firstn_skipn.
Qed.


Lemma removeAt_map {A B} (f : A -> B) i l :
  map f (removeAt i l) = removeAt i (map f l).
Proof. unfold removeAt. rewrite map_app, firstn_map, skipn_map. reflexivity. Qed.

Lemma insertAt_map {A B} (f : A -> B) j x l :
  map f (insertAt j x l) = insertAt j (f x) (map f l).
Proof. unfold insertAt. rewrite map_app, firstn_map. cbn [map]. rewrite skipn_map. reflexivity. Qed.

Lemma insertAt_perm {A} (r : list A) j x : Permutation (insertAt j x r) (x :: r).
Proof.
  unfold insertAt. rewrite <- (firstn_skipn j r) at 3.
  symmetry. apply Permutation_middle.
Qed.

Lemma reorderLayers_unfold layers fromIndex toIndex removed :
  nth_error layers fromIndex = Some removed ->
  reorderLayers layers fromIndex toIndex =
    Some (JS.mapi (fun layer index => with_zIndex layer index)
            (insertAt toIndex removed (removeAt fromIndex layers))).
Proof. intros H. unfold reorderLayers. rewrite H. reflexivity. Qed.

Lemma reorderLayers_back layers i j x :
  nth_error layers i = Some x -> (j < List.length layers)%nat ->
  exists out,
    reorderLayers layers i j = Some out /\
    nth_error out j = Some (with_zIndex x (Z.of_nat j)) /\
    reorderLayers out j i =
      Some (JS.mapi (fun layer index => with_zIndex layer index) layers).
Proof.
  intros Hx Hj.
  pose proof (removeAt_length layers i Hx) as Hlen.
  rewrite (reorderLayers_unfold layers i j Hx). eexists. split; [reflexivity|].
  assert (Hnth : nth_error
                   (JS.mapi (fun layer index => with_zIndex layer index)
                      (insertAt j x (removeAt i layers))) j
                 = Some (with_zIndex x (Z.of_nat j))).
  { unfold JS.mapi.
    rewrite (@mapi_from_nth _ _ _ 0 _ j x); [reflexivity|].
    pose proof (insertAt_nth (removeAt i layers) j x) as H.
    replace (Nat.min j (List.length (removeAt i layers))) with j in H by lia.
    exact H. }
  split; [exact Hnth|].
  rewrite (reorderLayers_unfold _ j i Hnth). f_equal.
  unfold JS.mapi. apply mapi_from_ignoring.
  unfold ignoring_zIndex.
  rewrite insertAt_map, removeAt_map.
  fold (ignoring_zIndex
          (JS.mapi_from (fun layer index => with_zIndex layer index) 0
             (insertAt j x (removeAt i layers)))).
  rewrite ignoring_mapi_from. unfold ignoring_zIndex.
  rewrite insertAt_map, removeAt_insertAt; [|rewrite length_map; lia].
  rewrite removeAt_map.
  change (with_zIndex (with_zIndex x (Z.of_nat j)) 0) with (with_zIndex x 0).
  apply insertAt_removeAt.
  rewrite nth_error_map, Hx. reflexivity.
Qed.

(** X7.  [reorderLayers] takes the layer at [fromIndex] out and puts it at
    [toIndex] (at the end when [toIndex] is past it), keeping the other
    layers in their order and changing nothing but z-indexes, which become
    the array positions.  Moving a layer from [i] to [j] and then from [j]
    back to [i] gives the array back, renumbered; so does moving a layer to
    where it is.  An index outside the array gives no array of layers. *)
Theorem reorderLayers_moves_one_layer :
  forall (layers : list TextLayer) (fromIndex toIndex : nat) (removed : TextLayer),
    nth_error layers fromIndex = Some removed ->
    let renumber := JS.mapi (fun layer index => with_zIndex layer index) in
    let landing := Nat.min toIndex (List.length layers - 1) in
    exists newLayers,
      reorderLayers layers fromIndex toIndex = Some newLayers /\
      nth_error newLayers landing = Some (with_zIndex removed (Z.of_nat landing)) /\
      ignoring_zIndex newLayers
        = insertAt toIndex (with_zIndex removed 0)
            (removeAt fromIndex (ignoring_zIndex layers)) /\
      Permutation (ignoring_zIndex newLayers) (ignoring_zIndex layers) /\
      ((toIndex < List.length layers)%nat ->
       reorderLayers newLayers toIndex fromIndex = Some (renumber layers)) /\
      (toIndex = fromIndex -> newLayers = renumber layers) /\
      reorderLayers layers (List.length layers) toIndex = None.
Proof.
  intros layers i j x Hx renumber landing.
  pose proof (removeAt_length layers i Hx) as Hlen.
  rewrite (reorderLayers_unfold layers i j Hx). eexists. split; [reflexivity|].
  assert (Hign : ignoring_zIndex
                   (JS.mapi (fun layer index => with_zIndex layer index)
                      (insertAt j x (removeAt i layers)))
                 = insertAt j (with_zIndex x 0) (removeAt i (ignoring_zIndex layers))).
  { unfold JS.mapi. rewrite ignoring_mapi_from. unfold ignoring_zIndex.
    rewrite insertAt_map, removeAt_map. reflexivity. }
  split; [|split; [exact Hign|split; [|split; [|split]]]].
  - unfold JS.mapi.
    rewrite (@mapi_from_nth _ _ _ 0 _ landing x); [reflexivity|].
    pose proof (insertAt_nth (removeAt i layers) j x) as H.
    replace (Nat.min j (List.length (removeAt i layers))) with landing in H
      by (unfold landing; lia).
    exact H.
  - rewrite Hign.
    rewrite insertAt_perm.
    rewrite <- (@insertAt_removeAt _ (ignoring_zIndex layers) i (with_zIndex x 0))
      at 2.
    + symmetry. apply insertAt_perm.
    + unfold ignoring_zIndex. rewrite nth_error_map, Hx. reflexivity.
  - intros Hj. destruct (@reorderLayers_back layers i j x Hx Hj) as [out [E [_ Hb]]].
    rewrite (reorderLayers_unfold layers i j Hx) in E. injection E as <-. exact Hb.
  - intros ->. rewrite (insertAt_removeAt layers i Hx). reflexivity.
  - unfold reorderLayers.
    rewrite (proj2 (nth_error_None layers (List.length layers))); [reflexivity|lia].
Qed.

Lemma reorderLayers_moves_one_layer_witness :
  let a := createDefaultTextLayer "a" 0 0 in
  let b := createDefaultTextLayer "b" 0 0 in
  let c := createDefaultTextLayer "c" 0 0 in
  exists newLayers,
    reorderLayers [a; b; c] 0 2 = Some newLayers /\
    nth_error newLayers 2 = Some (with_zIndex a 2) /\
    map l_id newLayers = ["b"; "c"; "a"]%string.
Proof.
  intros a b c.
  destruct (@reorderLayers_moves_one_layer [a; b; c] 0 2 a eq_refl)
    as [newLayers [E [Hn _]]].
  exists newLayers. split; [exact E|]. split; [exact Hn|].
  vm_compute in E. injection E as <-. reflexivity.
Defined.

Lemma findIndex_nth layerId layers i :
  findIndex layerId layers = Some i ->
  exists x, nth_error layers i = Some x /\ l_id x = layerId.
Proof.
  revert i; induction layers as [|a l IH]; intros i H; [discriminate|].
  cbn [findIndex] in H. destruct (String.eqb (l_id a) layerId) eqn:E.
  - injection H as <-. exists a. split; [reflexivity|apply String.eqb_eq, E].
  - destruct (findIndex layerId l) as [k|]; [|discriminate].
    injection H as <-. apply (IH k eq_refl).
Qed.

Lemma findIndex_unique layers i x :
  NoDup (map l_id layers) -> nth_error layers i = Some x ->
  findIndex (l_id x) layers = Some i.
Proof.
  revert i; induction layers as [|a l IH]; intros [|i] Hnd H; try discriminate.
  - injection H as ->. cbn [findIndex]. rewrite String.eqb_refl. reflexivity.
  - cbn [nth_error] in H. cbn [map] in Hnd. inversion Hnd as [|? ? Hnotin Hnd']; subst.
    cbn [findIndex].
    destruct (String.eqb (l_id a) (l_id x)) eqn:E.
    + apply String.eqb_eq in E. exfalso. apply Hnotin. rewrite E.
      apply in_map, (nth_error_In _ _ H).
    + rewrite (IH i Hnd' H). reflexivity.
Qed.

Lemma ids_ignoring layers : map l_id (ignoring_zIndex layers) = map l_id layers.
Proof. unfold ignoring_zIndex. rewrite map_map. reflexivity. Qed.

Lemma onUpdateLayers_contiguous layers st :
  contiguous layers ->
  textLayers (canvasState (onUpdateLayers layers st)) = layers.
Proof.
  intros H. unfold onUpdateLayers. cbn [commit commitFrom canvasState textLayers].
  apply normalizeZIndexes_contiguous_id, H.
Qed.

Lemma handleMoveLayer_to st layerId direction i j x :
  findIndex layerId (textLayers (canvasState st)) = Some i ->
  nth_error (textLayers (canvasState st)) i = Some x ->
  (j < List.length (textLayers (canvasState st)))%nat ->
  match direction with up => j = Datatypes.S i | down => Datatypes.S j = i end ->
  handleMoveLayer layerId direction st =
    onUpdateLayers
      (JS.mapi (fun layer index => with_zIndex layer index)
         (insertAt j x (removeAt i (textLayers (canvasState st))))) st.
Proof.
  intros Hf Hx Hj Hd. unfold handleMoveLayer. rewrite Hf.
  destruct direction; subst.
  - replace (Z.of_nat i <? JS.len (textLayers (canvasState st)) - 1) with true
      by (symmetry; apply Z.ltb_lt; unfold JS.len; lia).
    rewrite (reorderLayers_unfold _ i (Datatypes.S i) Hx). reflexivity.
  - replace (Z.of_nat (Datatypes.S j) >? 0) with true
      by (symmetry; apply Z.gtb_lt; lia).
    cbn [Nat.pred].
    rewrite (reorderLayers_unfold _ (Datatypes.S j) j Hx). reflexivity.
Qed.

(** X8.  In the layers panel, with distinct layer ids and z-indexes
    [0, ..., N-1]: moving a layer up and then down again, or down and then
    up again, gives back the layers exactly as they were.  Moving the top
    layer up, the bottom layer down, or a layer that does not exist changes
    nothing and records nothing. *)
Theorem move_layer_up_then_down_restores_layers :
  forall (st : AppState) (layerId : string) (i : nat),
    let layers := textLayers (canvasState st) in
    NoDup (map l_id layers) ->
    contiguous layers ->
    findIndex layerId layers = Some i ->
    ((Datatypes.S i < List.length layers)%nat ->
     textLayers (canvasState (handleMoveLayer layerId down
                                (handleMoveLayer layerId up st))) = layers) /\
    ((0 < i)%nat ->
     textLayers (canvasState (handleMoveLayer layerId up
                                (handleMoveLayer layerId down st))) = layers) /\
    (Datatypes.S i = List.length layers -> handleMoveLayer layerId up st = st) /\
    (i = 0%nat -> handleMoveLayer layerId down st = st) /\
    (forall other direction,
        findIndex other layers = None -> handleMoveLayer other direction st = st).
Proof.
  intros st layerId i layers Hnd Hc Hf.
  destruct (findIndex_nth _ _ Hf) as [x [Hx Hid]].
  assert (Hi : (i < List.length layers)%nat)
    by (apply nth_error_Some; fold layers in Hx; rewrite Hx; discriminate).
  assert (Hround : forall direction j,
    (j < List.length layers)%nat ->
    match direction with up => j = Datatypes.S i | down => Datatypes.S j = i end ->
    textLayers
      (canvasState
         (handleMoveLayer layerId
            (match direction with up => down | down => up end)
            (handleMoveLayer layerId direction st))) = layers).
  { intros direction j Hj Hd.
    destruct (@reorderLayers_back layers i j x Hx Hj) as [out [Eout [Hnth Hback]]].
    destruct (reorderLayers_contiguous _ _ _ Eout) as [Hcout Hlout].
    rewrite (reorderLayers_unfold layers i j Hx) in Eout. injection Eout as Eout.
    rewrite (@handleMoveLayer_to st layerId direction i j x Hf Hx Hj Hd).
    fold layers. rewrite Eout.
    pose proof (onUpdateLayers_contiguous st Hcout) as Hst1.
    set (st1 := onUpdateLayers out st) in *.
    assert (Hf1 : findIndex layerId (textLayers (canvasState st1)) = Some j).
    { rewrite Hst1, <- Hid.
      change (l_id x) with (l_id (with_zIndex x (Z.of_nat j))).
      apply findIndex_unique; [|exact Hnth].
      rewrite <- ids_ignoring, <- Eout. unfold JS.mapi.
      rewrite ignoring_mapi_from, ids_ignoring.
      apply (Permutation_NoDup (l := map l_id (x :: removeAt i layers))).
      - symmetry. apply Permutation_map, insertAt_perm.
      - apply (Permutation_NoDup (l := map l_id layers)); [|exact Hnd].
        apply Permutation_map.
        rewrite <- (insertAt_removeAt layers i Hx) at 1.
        apply insertAt_perm. }
    assert (Hback' : reorderLayers (textLayers (canvasState st1)) j i
                     = Some (JS.mapi (fun layer index => with_zIndex layer index)
                               layers))
      by (rewrite Hst1; exact Hback).
    unfold handleMoveLayer at 1. rewrite Hf1.
    assert (Hl1 : JS.len (textLayers (canvasState st1)) = JS.len layers)
      by (rewrite Hst1; unfold JS.len; rewrite Hlout; reflexivity).
    destruct direction; subst.
    - replace (Z.of_nat (Datatypes.S i) >? 0) with true
        by (symmetry; apply Z.gtb_lt; lia).
      cbn [Nat.pred]. rewrite Hback'.
      rewrite onUpdateLayers_contiguous by apply mapi_contiguous.
      apply (mapi_from_id 0), Hc.
    - replace (Z.of_nat j <? JS.len (textLayers (canvasState st1)) - 1) with true
        by (symmetry; apply Z.ltb_lt; rewrite Hl1; unfold JS.len; lia).
      rewrite Hback'.
      rewrite onUpdateLayers_contiguous by apply mapi_contiguous.
      apply (mapi_from_id 0), Hc. }
  split; [|split; [|split; [|split]]].
  - intros H. apply (Hround up (Datatypes.S i)); [exact H|reflexivity].
  - intros H. apply (Hround down (Nat.pred i)); lia.
  - intros H. unfold handleMoveLayer. fold layers. rewrite Hf.
    replace (Z.of_nat i <? JS.len layers - 1) with false; [reflexivity|].
    symmetry. apply Z.ltb_ge. unfold JS.len. lia.
  - intros ->. unfold handleMoveLayer. fold layers. rewrite Hf. reflexivity.
  - intros other direction Hnone. unfold handleMoveLayer. fold layers.
    rewrite Hnone. reflexivity.
Qed.

Lemma move_layer_up_then_down_restores_layers_witness :
  let a := createDefaultTextLayer "a" 0 0 in
  let b := with_zIndex (createDefaultTextLayer "b" 5 5) 1 in
  let st := mkAppState (mkCanvasState (Some "data"%string) 400 300 [a; b] None)
              layers (mkHistory [] (-1)) in
  textLayers (canvasState (handleMoveLayer "a" up st)) = [with_zIndex b 0; with_zIndex a 1] /\
  textLayers (canvasState (handleMoveLayer "a" down (handleMoveLayer "a" up st)))
    = [a; b].
Proof.
  intros a b st. split; [reflexivity|].
  refine (proj1 (@move_layer_up_then_down_restores_layers st "a" 0 _ _ _) _).
  - cbn. repeat constructor; cbn; intuition discriminate.
  - reflexivity.
  - reflexivity.
  - cbn. lia.
Defined.


(** ** Layers *)

Lemma ids_normalizeZIndexes layers :
  Permutation (map l_id (normalizeZIndexes layers)) (map l_id layers).
Proof.
  rewrite <- (ids_ignoring (normalizeZIndexes layers)), <- (ids_ignoring layers).
  apply Permutation_map, normalizeZIndexes_perm.
Qed.

Lemma filter_sorted {A} (R : A -> A -> Prop) (p : A -> bool) l :
  StronglySorted R l -> StronglySorted R (filter p l).
Proof.
  induction 1 as [|a l Hs IH Hall]; [constructor|].
  cbn [filter]. destruct (p a); [|exact IH].
  constructor; [exact IH|].
  rewrite Forall_forall in *. intros b Hb.
  apply filter_In in Hb. apply Hall, Hb.
Qed.

Lemma normalizeZIndexes_sorted layers :
  StronglySorted (key_le l_zIndex) layers ->
  normalizeZIndexes layers
  = JS.mapi (fun layer index => with_zIndex layer index) layers.
Proof.
  intros H. unfold normalizeZIndexes.
  rewrite (@sort_sorted_id _ by_zIndex l_zIndex by_zIndex_key layers H).
  reflexivity.
Qed.

Lemma handleDeleteLayer_ids layerId st s :
  In s (map l_id (textLayers (canvasState (handleDeleteLayer layerId st)))) <->
  In s (map l_id (textLayers (canvasState st))) /\ s <> layerId.
Proof.
  change (textLayers (canvasState (handleDeleteLayer layerId st)))
    with (normalizeZIndexes
            (filter (fun l => negb (String.eqb (l_id l) layerId))
               (textLayers (canvasState st)))).
  set (kept := filter _ _).
  split.
  - intros H. apply (Permutation_in _ (ids_normalizeZIndexes kept)) in H.
    apply in_map_iff in H. destruct H as [l [E Hin]].
    apply filter_In in Hin. destruct Hin as [Hin Hneq].
    apply negb_true_iff, String.eqb_neq in Hneq. subst s.
    split; [apply in_map, Hin|exact Hneq].
  - intros [H Hneq].
    apply (Permutation_in _ (Permutation_sym (ids_normalizeZIndexes kept))).
    apply in_map_iff in H. destruct H as [l [E Hin]].
    apply in_map_iff. exists l. split; [exact E|].
    apply filter_In. split; [exact Hin|].
    apply negb_true_iff, String.eqb_neq. congruence.
Qed.

(** X10.  Deleting a layer leaves no layer with that id, keeps every other
    layer (only z-indexes may change, and the layers left keep their stacking
    order and close the gap), clears the selection exactly when it was the
    deleted layer, and so never leaves a selection pointing at a missing
    layer.  The deletion is recorded even when no layer has that id. *)
Theorem delete_layer_removes_it_and_keeps_selection_valid :
  forall (st : AppState) (layerId : string),
    let cs := canvasState st in
    let cs' := canvasState (handleDeleteLayer layerId st) in
    let kept := filter (fun l => negb (String.eqb (l_id l) layerId)) (textLayers cs) in
    ~ In layerId (map l_id (textLayers cs')) /\
    Permutation (ignoring_zIndex (textLayers cs')) (ignoring_zIndex kept) /\
    (forall l, In l (textLayers cs) -> l_id l <> layerId ->
               exists z, In (with_zIndex l z) (textLayers cs')) /\
    (contiguous (textLayers cs) ->
     textLayers cs' = JS.mapi (fun layer index => with_zIndex layer index) kept) /\
    selectedLayerId cs'
      = (if is_selected (selectedLayerId cs) layerId then None
         else selectedLayerId cs) /\
    ((forall s, selectedLayerId cs = Some s -> In s (map l_id (textLayers cs))) ->
     forall s, selectedLayerId cs' = Some s -> In s (map l_id (textLayers cs'))) /\
    image cs' = image cs /\
    hist (handleDeleteLayer layerId st) = record (hist st) cs' /\
    (~ In layerId (map l_id (textLayers cs)) ->
     textLayers cs' = normalizeZIndexes (textLayers cs)).
Proof.
  intros st layerId cs cs' kept.
  assert (Hl : textLayers cs' = normalizeZIndexes kept) by reflexivity.
  assert (Hids : forall s, In s (map l_id (textLayers cs')) <->
                           In s (map l_id (textLayers cs)) /\ s <> layerId)
    by (intros s; apply handleDeleteLayer_ids).
  split; [intros H; apply Hids in H; destruct H as [_ H]; apply H; reflexivity|].
  split; [rewrite Hl; apply normalizeZIndexes_perm|].
  split.
  { intros l Hin Hneq.
    assert (Hk : In (with_zIndex l 0) (ignoring_zIndex kept)).
    { unfold ignoring_zIndex.
      apply (in_map (fun layer => with_zIndex layer 0)).
      apply filter_In. split; [exact Hin|].
      apply negb_true_iff, String.eqb_neq, Hneq. }
    apply (Permutation_in _ (Permutation_sym (normalizeZIndexes_perm kept))) in Hk.
    rewrite <- Hl in Hk. apply in_map_iff in Hk. destruct Hk as [l' [E Hin']].
    exists (l_zIndex l').
    change (with_zIndex l (l_zIndex l'))
      with (with_zIndex (with_zIndex l 0) (l_zIndex l')).
    rewrite <- E.
    change (with_zIndex (with_zIndex l' 0) (l_zIndex l'))
      with (with_zIndex l' (l_zIndex l')).
    rewrite with_zIndex_same. exact Hin'. }
  split.
  { intros Hc. rewrite Hl. apply normalizeZIndexes_sorted, filter_sorted.
    apply (contiguous_from_sorted 0 (textLayers cs) Hc). }
  split; [reflexivity|].
  split.
  { intros Hvalid s Hs. apply Hids.
    change (selectedLayerId cs')
      with (if is_selected (selectedLayerId cs) layerId then None
            else selectedLayerId cs) in Hs.
    destruct (selectedLayerId cs) as [sel|] eqn:Esel; [|discriminate].
    cbn [is_selected] in Hs. destruct (String.eqb sel layerId) eqn:E; [discriminate|].
    injection Hs as <-. split; [apply Hvalid; reflexivity|].
    apply String.eqb_neq, E. }
  split; [reflexivity|]. split; [reflexivity|].
  intros Hnotin.
  rewrite Hl. f_equal. unfold kept.
  assert (H : forall ls, ~ In layerId (map l_id ls) ->
              filter (fun l => negb (String.eqb (l_id l) layerId)) ls = ls).
  { induction ls as [|a ls IH]; intros Hn; [reflexivity|].
    cbn [filter]. cbn [map In] in Hn.
    destruct (String.eqb (l_id a) layerId) eqn:E.
    - apply String.eqb_eq in E. tauto.
    - cbn [negb]. f_equal. apply IH. tauto. }
  apply H, Hnotin.
Qed.

Lemma find_snoc_fresh layerId layers x :
  ~ In layerId (map l_id layers) -> l_id x = layerId ->
  JS.find (fun l => String.eqb (l_id l) layerId) (layers ++ [x]) = Some x.
Proof.
  intros Hn Hx. unfold JS.find.
  induction layers as [|a l IH].
  - cbn. rewrite Hx, String.eqb_refl. reflexivity.
  - cbn [app find]. cbn [map In] in Hn.
    destruct (String.eqb (l_id a) layerId) eqn:E.
    + apply String.eqb_eq in E. tauto.
    + apply IH. tauto.
Qed.

(** X11.  Adding a text layer always switches to the properties tab.
    Without an image it does nothing else: the document and the history stay
    as they are.  With an image it appends the default layer on top of the
    stack, with its 200 by 50 box centred on the image, selects it and
    records the new document; when the generated id is not in use, the
    properties panel then shows the new layer. *)
Theorem add_text_layer_puts_centred_layer_on_top :
  forall (st : AppState) (newId : string),
    let cs := canvasState st in
    let st' := handleAddTextLayer newId st in
    activeTab st' = properties /\
    (JS.truthy (image cs) = false ->
     canvasState st' = cs /\ hist st' = hist st) /\
    (JS.truthy (image cs) = true ->
     let newLayer :=
       with_zIndex
         (createDefaultTextLayer newId
            (imageWidth cs / 2 - 100)%Q (imageHeight cs / 2 - 25)%Q)
         (JS.len (textLayers cs)) in
     textLayers (canvasState st') = normalizeZIndexes (textLayers cs) ++ [newLayer] /\
     selectedLayerId (canvasState st') = Some newId /\
     image (canvasState st') = image cs /\
     imageWidth (canvasState st') = imageWidth cs /\
     imageHeight (canvasState st') = imageHeight cs /\
     hist st' = record (hist st) (canvasState st') /\
     (l_x newLayer + l_width newLayer / 2 == imageWidth cs / 2)%Q /\
     (l_y newLayer + l_height newLayer / 2 == imageHeight cs / 2)%Q /\
     (newId <> EmptyString -> ~ In newId (map l_id (textLayers cs)) ->
      selectedLayer (canvasState st') = Some newLayer)).
Proof.
  intros st newId cs st'.
  split; [reflexivity|]. split.
  - intros Himg. unfold st', handleAddTextLayer. fold cs. rewrite Himg.
    split; reflexivity.
  - intros Himg newLayer.
    assert (Hl : textLayers (canvasState st')
                 = normalizeZIndexes (textLayers cs) ++ [newLayer]).
    { unfold st', handleAddTextLayer. fold cs. rewrite Himg.
      cbn [negb setActiveTab commit commitFrom canvasState textLayers].
      rewrite normalizeZIndexes_snoc; reflexivity. }
    split; [exact Hl|].
    unfold st', handleAddTextLayer in *. fold cs in Hl |- *. rewrite Himg in Hl |- *.
    cbn [negb setActiveTab commit commitFrom canvasState textLayers hist
         selectedLayerId image imageWidth imageHeight] in Hl |- *.
    split; [reflexivity|]. split; [reflexivity|]. split; [reflexivity|].
    split; [reflexivity|]. split; [reflexivity|].
    split; [cbn; field|]. split; [cbn; field|].
    intros Hne Hfresh. unfold selectedLayer.
    cbn [selectedLayerId textLayers].
    change (l_id (with_zIndex (createDefaultTextLayer newId
                                 (imageWidth cs / 2 - 100) (imageHeight cs / 2 - 25))
                    (getNextZIndex (textLayers cs)))) with newId.
    replace (JS.truthy (Some newId)) with true.
    + rewrite Hl. apply find_snoc_fresh; [|reflexivity].
      intros H. apply Hfresh.
      apply (Permutation_in _ (ids_normalizeZIndexes (textLayers cs))), H.
    + symmetry. cbn [JS.truthy]. apply negb_true_iff, String.eqb_neq, Hne.
Qed.

Lemma add_text_layer_puts_centred_layer_on_top_witness :
  let st := handleImageUpload "data" 400 300 initialApp in
  textLayers (canvasState (handleAddTextLayer "n" st))
    = [createDefaultTextLayer "n" (400 / 2 - 100) (300 / 2 - 25)] /\
  canvasState (handleAddTextLayer "n" initialApp) = canvasState initialApp.
Proof.
  intros st. split.
  - exact (proj1 (proj2 (proj2 (add_text_layer_puts_centred_layer_on_top st "n"))
                   eq_refl)).
  - exact (proj1 (proj1 (proj2 (add_text_layer_puts_centred_layer_on_top
                                  initialApp "n")) eq_refl)).
Defined.

Lemma pick_idempotent {A} (u : option A) (v : A) : pick u (pick u v) = pick u v.
Proof. destruct u; reflexivity. Qed.

Lemma spread_idempotent layer updates :
  spread (spread layer updates) updates = spread layer updates.
Proof.
  unfold spread.
  cbn [l_id l_text l_x l_y l_width l_height l_rotation l_fontSize l_fontFamily
       l_fontWeight l_color l_opacity l_textAlign l_isSelected l_zIndex
       l_isVisible l_scale l_shadowColor l_shadowBlur l_shadowOffsetX
       l_shadowOffsetY l_backgroundColor l_borderWidth l_borderColor].
  rewrite !pick_idempotent. reflexivity.
Qed.

Lemma spread_noUpdates layer : spread layer noUpdates = layer.
Proof. destruct layer; reflexivity. Qed.

(** X12.  Updating the selected layer never adds, removes or reorders
    layers and leaves every layer with another id as it is.  With an update
    that keeps the id, applying it a second time changes nothing further.
    An update with no keys leaves the document as it is but is still recorded
    as a history step. *)
Theorem update_layer_is_idempotent_and_local :
  forall (st : AppState) (updates : PartialTextLayer) (sel : string),
    let cs := canvasState st in
    selectedLayerId cs = Some sel -> sel <> EmptyString ->
    let st' := handleUpdateLayer updates st in
    List.length (textLayers (canvasState st')) = List.length (textLayers cs) /\
    (forall i layer,
        nth_error (textLayers cs) i = Some layer -> l_id layer <> sel ->
        nth_error (textLayers (canvasState st')) i = Some layer) /\
    (forall i layer,
        nth_error (textLayers cs) i = Some layer -> l_id layer = sel ->
        nth_error (textLayers (canvasState st')) i = Some (spread layer updates)) /\
    (p_id updates = None ->
     map l_id (textLayers (canvasState st')) = map l_id (textLayers cs) /\
     canvasState (handleUpdateLayer updates st') = canvasState st') /\
    canvasState (handleUpdateLayer noUpdates st) = cs /\
    hist (handleUpdateLayer noUpdates st) = record (hist st) cs.
Proof.
  intros st updates sel cs Hsel Hne st'.
  destruct (handleUpdateLayerFrom_layers (historyIndex (hist st)) updates st Hsel Hne)
    as [Hcs _].
  fold (handleUpdateLayer updates st) in Hcs. fold st' cs in Hcs.
  assert (Hl : textLayers (canvasState st')
               = map (fun layer =>
                        if String.eqb (l_id layer) sel then spread layer updates
                        else layer) (textLayers cs))
    by (rewrite Hcs; reflexivity).
  split; [rewrite Hl; apply length_map|].
  split.
  { intros i layer Hn Hid. rewrite Hl, nth_error_map, Hn. cbn [option_map].
    apply String.eqb_neq in Hid. rewrite Hid. reflexivity. }
  split.
  { intros i layer Hn Hid. rewrite Hl, nth_error_map, Hn. cbn [option_map].
    apply String.eqb_eq in Hid. rewrite Hid. reflexivity. }
  split.
  { intros Hpid.
    assert (Hkeep : forall layer, l_id (spread layer updates) = l_id layer)
      by (intros layer; cbn [spread l_id]; rewrite Hpid; reflexivity).
    split.
    - rewrite Hl, map_map. apply map_ext. intros layer.
      destruct (String.eqb (l_id layer) sel); [apply Hkeep|reflexivity].
    - assert (Hsel' : selectedLayerId (canvasState st') = Some sel)
        by (rewrite Hcs; exact Hsel).
      destruct (handleUpdateLayerFrom_layers (historyIndex (hist st')) updates st'
                  Hsel' Hne) as [Hcs' _].
      fold (handleUpdateLayer updates st') in Hcs'. rewrite Hcs'.
      assert (Hm : map (fun layer =>
                          if String.eqb (l_id layer) sel then spread layer updates
                          else layer) (textLayers (canvasState st'))
                   = textLayers (canvasState st')).
      { rewrite Hl, map_map. apply map_ext. intros layer.
        destruct (String.eqb (l_id layer) sel) eqn:E.
        + rewrite Hkeep, E. apply spread_idempotent.
        + rewrite E. reflexivity. }
      rewrite Hm. destruct (canvasState st'); reflexivity. }
  destruct (handleUpdateLayerFrom_layers (historyIndex (hist st)) noUpdates st
              Hsel Hne) as [Hcs0 Hh0].
  fold (handleUpdateLayer noUpdates st) in Hcs0, Hh0. fold cs in Hcs0.
  assert (E0 : canvasState (handleUpdateLayer noUpdates st) = cs).
  { rewrite Hcs0. destruct cs as [im w h ls s]. cbn. f_equal.
    rewrite <- (map_id ls) at 2. apply map_ext. intros layer.
    destruct (String.eqb (l_id layer) sel); [apply spread_noUpdates|reflexivity]. }
  split; [exact E0|]. rewrite Hh0, E0. reflexivity.
Qed.

Lemma update_layer_is_idempotent_and_local_witness :
  let updates := upd_text "Hello" in
  canvasState (handleUpdateLayer updates (handleUpdateLayer updates Sample.app))
    = canvasState (handleUpdateLayer updates Sample.app) /\
  map l_text (textLayers (canvasState (handleUpdateLayer updates Sample.app)))
    = ["Hello"%string].
Proof.
  intros updates. split; [|reflexivity].
  refine (proj2 (proj1 (proj2 (proj2 (proj2
            (@update_layer_is_idempotent_and_local Sample.app updates "i" _ _))))
            _)).
  - reflexivity.
  - discriminate.
  - reflexivity.
Defined.

(** ** Image sizing *)

Lemma Math_min2_spec a b :
  (Math_min2 a b <= a /\ Math_min2 a b <= b /\
   (Math_min2 a b = a \/ Math_min2 a b = b))%Q.
Proof.
  unfold Math_min2. destruct (Qle_bool a b) eqn:E.
  - apply Qle_bool_iff in E. repeat split; [apply Qle_refl|exact E|left; reflexivity].
  - assert (H : ~ (a <= b)%Q) by (rewrite <- Qle_bool_iff, E; discriminate).
    apply Qnot_le_lt in H.
    repeat split; [apply Qlt_le_weak, H|apply Qle_refl|right; reflexivity].
Qed.

Lemma Math_max2_spec a b :
  (a <= Math_max2 a b /\ b <= Math_max2 a b /\
   (Math_max2 a b = a \/ Math_max2 a b = b))%Q.
Proof.
  unfold Math_max2. destruct (Qle_bool a b) eqn:E.
  - apply Qle_bool_iff in E. repeat split; [exact E|apply Qle_refl|right; reflexivity].
  - assert (H : ~ (a <= b)%Q) by (rewrite <- Qle_bool_iff, E; discriminate).
    apply Qnot_le_lt in H.
    repeat split; [apply Qle_refl|apply Qlt_le_weak, H|left; reflexivity].
Qed.

(** X14.  The upload panel rejects a file whose type does not start with
    [image/] and a file of more than 10 MB, each with its message, and then
    changes nothing.  An image it accepts replaces the document by one
    without layers, with a history of its own.  An image within 1200 by 800
    keeps its size exactly; a larger one is scaled by the smaller of
    [1200 / width] and [800 / height], and no image is ever enlarged. *)
Theorem upload_rejects_or_scales_down :
  forall (file : File) (readOk : bool) (decoded : option (Q * Q)) (ctx : bool)
         (dataUrl : string) (st : AppState),
    let outcome := processImage file readOk decoded ctx dataUrl in
    let st' := uploadFile file readOk decoded ctx dataUrl st in
    (String.prefix "image/" (file_type file) = false ->
     outcome = UploadError "Please upload an image file" /\ st' = st) /\
    (String.prefix "image/" (file_type file) = true ->
     10 * 1024 * 1024 < file_size file ->
     outcome = UploadError "Image size should be less than 10MB" /\ st' = st) /\
    (forall data width height,
        outcome = Uploaded data width height ->
        String.prefix "image/" (file_type file) = true /\
        file_size file <= 10485760 /\
        readOk = true /\ ctx = true /\ data = dataUrl /\
        canvasState st'
          = mkCanvasState (Some dataUrl) width height [] None /\
        hist st' = mkHistory [canvasState st'] 0 /\
        exists imgWidth imgHeight,
          decoded = Some (imgWidth, imgHeight) /\
          ((imgWidth <= 1200)%Q -> (imgHeight <= 800)%Q ->
           width = imgWidth /\ height = imgHeight) /\
          (~ ((imgWidth <= 1200)%Q /\ (imgHeight <= 800)%Q) ->
           let ratio := Math_min2 (1200 / imgWidth) (800 / imgHeight) in
           width = (imgWidth * ratio)%Q /\ height = (imgHeight * ratio)%Q) /\
          ((0 < imgWidth)%Q -> (0 < imgHeight)%Q ->
           (width <= imgWidth)%Q /\ (height <= imgHeight)%Q)).
Proof.
  intros file readOk decoded ctx dataUrl st outcome st'.
  unfold st', uploadFile. fold outcome. unfold outcome, processImage.
  split; [intros ->; split; reflexivity|].
  split.
  { intros -> Hsize. apply Z.gtb_lt in Hsize. cbn [negb]. rewrite Hsize.
    split; reflexivity. }
  intros data width height.
  destruct (String.prefix "image/" (file_type file)); cbn [negb]; [|discriminate].
  destruct (file_size file >? 10 * 1024 * 1024) eqn:Esize; [discriminate|].
  rewrite Z.gtb_ltb in Esize. apply Z.ltb_ge in Esize.
  destruct readOk; cbn [negb]; [|discriminate].
  destruct decoded as [[imgWidth imgHeight]|]; [|discriminate].
  destruct ctx; [|discriminate].
  destruct (JS.ltb 1200 imgWidth || JS.ltb 800 imgHeight) eqn:Ebig;
    intros E; injection E as <- <- <-;
    (split; [reflexivity|]); (split; [lia|]);
    (split; [reflexivity|]); (split; [reflexivity|]); (split; [reflexivity|]);
    (split; [reflexivity|]); (split; [reflexivity|]);
    exists imgWidth, imgHeight; (split; [reflexivity|]).
  - assert (Hbig : ~ ((imgWidth <= 1200)%Q /\ (imgHeight <= 800)%Q)).
    { intros [Lw Lh].
      apply orb_true_iff in Ebig. destruct Ebig as [B|B]; apply ltb_lt in B.
      - apply (Qlt_irrefl 1200), (Qlt_le_trans _ _ _ B Lw).
      - apply (Qlt_irrefl 800), (Qlt_le_trans _ _ _ B Lh). }
    split; [intros Lw Lh; exfalso; apply Hbig; split; assumption|].
    split; [intros _; cbv zeta; split; reflexivity|].
    intros Hw Hh.
    set (ratio := Math_min2 (1200 / imgWidth) (800 / imgHeight)) in *.
    assert (Hr : (ratio <= 1)%Q).
    { destruct (Math_min2_spec (1200 / imgWidth) (800 / imgHeight)) as [R1 [R2 _]].
      fold ratio in R1, R2.
      apply orb_true_iff in Ebig. destruct Ebig as [B|B]; apply ltb_lt in B.
      - apply (Qle_trans _ _ _ R1). apply Qle_shift_div_r; [exact Hw|].
        rewrite Qmult_1_l. apply Qlt_le_weak, B.
      - apply (Qle_trans _ _ _ R2). apply Qle_shift_div_r; [exact Hh|].
        rewrite Qmult_1_l. apply Qlt_le_weak, B. }
    split.
    + apply (Qle_trans _ (imgWidth * 1)).
      * apply (proj2 (Qmult_le_l _ _ _ Hw)), Hr.
      * rewrite Qmult_1_r. apply Qle_refl.
    + apply (Qle_trans _ (imgHeight * 1)).
      * apply (proj2 (Qmult_le_l _ _ _ Hh)), Hr.
      * rewrite Qmult_1_r. apply Qle_refl.
  - apply orb_false_iff in Ebig. destruct Ebig as [B1 B2].
    apply ltb_false in B1, B2. apply Qnot_lt_le in B1, B2.
    split; [intros _ _; split; reflexivity|].
    split; [intros H; exfalso; apply H; split; assumption|].
    intros _ _. split; apply Qle_refl.
Qed.

Lemma upload_rejects_or_scales_down_witness :
  let file := mkFile "image/png" 2048 in
  processImage file true (Some (2400, 1000)%Q) true "data"
    = Uploaded "data" (2400 * (1200 / 2400)) (1000 * (1200 / 2400)) /\
  String.prefix "image/" (file_type file) = true /\
  processImage file true (Some (640, 480)%Q) true "data" = Uploaded "data" 640 480 /\
  processImage (mkFile "text/plain" 10) true None true "data"
    = UploadError "Please upload an image file".
Proof.
  intros file.
  split; [reflexivity|].
  split.
  - exact (proj1 (proj2 (proj2 (upload_rejects_or_scales_down file true
             (Some (2400, 1000)%Q) true "data" initialApp)) _ _ _ eq_refl)).
  - split; [reflexivity|].
    exact (proj1 (proj1 (upload_rejects_or_scales_down
             (mkFile "text/plain" 10) true None true "data" initialApp) eq_refl)).
Defined.

(** ** Moving a layer on the canvas *)

Lemma snapToGrid_shift (v c d : Q) (k : Z) :
  (v == inject_Z k * 20)%Q -> (c == v + d)%Q ->
  (snapToGrid c 20 == v + snapToGrid d 20)%Q.
Proof.
  intros Hv Hc. unfold snapToGrid, JS.Math_round.
  pose proof (Qfloor_le (d / 20 + (1 # 2))) as Hlo.
  pose proof (Qlt_floor (d / 20 + (1 # 2))) as Hhi.
  rewrite inject_Z_plus in Hhi. change (inject_Z 1) with 1%Q in Hhi.
  assert (E : (c / 20 + (1 # 2) == inject_Z k + (d / 20 + (1 # 2)))%Q)
    by (rewrite Hc, Hv; field).
  rewrite (@Qfloor_unique _ (k + Qfloor (d / 20 + (1 # 2)))).
  - rewrite inject_Z_plus, Hv. ring.
  - rewrite E, inject_Z_plus. lra.
  - rewrite E, !inject_Z_plus. change (inject_Z 1) with 1%Q. lra.
Qed.

Lemma snapAxis_to (showGrid : bool) (v c t : Q) :
  ((if showGrid then snapToGrid v 20 else v) == t)%Q -> off_center t c ->
  (snapAxis showGrid v c == t)%Q.
Proof.
  intros H Hfar. unfold snapAxis.
  set (w := if showGrid then snapToGrid v 20 else v) in *.
  assert (E : JS.ltb (Qabs (w - c)) 50 = false).
  { rewrite (@ltb_comp _ (Qabs (t - c))) by (rewrite H; reflexivity).
    apply ltb_false, Hfar. }
  rewrite E. exact H.
Qed.

Lemma arrowStep_snaps (showGrid shiftKey : bool) (d : NudgeDirection) (v : Q) :
  (showGrid = true -> on_grid v) ->
  let amount := if shiftKey then 50%Q else 10%Q in
  let candidate :=
    match d with
    | nudge_left | nudge_up => (v - amount)%Q
    | nudge_right | nudge_down => (v + amount)%Q
    end in
  ((if showGrid then snapToGrid candidate 20 else candidate)
   == v + arrowStep showGrid shiftKey d)%Q.
Proof.
  intros Hgrid amount candidate.
  destruct showGrid.
  - destruct (Hgrid eq_refl) as [k Hk].
    destruct d, shiftKey; unfold candidate, amount; cbn [arrowStep];
      match goal with
      | |- (snapToGrid (v - ?a) 20 == _)%Q =>
          rewrite (@snapToGrid_shift v (v - a) (- a) k Hk) by ring
      | |- (snapToGrid (v + ?a) 20 == _)%Q =>
          rewrite (@snapToGrid_shift v (v + a) a k Hk) by ring
      end;
      apply Qplus_comp; reflexivity.
  - destruct d, shiftKey; unfold candidate, amount; cbn [arrowStep]; ring.
Qed.

(** X15.  An arrow key moves the selected layer by 10, or by 50 with Shift.
    With the grid shown the result is rounded to the grid, halves going up:
    from a position on the grid, left and up do not move the layer at all
    (40 with Shift) while right and down move it by 20 (60 with Shift).  The
    other coordinate stays.  (All this away from the center snap.)  The key
    press is recorded as a history step even when the layer has not moved.
    While a text is edited, or when the key goes to an input field, the
    canvas ignores the key. *)
Theorem arrow_keys_step_unevenly_on_grid :
  forall (showGrid : bool) (e : KeyboardEvent) (loc : CanvasLocal) (st : AppState)
         (sel : string) (layer : TextLayer) (d : NudgeDirection),
    let cs := canvasState st in
    selectedId loc = Some sel -> sel <> EmptyString ->
    JS.find (fun l => String.eqb (l_id l) sel) (textLayers cs) = Some layer ->
    arrowDirection (e_key e) = Some d ->
    (showGrid = true -> on_grid (l_x layer) /\ on_grid (l_y layer)) ->
    let step := arrowStep showGrid (e_shiftKey e) d in
    let target :=
      match d with
      | nudge_left | nudge_right => (l_x layer + step, l_y layer)
      | nudge_up | nudge_down => (l_x layer, l_y layer + step)
      end%Q in
    off_center (fst target) (imageWidth cs / 2) ->
    off_center (snd target) (imageHeight cs / 2) ->
    (editingLayerId loc = None -> e_inField e = false ->
     let st' := canvasKeyDown showGrid e loc st in
     exists x y,
       (x == fst target)%Q /\ (y == snd target)%Q /\
       textLayers (canvasState st')
       = map (fun l =>
                if String.eqb (l_id l) sel then with_position l x y else l)
             (textLayers cs) /\
       hist st' = record (hist st) (canvasState st')) /\
    (JS.truthy (editingLayerId loc) = true \/ e_inField e = true ->
     canvasKeyDown showGrid e loc st = st).
Proof.
  intros showGrid e loc st sel layer d cs Hsel Hne Hfind Hdir Hgrid step target
    Hfx Hfy.
  split.
  - intros Hedit Hfield st'.
    assert (Hst' : st' = nudgeLayer showGrid sel d
                           (if e_shiftKey e then 50%Q else 10%Q) st).
    { unfold st', canvasKeyDown. rewrite Hedit, Hfield, Hsel, Hdir.
      cbn [JS.truthy].
      replace (String.eqb sel EmptyString) with false
        by (symmetry; apply String.eqb_neq, Hne).
      reflexivity. }
    pose proof (@nudgeLayer_layers showGrid sel d
                  (if e_shiftKey e then 50%Q else 10%Q) st layer Hfind) as Hl.
    cbv zeta in Hl. rewrite <- Hst' in Hl. rewrite snapPosition_axes in Hl.
    cbn [fst snd] in Hl.
    eexists. eexists. split; [|split; [|split; [exact Hl|]]].
    + apply snapAxis_to; [|exact Hfx].
      assert (Hgx : showGrid = true -> on_grid (l_x layer))
        by (intros H; apply Hgrid, H).
      pose proof (arrowStep_snaps (e_shiftKey e) d Hgx) as Hs.
      assert (Hg0 : showGrid = true -> (snapToGrid (l_x layer) 20 == l_x layer)%Q)
        by (intros H; apply snapToGrid_aligned, Hgx, H).
      unfold target, step. cbv zeta in Hs.
      destruct d; cbn [fst snd]; try exact Hs;
        (destruct showGrid; [apply Hg0; reflexivity|reflexivity]).
    + apply snapAxis_to; [|exact Hfy].
      assert (Hgy : showGrid = true -> on_grid (l_y layer))
        by (intros H; apply Hgrid, H).
      pose proof (arrowStep_snaps (e_shiftKey e) d Hgy) as Hs.
      assert (Hg0 : showGrid = true -> (snapToGrid (l_y layer) 20 == l_y layer)%Q)
        by (intros H; apply snapToGrid_aligned, Hgy, H).
      unfold target, step. cbv zeta in Hs.
      destruct d; cbn [fst snd]; try exact Hs;
        (destruct showGrid; [apply Hg0; reflexivity|reflexivity]).
    + rewrite Hst'. unfold nudgeLayer. fold cs. rewrite Hfind. reflexivity.
  - intros H. unfold canvasKeyDown.
    destruct (JS.truthy (editingLayerId loc)); [reflexivity|].
    destruct H as [H|H]; [discriminate|]. rewrite H. reflexivity.
Qed.

Lemma arrow_keys_step_unevenly_on_grid_witness :
  let layer := createDefaultTextLayer "i" 20 40 in
  let st := mkAppState (mkCanvasState (Some "data"%string) 400 300 [layer] (Some "i"%string))
              properties (mkHistory [] (-1)) in
  let loc := mkCanvasLocal (Some "i"%string) false (0, 0)%Q None EmptyString in
  let e := mkKeyboardEvent "ArrowLeft" false false false false in
  (exists x y,
      (x == 20 + 0)%Q /\ (y == 40)%Q /\
      textLayers (canvasState (canvasKeyDown true e loc st))
      = map (fun l => if String.eqb (l_id l) "i" then with_position l x y else l)
          [layer] /\
      hist (canvasKeyDown true e loc st)
      = record (hist st) (canvasState (canvasKeyDown true e loc st))) /\
  JS.len (history (hist (canvasKeyDown true e loc st))) = 1.
Proof.
  intros layer st loc e. split; [|reflexivity].
  refine (proj1 (@arrow_keys_step_unevenly_on_grid true e loc st "i" layer
                   nudge_left eq_refl _ eq_refl eq_refl _ _ _) eq_refl eq_refl).
  - discriminate.
  - intros _. split; [exists 1; reflexivity|exists 2; reflexivity].
  - unfold off_center. cbn. intros H. apply Qlt_not_le in H. apply H.
    vm_compute. discriminate.
  - unfold off_center. cbn. intros H. apply Qlt_not_le in H. apply H.
    vm_compute. discriminate.
Defined.

Lemma handleMouseMove_records showGrid pos loc st sel :
  selectedId loc = Some sel -> sel <> EmptyString ->
  isDragging loc = true -> editingLayerId loc = None ->
  hist (handleMouseMove showGrid pos loc st)
  = record (hist st) (canvasState (handleMouseMove showGrid pos loc st)).
Proof.
  intros Hsel Hne Hdrag Hedit. unfold handleMouseMove.
  rewrite Hsel, Hdrag, Hedit. cbn [JS.truthy negb orb].
  replace (String.eqb sel EmptyString) with false
    by (symmetry; apply String.eqb_neq, Hne).
  reflexivity.
Qed.



(** X17.  Every mouse move of a drag records a history step.  Starting with
    the cursor on the newest entry, the history after a drag holds the last
    20 of the entries before the drag followed by the documents of the mouse
    moves; so after a drag of 20 moves or more every entry of the history is
    a document of that drag, and no undo leads back to the document before
    it. *)
Theorem drag_records_every_mouse_move :
  forall (showGrid : bool) (moves : list (Q * Q)) (loc : CanvasLocal)
         (st : AppState) (sel : string),
    selectedId loc = Some sel -> sel <> EmptyString ->
    isDragging loc = true -> editingLayerId loc = None ->
    JS.len (history (hist st)) <= 20 ->
    historyIndex (hist st) = JS.len (history (hist st)) - 1 ->
    let st' := dragThrough showGrid moves loc st in
    let states := dragStates showGrid moves loc st in
    List.length states = List.length moves /\
    history (hist st') = lastn 20 (history (hist st) ++ states) /\
    historyIndex (hist st') = JS.len (history (hist st')) - 1 /\
    ((20 <= List.length moves)%nat ->
     history (hist st') = lastn 20 states /\
     forall k st1, undos k st' = Some st1 -> In (canvasState st1) states).
Proof.
  intros showGrid moves loc st sel Hsel Hne Hdrag Hedit Hlen Hcur st' states.
  assert (Hmain : List.length states = List.length moves /\
                  history (hist st') = lastn 20 (history (hist st) ++ states) /\
                  JS.len (history (hist st')) <= 20 /\
                  historyIndex (hist st') = JS.len (history (hist st')) - 1 /\
                  (moves <> [] ->
                   JS.index (history (hist st')) (historyIndex (hist st'))
                   = Some (canvasState st'))).
  { unfold st', states. clear st' states.
    revert st Hlen Hcur. induction moves as [|pos moves IH]; intros st Hlen Hcur.
    - cbn. split; [reflexivity|]. split; [|split; [|split]];
        [|assumption|assumption|congruence].
      rewrite app_nil_r. symmetry. apply lastn_short. unfold JS.len in Hlen. lia.
    - cbn [dragThrough fold_left dragStates].
      fold (dragThrough showGrid moves loc (handleMouseMove showGrid pos loc st)).
      pose proof (@handleMouseMove_records showGrid pos loc st sel Hsel Hne Hdrag
                    Hedit) as Hrec.
      set (st1 := handleMouseMove showGrid pos loc st) in *.
      destruct (record_newest (hist st) (canvasState st1) Hlen Hcur)
        as [Rh [Rl Rc]].
      assert (Hwf : history_wf (hist st)).
      { split; [exact Hlen|]. pose proof (len_nonneg (history (hist st))). lia. }
      pose proof (entry_at_cursor_record (canvasState st1) Hwf) as Re.
      rewrite <- Hrec in Rh, Rl, Rc, Re.
      destruct (IH st1 Rl Rc) as [IHn [IHh [IHl [IHc IHe]]]].
      split; [cbn [Datatypes.length]; rewrite IHn; reflexivity|].
      split; [|split; [assumption|split; [assumption|]]].
      + rewrite IHh, Rh, lastn_app_lastn, <- app_assoc. reflexivity.
      + intros _. destruct moves as [|pos2 moves]; [exact Re|].
        apply IHe. discriminate. }
  destruct Hmain as [Hn [Hh [Hl [Hc He]]]].
  split; [exact Hn|]. split; [exact Hh|]. split; [exact Hc|].
  intros Hmany.
  assert (Hlast : history (hist st') = lastn 20 states).
  { rewrite Hh. unfold lastn. rewrite length_app, skipn_app.
    rewrite (skipn_all2 (n := (List.length (history (hist st))
                                + List.length states - 20)%nat)) by lia.
    cbn [app]. f_equal. lia. }
  split; [exact Hlast|].
  assert (Hin : forall s, In s (history (hist st')) -> In s states).
  { intros s Hs. rewrite Hlast in Hs. unfold lastn in Hs.
    rewrite <- (firstn_skipn (List.length states - 20) states).
    apply in_or_app. right. exact Hs. }
  assert (Hshown : In (canvasState st') states).
  { apply Hin.
    assert (Hidx : JS.index (history (hist st')) (historyIndex (hist st'))
                   = Some (canvasState st')).
    { apply He. intros E. rewrite E in Hmany. cbn in Hmany. lia. }
    unfold JS.index in Hidx.
    destruct (historyIndex (hist st') <? 0); [discriminate|].
    apply nth_error_In in Hidx. exact Hidx. }
  intros k. revert Hshown Hin. generalize st'. clear.
  induction k as [|k IH]; intros st' Hshown Hin st1 Hu.
  - injection Hu as <-. exact Hshown.
  - cbn [undos] in Hu. destruct (undo st') as [st2|] eqn:E; [|discriminate].
    apply (IH st2); [| |exact Hu].
    + unfold undo in E. destruct (historyIndex (hist st') >? 0).
      * destruct (JS.index (history (hist st')) (historyIndex (hist st') - 1))
          as [s|] eqn:Es; [|discriminate].
        injection E as <-. cbn [canvasState]. apply Hin.
        unfold JS.index in Es.
        destruct (historyIndex (hist st') - 1 <? 0); [discriminate|].
        apply nth_error_In in Es. exact Es.
      * injection E as <-. exact Hshown.
    + unfold undo in E. destruct (historyIndex (hist st') >? 0).
      * destruct (JS.index (history (hist st')) (historyIndex (hist st') - 1));
          [|discriminate].
        injection E as <-. exact Hin.
      * injection E as <-. exact Hin.
Qed.

Lemma drag_records_every_mouse_move_witness :
  let loc := mkCanvasLocal (Some "i"%string) true (0, 0)%Q None EmptyString in
  let moves := [(30, 30); (31, 30)]%Q in
  history (hist (dragThrough false moves loc Sample.app))
    = lastn 20 (history (hist Sample.app) ++ dragStates false moves loc Sample.app) /\
  JS.len (history (hist (dragThrough false moves loc Sample.app))) = 3.
Proof.
  intros loc moves. split; [|reflexivity].
  refine (proj1 (proj2 (@drag_records_every_mouse_move false moves loc Sample.app
                          "i" eq_refl _ eq_refl eq_refl _ eq_refl))).
  - discriminate.
  - vm_compute. discriminate.
Defined.

(** ** Keyboard shortcuts *)

Lemma js_rem_360 (a : Q) :
  (js_rem a 360 == a - 360 * inject_Z (Math_trunc (a / 360)))%Q /\
  ((0 <= a)%Q -> (0 <= js_rem a 360)%Q /\ (js_rem a 360 < 360)%Q).
Proof.
  split; [reflexivity|]. intros Ha. unfold js_rem, Math_trunc.
  assert (Hd : (a / 360 == a * (1 # 360))%Q) by (unfold Qdiv; reflexivity).
  assert (Hq : (0 <= a / 360)%Q) by (rewrite Hd; lra).
  apply Qle_bool_iff in Hq. rewrite Hq.
  pose proof (Qfloor_le (a / 360)) as Hlo.
  pose proof (Qlt_floor (a / 360)) as Hhi.
  rewrite inject_Z_plus in Hhi. change (inject_Z 1) with 1%Q in Hhi.
  set (K := inject_Z (Qfloor (a / 360))) in *.
  rewrite Hd in Hlo, Hhi. split; lra.
Qed.

Lemma find_map_rotation sel r layers :
  JS.find (fun l => String.eqb (l_id l) sel)
    (map (fun l => if String.eqb (l_id l) sel then with_rotation l r else l) layers)
  = option_map (fun l => with_rotation l r)
      (JS.find (fun l => String.eqb (l_id l) sel) layers).
Proof.
  unfold JS.find. induction layers as [|a l IH]; [reflexivity|].
  cbn [map find]. destruct (String.eqb (l_id a) sel) eqn:E.
  - change (l_id (with_rotation a r)) with (l_id a). rewrite E. reflexivity.
  - rewrite E. exact IH.
Qed.

Lemma map_rotation_twice sel r1 r2 layers :
  map (fun l => if String.eqb (l_id l) sel then with_rotation l r2 else l)
    (map (fun l => if String.eqb (l_id l) sel then with_rotation l r1 else l) layers)
  = map (fun l => if String.eqb (l_id l) sel then with_rotation l r2 else l) layers.
Proof.
  rewrite map_map. apply map_ext. intros a.
  destruct (String.eqb (l_id a) sel) eqn:E.
  - change (l_id (with_rotation a r1)) with (l_id a). rewrite E. reflexivity.
  - rewrite E. reflexivity.
Qed.

Lemma rotation_key_layers showGrid e loc st sel layer :
  editingLayerId loc = None -> e_inField e = false ->
  selectedId loc = Some sel -> sel <> EmptyString ->
  e_key e = "r"%string \/ e_key e = "R"%string ->
  JS.find (fun l => String.eqb (l_id l) sel) (textLayers (canvasState st))
    = Some layer ->
  textLayers (canvasState (canvasKeyDown showGrid e loc st))
  = map (fun l =>
           if String.eqb (l_id l) sel
           then with_rotation l (newRotation (e_shiftKey e) (l_rotation layer))
           else l)
        (textLayers (canvasState st)).
Proof.
  intros Hedit Hfield Hsel Hne Hkey Hfind. unfold canvasKeyDown.
  rewrite Hedit, Hfield, Hsel. cbn [JS.truthy].
  replace (String.eqb sel EmptyString) with false
    by (symmetry; apply String.eqb_neq, Hne).
  cbn [negb]. rewrite Hfind.
  destruct Hkey as [-> | ->]; reflexivity.
Qed.

(** X18.  The R key turns the layer that is selected on the canvas by 15
    degrees, by 45 with Shift, and what is stored is the remainder by 360:
    after any number of presses the rotation differs from the sum by a
    multiple of 360, and a rotation that starts within [0, 360) stays there.
    So 24 presses of R, or 8 with Shift, bring such a layer back to the
    rotation it had.  Layers with another id are not touched. *)
Theorem rotation_key_turns_in_steps_within_full_turn :
  forall (showGrid : bool) (e : KeyboardEvent) (loc : CanvasLocal) (st : AppState)
         (sel : string) (layer : TextLayer) (k : nat),
    editingLayerId loc = None -> e_inField e = false ->
    selectedId loc = Some sel -> sel <> EmptyString ->
    e_key e = "r"%string \/ e_key e = "R"%string ->
    JS.find (fun l => String.eqb (l_id l) sel) (textLayers (canvasState st))
      = Some layer ->
    let amount := if e_shiftKey e then 45%Q else 15%Q in
    exists r (turns : Z),
      textLayers (canvasState (canvasKeyPresses (Datatypes.S k) showGrid e loc st))
      = map (fun l => if String.eqb (l_id l) sel then with_rotation l r else l)
          (textLayers (canvasState st)) /\
      (r == l_rotation layer + amount * inject_Z (Z.of_nat (Datatypes.S k))
            - 360 * inject_Z turns)%Q /\
      ((0 <= l_rotation layer)%Q -> (l_rotation layer < 360)%Q ->
       (0 <= r)%Q /\ (r < 360)%Q /\
       ((amount * inject_Z (Z.of_nat (Datatypes.S k)) == 360)%Q ->
        (r == l_rotation layer)%Q)).
Proof.
  intros showGrid e loc st sel layer k Hedit Hfield Hsel Hne Hkey Hfind amount.
  assert (Hmain : exists r (turns : Z),
    textLayers (canvasState (canvasKeyPresses (Datatypes.S k) showGrid e loc st))
    = map (fun l => if String.eqb (l_id l) sel then with_rotation l r else l)
        (textLayers (canvasState st)) /\
    (r == l_rotation layer + amount * inject_Z (Z.of_nat (Datatypes.S k))
          - 360 * inject_Z turns)%Q /\
    ((0 <= l_rotation layer)%Q -> (0 <= r)%Q /\ (r < 360)%Q)).
  { revert st layer Hfind. induction k as [|k IH]; intros st layer Hfind.
    - exists (newRotation (e_shiftKey e) (l_rotation layer)).
      exists (Math_trunc ((l_rotation layer + amount) / 360)).
      cbn [canvasKeyPresses].
      split; [apply rotation_key_layers; assumption|].
      destruct (js_rem_360 (l_rotation layer + amount)) as [Hr Hrange].
      fold amount in Hr, Hrange. unfold newRotation. fold amount.
      split.
      + rewrite Hr. change (inject_Z (Z.of_nat 1)) with 1%Q. ring.
      + intros H0. apply Hrange.
        assert (0 < amount)%Q by (unfold amount; destruct (e_shiftKey e); reflexivity).
        lra.
    - pose proof (@rotation_key_layers showGrid e loc st sel layer Hedit Hfield
                    Hsel Hne Hkey Hfind) as Hl1.
      set (r1 := newRotation (e_shiftKey e) (l_rotation layer)) in *.
      set (st1 := canvasKeyDown showGrid e loc st) in *.
      assert (Hfind1 : JS.find (fun l => String.eqb (l_id l) sel)
                         (textLayers (canvasState st1))
                       = Some (with_rotation layer r1))
        by (rewrite Hl1, find_map_rotation, Hfind; reflexivity).
      destruct (IH st1 (with_rotation layer r1) Hfind1) as [r [m [Hl [Hr Hrange]]]].
      change (l_rotation (with_rotation layer r1)) with r1 in Hr, Hrange.
      destruct (js_rem_360 (l_rotation layer + amount)) as [Hr1 Hrange1].
      exists r, (m + Math_trunc ((l_rotation layer + amount) / 360)).
      split; [|split].
      + change (canvasKeyPresses (Datatypes.S (Datatypes.S k)) showGrid e loc st)
          with (canvasKeyPresses (Datatypes.S k) showGrid e loc st1).
        rewrite Hl, Hl1. apply map_rotation_twice.
      + rewrite Hr. unfold r1, newRotation. fold amount. rewrite Hr1.
        rewrite inject_Z_plus.
        rewrite (Nat2Z.inj_succ (Datatypes.S k)). unfold Z.succ.
        rewrite (inject_Z_plus (Z.of_nat (Datatypes.S k)) 1).
        change (inject_Z 1) with 1%Q. ring.
      + intros H0. apply Hrange. apply Hrange1.
        assert (0 < amount)%Q by (unfold amount; destruct (e_shiftKey e); reflexivity).
        lra. }
  destruct Hmain as [r [m [Hl [Hr Hrange]]]].
  exists r, m. split; [exact Hl|]. split; [exact Hr|].
  intros H0 H360. destruct (Hrange H0) as [R0 R360].
  split; [exact R0|]. split; [exact R360|].
  intros Hfull. rewrite Hfull in Hr.
  assert (Hm : m = 1).
  { assert (H1 : (inject_Z 0 < inject_Z m)%Q)
      by (change (inject_Z 0) with 0%Q; lra).
    assert (H2 : (inject_Z m < inject_Z 2)%Q)
      by (change (inject_Z 2) with 2%Q; lra).
    rewrite <- Zlt_Qlt in H1, H2. lia. }
  rewrite Hm in Hr. change (inject_Z 1) with 1%Q in Hr. lra.
Qed.

Lemma rotation_key_turns_in_steps_within_full_turn_witness :
  let e := mkKeyboardEvent "r" false false false false in
  let loc := mkCanvasLocal (Some "i"%string) false (0, 0)%Q None EmptyString in
  exists r (turns : Z),
    textLayers (canvasState (canvasKeyPresses 24 false e loc Sample.app))
    = map (fun l => if String.eqb (l_id l) "i" then with_rotation l r else l)
        (textLayers (canvasState Sample.app)) /\
    (r == l_rotation Sample.layerA + 15 * inject_Z (Z.of_nat 24)
          - 360 * inject_Z turns)%Q /\
    ((0 <= l_rotation Sample.layerA)%Q -> (l_rotation Sample.layerA < 360)%Q ->
     (0 <= r)%Q /\ (r < 360)%Q /\
     ((15 * inject_Z (Z.of_nat 24) == 360)%Q -> (r == l_rotation Sample.layerA)%Q)).
Proof.
  intros e loc.
  refine (@rotation_key_turns_in_steps_within_full_turn false e loc Sample.app "i"
            Sample.layerA 23 eq_refl eq_refl eq_refl _ _ eq_refl).
  - discriminate.
  - left; reflexivity.
Defined.

Lemma redo_total st :
  app_ok st -> exists st1, redo st = Some st1 /\ app_ok st1.
Proof.
  intros Hok. unfold redo.
  destruct (historyIndex (hist st) <? JS.len (history (hist st)) - 1) eqn:E.
  - apply Z.ltb_lt in E.
    destruct (app_ok_cursor Hok) as [Hc _].
    destruct (@index_in_range _ (history (hist st)) (historyIndex (hist st) + 1))
      as [s Hs]; [lia|].
    assert (Hr : redo st
                 = Some (mkAppState s (activeTab st)
                           (mkHistory (history (hist st))
                              (historyIndex (hist st) + 1)))).
    { unfold redo. replace (historyIndex (hist st) <? JS.len (history (hist st)) - 1)
        with true by (symmetry; apply Z.ltb_lt, E).
      rewrite Hs. reflexivity. }
    rewrite Hs. eexists. split; [reflexivity|].
    apply (redo_ok Hok Hr).
  - exists st. split; [reflexivity|exact Hok].
Qed.

Lemma zoom_bounds zoom :
  (1 # 10 <= zoom)%Q -> (zoom <= 3)%Q ->
  ((1 # 10 <= zoomIn zoom)%Q /\ (zoomIn zoom <= 3)%Q) /\
  ((1 # 10 <= zoomOut zoom)%Q /\ (zoomOut zoom <= 3)%Q).
Proof.
  intros Hlo Hhi. unfold zoomIn, zoomOut.
  destruct (Math_min2_spec 3 (zoom + (1 # 10))) as [A1 [A2 A3]].
  destruct (Math_max2_spec (1 # 10) (zoom - (1 # 10))) as [B1 [B2 B3]].
  set (i := Math_min2 3 (zoom + (1 # 10))) in *.
  set (o := Math_max2 (1 # 10) (zoom - (1 # 10))) in *.
  assert (A : (i == 3 \/ i == zoom + (1 # 10))%Q)
    by (destruct A3 as [E|E]; rewrite E; [left|right]; reflexivity).
  assert (B : (o == 1 # 10 \/ o == zoom - (1 # 10))%Q)
    by (destruct B3 as [E|E]; rewrite E; [left|right]; reflexivity).
  clearbody i o. clear A3 B3.
  destruct A as [A|A], B as [B|B]; repeat split; lra.
Qed.

(** The listener of the page alone. *)
Lemma handleKeyDown_sound :
  forall (newId : string) (e : KeyboardEvent) (zoom : Q) (st : AppState),
    app_ok st -> (1 # 10 <= zoom)%Q -> (zoom <= 3)%Q ->
    exists st' zoom',
      handleKeyDown newId e zoom st = Some (st', zoom') /\
      app_ok st' /\ (1 # 10 <= zoom')%Q /\ (zoom' <= 3)%Q /\
      (st' = st \/ zoom' = zoom) /\
      (e_inField e = true -> st' = st /\ zoom' = zoom) /\
      (e_inField e = false ->
       e_key e = "Delete"%string \/ e_key e = "Backspace"%string ->
       forall sel,
         selectedLayerId (canvasState st) = Some sel -> sel <> EmptyString ->
         st' = handleDeleteLayer sel st /\
         selectedLayerId (canvasState st') = None /\
         ~ In sel (map l_id (textLayers (canvasState st')))) /\
      (e_inField e = false -> e_ctrlKey e = true -> e_key e = "d"%string ->
       selectedLayerId (canvasState st) = None -> st' = st) /\
      (zoomIn 3 == 3)%Q /\ (zoomOut (1 # 10) == 1 # 10)%Q.
Proof.
  intros newId e zoom st Hok Hlo Hhi.
  destruct (zoom_bounds Hlo Hhi) as [[I1 I2] [O1 O2]].
  assert (Hdel : forall sel, app_ok (handleDeleteLayer sel st))
    by (intros sel; apply commit_ok, Hok).
  unfold handleKeyDown.
  destruct (e_inField e) eqn:Hfield.
  { exists st, zoom. split; [reflexivity|].
    repeat (split; [first [assumption|reflexivity|left; reflexivity
                          |discriminate|intros; split; reflexivity]|]).
    split; reflexivity. }
  assert (Hsame : forall (P : Prop), (true = true -> P) -> P) by auto.
  destruct ((e_ctrlKey e || e_metaKey e) && String.eqb (e_key e) "z") eqn:Kz.
  { apply andb_true_iff in Kz. destruct Kz as [_ Kz]. apply String.eqb_eq in Kz.
    assert (Hur : exists st1, (if e_shiftKey e then redo st else undo st) = Some st1
                              /\ app_ok st1)
      by (destruct (e_shiftKey e); [apply redo_total|apply undo_ok]; exact Hok).
    destruct Hur as [st1 [E1 Hok1]]. rewrite E1. cbn [option_map].
    exists st1, zoom. split; [reflexivity|]. split; [exact Hok1|].
    split; [exact Hlo|]. split; [exact Hhi|]. split; [right; reflexivity|].
    split; [discriminate|].
    split; [intros _ [K|K]; rewrite Kz in K; discriminate|].
    split; [intros _ _ K; rewrite Kz in K; discriminate|].
    split; reflexivity. }
  destruct ((e_ctrlKey e || e_metaKey e) && String.eqb (e_key e) "y") eqn:Ky.
  { apply andb_true_iff in Ky. destruct Ky as [_ Ky]. apply String.eqb_eq in Ky.
    destruct (redo_total Hok) as [st1 [E1 Hok1]]. rewrite E1. cbn [option_map].
    exists st1, zoom. split; [reflexivity|]. split; [exact Hok1|].
    split; [exact Hlo|]. split; [exact Hhi|]. split; [right; reflexivity|].
    split; [discriminate|].
    split; [intros _ [K|K]; rewrite Ky in K; discriminate|].
    split; [intros _ _ K; rewrite Ky in K; discriminate|].
    split; reflexivity. }
  destruct ((e_ctrlKey e || e_metaKey e) && String.eqb (e_key e) "d") eqn:Kd.
  { apply andb_true_iff in Kd. destruct Kd as [_ Kd]. apply String.eqb_eq in Kd.
    eexists. exists zoom. split; [reflexivity|].
    split.
    { destruct (selectedLayerId (canvasState st)) as [sel|]; [|exact Hok].
      destruct (JS.truthy (Some sel)); [|exact Hok].
      unfold handleDuplicateLayer.
      destruct (JS.find _ _); [apply commit_ok, Hok|exact Hok]. }
    split; [exact Hlo|]. split; [exact Hhi|]. split; [right; reflexivity|].
    split; [discriminate|].
    split; [intros _ [K|K]; rewrite Kd in K; discriminate|].
    split; [intros _ _ _ Hnone; rewrite Hnone; reflexivity|].
    split; reflexivity. }
  eexists. eexists. split; [reflexivity|].
  set (deleting := String.eqb (e_key e) "Delete" || String.eqb (e_key e) "Backspace").
  assert (Hkeys : deleting = true ->
                  (String.eqb (e_key e) "+" || String.eqb (e_key e) "=") = false /\
                  String.eqb (e_key e) "-" = false /\
                  String.eqb (e_key e) "0" = false).
  { unfold deleting. intros H. apply orb_true_iff in H.
    destruct H as [H|H]; apply String.eqb_eq in H; rewrite H; repeat split. }
  split.
  { destruct (selectedLayerId (canvasState st)) as [sel|]; [|exact Hok].
    destruct (JS.truthy (Some sel) && deleting); [apply Hdel|exact Hok]. }
  split.
  { destruct (String.eqb (e_key e) "+" || String.eqb (e_key e) "="); [exact I1|].
    destruct (String.eqb (e_key e) "-"); [exact O1|].
    destruct (String.eqb (e_key e) "0"); [discriminate|exact Hlo]. }
  split.
  { destruct (String.eqb (e_key e) "+" || String.eqb (e_key e) "="); [exact I2|].
    destruct (String.eqb (e_key e) "-"); [exact O2|].
    destruct (String.eqb (e_key e) "0"); [discriminate|exact Hhi]. }
  split.
  { destruct deleting eqn:D.
    - right. destruct (Hkeys eq_refl) as [K1 [K2 K3]]. rewrite K1, K2, K3.
      reflexivity.
    - left. destruct (selectedLayerId (canvasState st)) as [sel|]; [|reflexivity].
      rewrite andb_false_r. reflexivity. }
  split; [discriminate|].
  split.
  { intros _ Hkey sel Hsel Hne. rewrite Hsel.
    assert (D : deleting = true).
    { unfold deleting. destruct Hkey as [K|K]; rewrite K; reflexivity. }
    rewrite D.
    replace (JS.truthy (Some sel)) with true
      by (symmetry; cbn [JS.truthy]; apply negb_true_iff, String.eqb_neq, Hne).
    cbn [andb]. split; [reflexivity|]. split.
    - cbn [handleDeleteLayer commit commitFrom canvasState selectedLayerId].
      rewrite Hsel. cbn [is_selected]. rewrite String.eqb_refl. reflexivity.
    - intros Hin. apply handleDeleteLayer_ids in Hin. destruct Hin as [_ Hin].
      apply Hin. reflexivity. }
  split.
  { intros _ _ _ Hnone. rewrite Hnone. reflexivity. }
  split; reflexivity.
Qed.


(** ** Export, continued *)

Lemma textsDrawn_app a b : textsDrawn (a ++ b) = textsDrawn a ++ textsDrawn b.
Proof.
  induction a as [|c a IH]; [reflexivity|].
  destruct c; cbn [app textsDrawn]; rewrite ?IH; reflexivity.
Qed.

Lemma drawLayer_texts s layer :
  textsDrawn (drawLayer s layer) = if drawn layer then [l_text layer] else [].
Proof.
  unfold drawLayer, drawn.
  destruct (JS.ltb 0 (l_opacity layer) && l_isVisible layer); [|reflexivity].
  destruct (negb (Qeq_bool (l_rotation layer) 0)); reflexivity.
Qed.

Lemma drawLayer_scoped s layer rest :
  scoped false (drawLayer s layer ++ rest) = scoped false rest.
Proof.
  unfold drawLayer.
  destruct (JS.ltb 0 (l_opacity layer) && l_isVisible layer); [|reflexivity].
  destruct (negb (Qeq_bool (l_rotation layer) 0)); reflexivity.
Qed.

Lemma layers_texts s layers :
  textsDrawn (flat_map (drawLayer s) layers) = map l_text (filter drawn layers).
Proof.
  induction layers as [|a l IH]; [reflexivity|].
  cbn [flat_map filter]. rewrite textsDrawn_app, drawLayer_texts, IH.
  destruct (drawn a); reflexivity.
Qed.

Lemma layers_scoped s layers rest :
  scoped false (flat_map (drawLayer s) layers ++ rest) = scoped false rest.
Proof.
  induction layers as [|a l IH]; [reflexivity|].
  cbn [flat_map]. rewrite <- app_assoc, drawLayer_scoped. exact IH.
Qed.

(** X20.  A resolved export writes the texts of exactly the layers that are
    visible and not fully transparent, each once, from the lowest z-index to
    the highest (layers of equal z-index in array order), so the topmost
    layer is painted last.  Each layer is drawn between a [save] and its
    [restore], which never nest: the alpha, font and rotation of one layer
    do not reach the next one, the image or the encoding.  Whatever layer a
    click on the canvas can find has its text in the export. *)
Theorem export_draws_only_drawn_layers_bottom_up :
  forall (options : ExportOptions) (st : AppState) (calls : list CanvasCall)
         (ctx imageLoads : bool),
    let cs := canvasState st in
    handleExport ctx imageLoads options st = Resolved calls ->
    textsDrawn calls = map l_text (filter drawn (JS.sort by_zIndex (textLayers cs))) /\
    Permutation (textsDrawn calls) (map l_text (filter drawn (textLayers cs))) /\
    scoped false calls = true /\
    (forall i j a b,
        nth_error (filter drawn (JS.sort by_zIndex (textLayers cs))) i = Some a ->
        nth_error (filter drawn (JS.sort by_zIndex (textLayers cs))) j = Some b ->
        (i < j)%nat -> l_zIndex a <= l_zIndex b) /\
    (forall measureText x y layer,
        findLayerAtPosition (Some measureText) cs x y = Some layer ->
        In (l_text layer) (textsDrawn calls)) /\
    ((forall layer, In layer (textLayers cs) -> drawn layer = false) ->
     textsDrawn calls = []).
Proof.
  intros options st calls ctx imageLoads cs Hexp.
  assert (Hsorted : StronglySorted (key_le l_zIndex)
                      (filter drawn (JS.sort by_zIndex (textLayers cs)))).
  { apply filter_sorted.
    apply (@sort_sorted _ by_zIndex l_zIndex by_zIndex_key). }
  assert (Hcalls : exists header encode,
             calls = header ++ flat_map (drawLayer (scale options))
                                 (JS.sort by_zIndex (textLayers cs))
                            ++ [encode] /\
             textsDrawn header = [] /\ textsDrawn [encode] = [] /\
             (forall rest, scoped false (header ++ rest) = scoped false rest) /\
             scoped false [encode] = true).
  { unfold handleExport in Hexp. fold cs in Hexp.
    destruct (image cs) as [src|]; [|discriminate].
    destruct (negb ctx || negb (JS.truthy (Some src))); [discriminate|].
    destruct imageLoads; [|discriminate].
    injection Hexp as <-. eexists [_; _; _; _]. eexists.
    split; [reflexivity|].
    repeat split; reflexivity. }
  destruct Hcalls as [header [encode [-> [Hh [He [Hsh Hse]]]]]].
  assert (Htexts : textsDrawn
                     (header ++ flat_map (drawLayer (scale options))
                                  (JS.sort by_zIndex (textLayers cs)) ++ [encode])
                   = map l_text (filter drawn (JS.sort by_zIndex (textLayers cs)))).
  { rewrite !textsDrawn_app, Hh, He, layers_texts, app_nil_r. reflexivity. }
  split; [exact Htexts|]. split; [|split; [|split; [|split]]].
  - rewrite Htexts. apply Permutation_map.
    assert (Hf : forall l l' : list TextLayer,
               Permutation l l' -> Permutation (filter drawn l) (filter drawn l')).
    { induction 1 as [|a l l' _ IH|a b l|l l' l'' _ IH1 _ IH2].
      - constructor.
      - cbn [filter]. destruct (drawn a); [apply perm_skip|]; exact IH.
      - cbn [filter]. destruct (drawn a), (drawn b);
          try apply Permutation_refl. apply perm_swap.
      - exact (Permutation_trans IH1 IH2). }
    apply Hf, sort_perm.
  - rewrite Hsh, layers_scoped. exact Hse.
  - intros i j a b Hi Hj Hij.
    apply (@sorted_nth_le _ l_zIndex _ i j a b Hsorted Hij Hi Hj).
  - intros measureText x y layer Hfind. rewrite Htexts.
    unfold findLayerAtPosition in Hfind.
    destruct (find_first _ _ Hfind) as [above [below [E [Hhit _]]]].
    apply in_map, filter_In. split.
    + apply (Permutation_in _ (Permutation_sym (sort_perm by_zIndex (textLayers cs)))).
      apply (Permutation_in _ (sort_perm by_zIndex_desc (textLayers cs))).
      fold cs in E. rewrite E. apply in_or_app. right. left. reflexivity.
    + unfold hits in Hhit. unfold drawn.
      destruct (JS.ltb 0 (l_opacity layer) && l_isVisible layer);
        [reflexivity|discriminate].
  - intros Hnone. rewrite Htexts.
    assert (Hf : filter drawn (JS.sort by_zIndex (textLayers cs)) = []).
    { destruct (filter drawn (JS.sort by_zIndex (textLayers cs))) as [|a l] eqn:E;
        [reflexivity|].
      assert (Ha : In a (filter drawn (JS.sort by_zIndex (textLayers cs))))
        by (rewrite E; left; reflexivity).
      apply filter_In in Ha. destruct Ha as [Ha Hd].
      apply (Permutation_in _ (sort_perm by_zIndex (textLayers cs))) in Ha.
      rewrite (Hnone a Ha) in Hd. discriminate. }
    rewrite Hf. reflexivity.
Qed.

Lemma export_draws_only_drawn_layers_bottom_up_witness :
  let options := mkExportOptions png 1 2 in
  textsDrawn (callsOf (handleExport true true options Sample.app))
    = ["Double click to edit"%string] /\
  scoped false (callsOf (handleExport true true options Sample.app)) = true.
Proof.
  intros options.
  destruct (@export_draws_only_drawn_layers_bottom_up options Sample.app
              (callsOf (handleExport true true options Sample.app)) true true
              eq_refl) as [H [_ [Hs _]]].
  split; [exact H|exact Hs].
Defined.


(** ** The history indicator *)

(** X22.  The progress shown by the history indicator is always between 0
    and 100 per cent, whatever the cursor: it never decreases with the
    cursor, is 0 on the oldest of several entries, 100 on the newest entry,
    and stays 100 when the cursor is past the newest entry.  For every state
    of the page the steps remaining out of 20 are not negative. *)
Theorem history_indicator_stays_within_bounds :
  forall (historyLength currentIndex : Z),
    let shown := historyPercentage historyLength currentIndex in
    (0 <= shown)%Q /\ (shown <= 100)%Q /\
    (1 <= historyLength -> historyLength - 1 <= currentIndex -> (shown == 100)%Q) /\
    (1 < historyLength -> currentIndex <= 0 -> (shown == 0)%Q) /\
    (forall later, currentIndex <= later ->
                   (shown <= historyPercentage historyLength later)%Q) /\
    (forall st : AppState,
        app_ok st ->
        0 <= stepsRemaining (JS.len (history (hist st))) MAX_HISTORY_STEPS /\
        (history (hist st) <> [] -> at_newest st ->
         (historyPercentage (JS.len (history (hist st))) (historyIndex (hist st))
          == 100)%Q)).
Proof.
  intros len idx shown.
  assert (Hclamp : forall v,
             (0 <= Math_min2 100 (Math_max2 0 v))%Q /\
             (Math_min2 100 (Math_max2 0 v) <= 100)%Q /\
             ((100 <= v)%Q -> (Math_min2 100 (Math_max2 0 v) == 100)%Q) /\
             ((v <= 0)%Q -> (Math_min2 100 (Math_max2 0 v) == 0)%Q) /\
             (forall w, (v <= w)%Q ->
                        (Math_min2 100 (Math_max2 0 v)
                         <= Math_min2 100 (Math_max2 0 w))%Q)).
  { intros v.
    assert (Hm : forall u,
               exists a b,
                 (Math_max2 0 u == a)%Q /\ (Math_min2 100 (Math_max2 0 u) == b)%Q /\
                 (0 <= a)%Q /\ (u <= a)%Q /\ (a == 0 \/ a == u)%Q /\
                 (b <= 100)%Q /\ (b <= a)%Q /\ (b == 100 \/ b == a)%Q).
    { intros u.
      destruct (Math_max2_spec 0 u) as [A1 [A2 A3]].
      destruct (Math_min2_spec 100 (Math_max2 0 u)) as [B1 [B2 B3]].
      exists (Math_max2 0 u), (Math_min2 100 (Math_max2 0 u)).
      repeat split; try assumption; try reflexivity.
      - destruct A3 as [E|E]; rewrite E; [left|right]; reflexivity.
      - destruct B3 as [E|E]; rewrite E; [left|right]; reflexivity. }
    destruct (Hm v) as [a [b [Ea [Eb [A1 [A2 [A3 [B1 [B2 B3]]]]]]]]].
    rewrite Eb.
    split; [destruct A3, B3; lra|]. split; [exact B1|].
    split; [intros H; destruct A3, B3; lra|].
    split; [intros H; destruct A3, B3; lra|].
    intros w Hw.
    destruct (Hm w) as [a' [b' [Ea' [Eb' [A1' [A2' [A3' [B1' [B2' B3']]]]]]]]].
    rewrite Eb'. destruct A3, B3, A3', B3'; lra. }
  assert (Hratio : forall i, 1 < len ->
             (inject_Z i / inject_Z (len - 1) * 100
              == inject_Z i * (100 / inject_Z (len - 1)))%Q /\
             (0 < 100 / inject_Z (len - 1))%Q /\
             (inject_Z (len - 1) * (100 / inject_Z (len - 1)) == 100)%Q).
  { intros i Hlen.
    assert (Hpos : (0 < inject_Z (len - 1))%Q)
      by (change 0%Q with (inject_Z 0); rewrite <- Zlt_Qlt; lia).
    assert (Hnz : ~ (inject_Z (len - 1) == 0)%Q) by lra.
    split; [field; exact Hnz|]. split; [|field; exact Hnz].
    apply Qlt_shift_div_l; [exact Hpos|]. lra. }
  assert (Hmul : forall (a b c : Q), (0 < c)%Q -> (a <= b)%Q -> (a * c <= b * c)%Q)
    by (intros a b c Hc Hab; apply Qmult_le_compat_r; [exact Hab|lra]).
  assert (Hshown : forall i,
             (0 <= historyPercentage len i)%Q /\ (historyPercentage len i <= 100)%Q).
  { intros i. unfold historyPercentage.
    destruct (len >? 1); [split; apply Hclamp|].
    destruct (len =? 1); split; lra. }
  assert (Hnewest : 1 <= len -> len - 1 <= idx -> (shown == 100)%Q).
  { intros H1 Hi. unfold shown, historyPercentage.
    destruct (len >? 1) eqn:E.
    - apply Z.gtb_lt in E. destruct (Hratio idx E) as [R1 [R2 R3]].
      apply Hclamp. rewrite R1.
      apply (Qle_trans _ (inject_Z (len - 1) * (100 / inject_Z (len - 1)))).
      + rewrite R3. apply Qle_refl.
      + apply Hmul; [exact R2|]. rewrite <- Zle_Qle. exact Hi.
    - rewrite Z.gtb_ltb in E. apply Z.ltb_ge in E.
      replace (len =? 1) with true by (symmetry; apply Z.eqb_eq; lia).
      reflexivity. }
  split; [apply Hshown|]. split; [apply Hshown|].
  split; [exact Hnewest|]. split; [|split].
  - intros H1 Hi. unfold shown, historyPercentage.
    replace (len >? 1) with true by (symmetry; apply Z.gtb_lt; lia).
    destruct (Hratio idx H1) as [R1 [R2 R3]].
    apply Hclamp. rewrite R1.
    assert (Hq : (inject_Z idx <= 0)%Q)
      by (change 0%Q with (inject_Z 0); rewrite <- Zle_Qle; exact Hi).
    pose proof (Hmul _ _ _ R2 Hq) as H. lra.
  - intros later Hl. unfold shown, historyPercentage.
    destruct (len >? 1) eqn:E; [|apply Qle_refl].
    apply Z.gtb_lt in E.
    destruct (Hratio idx E) as [R1 [R2 _]]. destruct (Hratio later E) as [R1' _].
    apply Hclamp. rewrite R1, R1'. apply Hmul; [exact R2|].
    rewrite <- Zle_Qle. exact Hl.
  - intros st Hok. destruct (app_ok_cursor Hok) as [_ Hlen].
    split; [unfold stepsRemaining; lia|].
    intros Hne Hat. unfold at_newest in Hat.
    assert (Hpos : 1 <= JS.len (history (hist st))).
    { destruct (history (hist st)); [congruence|].
      unfold JS.len. cbn [Datatypes.length]. lia. }
    clear Hnewest Hshown Hratio shown.
    unfold historyPercentage.
    destruct (JS.len (history (hist st)) >? 1) eqn:E.
    + apply Z.gtb_lt in E.
      assert (Hp : (0 < inject_Z (JS.len (history (hist st)) - 1))%Q)
        by (change 0%Q with (inject_Z 0); rewrite <- Zlt_Qlt; lia).
      apply Hclamp.
      apply (Qle_trans _ (inject_Z (JS.len (history (hist st)) - 1)
                          / inject_Z (JS.len (history (hist st)) - 1) * 100)).
      * assert (E1 : (inject_Z (JS.len (history (hist st)) - 1)
                      / inject_Z (JS.len (history (hist st)) - 1) * 100 == 100)%Q)
          by (field; lra).
        rewrite E1. apply Qle_refl.
      * apply Hmul; [reflexivity|].
        apply Hmul; [apply Qinv_lt_0_compat, Hp|].
        rewrite <- Zle_Qle. exact Hat.
    + rewrite Z.gtb_ltb in E. apply Z.ltb_ge in E.
      replace (JS.len (history (hist st)) =? 1) with true
        by (symmetry; apply Z.eqb_eq; lia).
      reflexivity.
Qed.

(** ** Editing a text on the canvas *)

Lemma unique_by_id layers sel layer l :
  NoDup (map l_id layers) ->
  JS.find (fun x => String.eqb (l_id x) sel) layers = Some layer ->
  In l layers -> l_id l = sel -> l = layer.
Proof.
  unfold JS.find. induction layers as [|a ls IH]; intros Hnd Hfind Hin Hid;
    [destruct Hin|].
  cbn [map] in Hnd. inversion Hnd as [|? ? Hnotin Hnd']; subst.
  cbn [find] in Hfind. destruct (String.eqb (l_id a) (l_id l)) eqn:E.
  - injection Hfind as <-. destruct Hin as [Hin|Hin]; [symmetry; exact Hin|].
    exfalso. apply Hnotin. apply String.eqb_eq in E. rewrite E.
    apply in_map, Hin.
  - destruct Hin as [Hin|Hin].
    + subst a. rewrite String.eqb_refl in E. discriminate.
    + apply IH; try assumption. reflexivity.
Qed.



(** ** Preview and export *)

Lemma sharedCalls_app a b : sharedCalls (a ++ b) = sharedCalls a ++ sharedCalls b.
Proof.
  induction a as [|c a IH]; [reflexivity|].
  destruct c; cbn [app sharedCalls]; rewrite ?IH; reflexivity.
Qed.

Lemma selectionBorder_shared textWidth textHeight textX textY dashOffset layer :
  sharedCalls (selectionBorder textWidth textHeight textX textY dashOffset layer) = [].
Proof.
  unfold selectionBorder.
  destruct (negb (Qeq_bool (l_rotation layer) 0)); [reflexivity|].
  destruct (l_textAlign layer); reflexivity.
Qed.

Lemma drawPreviewLayer_shared measureText zoom dashOffset selected layer :
  sharedCalls (drawPreviewLayer measureText zoom dashOffset selected layer)
  = withoutBaseline (drawLayer zoom layer).
Proof.
  unfold drawPreviewLayer, drawLayer.
  destruct (JS.ltb 0 (l_opacity layer) && l_isVisible layer); [|reflexivity].
  rewrite !sharedCalls_app.
  destruct (is_selected selected (l_id layer));
    rewrite ?selectionBorder_shared;
    destruct (negb (Qeq_bool (l_rotation layer) 0)); reflexivity.
Qed.

Lemma previewLayers_shared measureText zoom dashOffset selected layers :
  sharedCalls (flat_map (drawPreviewLayer measureText zoom dashOffset selected) layers)
  = withoutBaseline (flat_map (drawLayer zoom) layers).
Proof.
  induction layers as [|a l IH]; [reflexivity|].
  cbn [flat_map]. rewrite sharedCalls_app, drawPreviewLayer_shared, IH.
  unfold withoutBaseline. rewrite filter_app. reflexivity.
Qed.

Lemma withoutBaseline_texts calls :
  textsDrawn (withoutBaseline calls) = textsDrawn calls.
Proof.
  induction calls as [|c l IH]; [reflexivity|].
  destruct c; cbn [withoutBaseline filter textsDrawn];
    fold (withoutBaseline l); rewrite ?IH; reflexivity.
Qed.

Lemma gridLoop_ends (body : Q -> list PreviewCall) (limit gridSize : Q) :
  (0 < gridSize)%Q ->
  (forall v, sharedCalls (body v) = []) ->
  forall (fuel : nat) (v : Q),
    (limit - v < gridSize * inject_Z (Z.of_nat fuel))%Q ->
    exists calls,
      gridLoop (Datatypes.S fuel) v limit gridSize body = Some calls /\
      sharedCalls calls = [].
Proof.
  intros Hg Hbody. induction fuel as [|fuel IH]; intros v Hv.
  - cbn [gridLoop]. destruct (Qle_bool v limit) eqn:E.
    + apply Qle_bool_iff in E. change (inject_Z (Z.of_nat 0)) with 0%Q in Hv. lra.
    + exists []. split; reflexivity.
  - change (gridLoop (Datatypes.S (Datatypes.S fuel)) v limit gridSize body)
      with (if Qle_bool v limit
            then option_map (app (body v))
                   (gridLoop (Datatypes.S fuel) (v + gridSize)%Q limit gridSize body)
            else Some []).
    destruct (Qle_bool v limit); [|exists []; split; reflexivity].
    destruct (IH (v + gridSize)%Q) as [calls [E Hs]].
    + rewrite Nat2Z.inj_succ in Hv. unfold Z.succ in Hv.
      rewrite inject_Z_plus in Hv. change (inject_Z 1) with 1%Q in Hv.
      set (n := inject_Z (Z.of_nat fuel)) in *.
      assert (Hd : (gridSize * (n + 1) == gridSize * n + gridSize)%Q) by ring.
      rewrite Hd in Hv. lra.
    + rewrite E. exists (body v ++ calls). split; [reflexivity|].
      rewrite sharedCalls_app, Hbody, Hs. reflexivity.
Qed.

Lemma gridLoop_fuel (limit gridSize : Q) :
  (0 < gridSize)%Q ->
  exists enough : nat,
    forall fuel, (enough <= fuel)%nat ->
      (limit - 0 < gridSize * inject_Z (Z.of_nat fuel))%Q.
Proof.
  intros Hg. exists (Z.to_nat (Qfloor (limit / gridSize) + 1)). intros fuel Hfuel.
  pose proof (Qlt_floor (limit / gridSize)) as Hlt.
  assert (Hle : (inject_Z (Qfloor (limit / gridSize) + 1)
                 <= inject_Z (Z.of_nat fuel))%Q)
    by (rewrite <- Zle_Qle; lia).
  assert (Hq : (limit / gridSize < inject_Z (Z.of_nat fuel))%Q)
    by (apply (Qlt_le_trans _ _ _ Hlt Hle)).
  assert (Hm : (limit == gridSize * (limit / gridSize))%Q) by (field; lra).
  assert (Hlim : (limit < gridSize * inject_Z (Z.of_nat fuel))%Q).
  { rewrite Hm at 1. apply Qmult_lt_l; assumption. }
  lra.
Qed.

(** X24.  With a loaded image and a positive zoom the preview finishes
    drawing, and after the background (the image and, when shown, the grid)
    it makes for the layers the very calls an export at a scale equal to the
    zoom makes, in the same order: same alpha, font, colour, alignment,
    translation, rotation and text.  The only differences are that the export
    names the default baseline, and that the preview measures each text and
    frames the selected layer.  So the texts of a resolved export at that
    scale are the texts on the preview, from bottom to top.  Without a loaded
    image or a context the preview draws nothing. *)
Theorem preview_draws_layers_as_export_does :
  forall (measureText : MeasureCtx) (canvasWidth canvasHeight zoom dashOffset : Q)
         (showGrid : bool) (selected : option string) (img : string)
         (cs : CanvasState),
    (0 < zoom)%Q ->
    let sorted := JS.sort by_zIndex (textLayers cs) in
    let layerCalls :=
      flat_map (drawPreviewLayer measureText zoom dashOffset selected) sorted in
    (exists enough : nat,
        forall fuel, (enough <= fuel)%nat ->
          exists background,
            drawCanvas fuel true (Some img) measureText canvasWidth canvasHeight
              zoom dashOffset showGrid selected cs
            = Some (background ++ layerCalls) /\
            textsDrawn (sharedCalls background) = [] /\
            forall options st calls ctx imageLoads,
              canvasState st = cs -> scale options = zoom ->
              handleExport ctx imageLoads options st = Resolved calls ->
              (exists header encode,
                  calls = header ++ flat_map (drawLayer zoom) sorted ++ [encode]) /\
              textsDrawn (sharedCalls (background ++ layerCalls))
              = textsDrawn calls) /\
    sharedCalls layerCalls = withoutBaseline (flat_map (drawLayer zoom) sorted) /\
    (forall fuel ctx,
        drawCanvas fuel ctx None measureText canvasWidth canvasHeight zoom
          dashOffset showGrid selected cs = Some [] /\
        drawCanvas fuel false (Some img) measureText canvasWidth canvasHeight zoom
          dashOffset showGrid selected cs = Some []).
Proof.
  intros measureText canvasWidth canvasHeight zoom dashOffset showGrid selected img
    cs Hzoom sorted layerCalls.
  assert (Hshared : sharedCalls layerCalls
                    = withoutBaseline (flat_map (drawLayer zoom) sorted))
    by apply previewLayers_shared.
  assert (Hg : (0 < 20 * zoom)%Q) by lra.
  split; [|split; [exact Hshared|intros fuel ctx; split; reflexivity]].
  destruct (gridLoop_fuel canvasWidth Hg) as [n1 H1].
  destruct (gridLoop_fuel canvasHeight Hg) as [n2 H2].
  exists (Datatypes.S (Nat.max n1 n2)). intros fuel Hfuel.
  destruct fuel as [|fuel]; [lia|].
  assert (Hgrid : exists grid,
             (if showGrid then drawGrid (Datatypes.S fuel) canvasWidth canvasHeight zoom
              else Some []) = Some grid /\
             textsDrawn (sharedCalls grid) = []).
  { destruct showGrid; [|exists []; split; reflexivity].
    unfold drawGrid.
    destruct (@gridLoop_ends
                (fun x => [BeginPath; MoveTo x 0; LineTo x canvasHeight; Stroke])
                canvasWidth (20 * zoom) Hg (fun _ => eq_refl) fuel 0)
      as [vertical [Ev Hv]]; [apply H1; lia|].
    destruct (@gridLoop_ends
                (fun y => [BeginPath; MoveTo 0 y; LineTo canvasWidth y; Stroke])
                canvasHeight (20 * zoom) Hg (fun _ => eq_refl) fuel 0)
      as [horizontal [Eh Hh]]; [apply H2; lia|].
    rewrite Ev, Eh. eexists. split; [reflexivity|].
    rewrite !sharedCalls_app, Hv, Hh. reflexivity. }
  destruct Hgrid as [grid [Egrid Hgt]].
  exists ([ClearRect 0 0 canvasWidth canvasHeight;
           Ctx (DrawImage img 0 0 canvasWidth canvasHeight)] ++ grid).
  assert (Hback : textsDrawn
                    (sharedCalls
                       ([ClearRect 0 0 canvasWidth canvasHeight;
                         Ctx (DrawImage img 0 0 canvasWidth canvasHeight)] ++ grid))
                  = []) by (rewrite sharedCalls_app; cbn; exact Hgt).
  split; [|split; [exact Hback|]].
  - unfold drawCanvas. cbn [negb]. rewrite Egrid. rewrite <- app_assoc. reflexivity.
  - intros options st calls ctx imageLoads Hcs Hscale Hexp.
    rewrite sharedCalls_app, textsDrawn_app, Hback, Hshared, withoutBaseline_texts.
    cbn [app]. rewrite layers_texts.
    unfold handleExport in Hexp. rewrite Hcs in Hexp.
    destruct (image cs) as [src|]; [|discriminate].
    destruct (negb ctx || negb (JS.truthy (Some src))); [discriminate|].
    destruct imageLoads; [|discriminate].
    injection Hexp as <-. rewrite Hscale. split.
    + eexists [_; _; _; _]. eexists. reflexivity.
    + cbn [textsDrawn].
      rewrite textsDrawn_app, layers_texts. cbn [textsDrawn]. rewrite app_nil_r.
      reflexivity.
Qed.

Lemma preview_draws_layers_as_export_does_witness :
  let cs := Sample.doc in
  sharedCalls
    (flat_map (drawPreviewLayer Sample.measureText 2 0 (Some "i"%string))
       (JS.sort by_zIndex (textLayers cs)))
  = withoutBaseline (flat_map (drawLayer 2) (JS.sort by_zIndex (textLayers cs))) /\
  drawCanvas 0 true None Sample.measureText 800 600 2 0 true None cs = Some [].
Proof.
  intros cs.
  destruct (@preview_draws_layers_as_export_does Sample.measureText 800 600 2 0 true
              (Some "i"%string) "data" cs eq_refl) as [_ [H _]].
  split; [exact H|reflexivity].
Defined.

(** ** One key press, both listeners *)

Lemma canvasKeyDown_ok showGrid e loc st :
  app_ok st -> app_ok (canvasKeyDown showGrid e loc st).
Proof.
  intros Hok. unfold canvasKeyDown.
  destruct (JS.truthy (editingLayerId loc)); [exact Hok|].
  destruct (e_inField e); [exact Hok|].
  destruct (selectedId loc) as [sel|]; [|exact Hok].
  destruct (negb (JS.truthy (Some sel))); [exact Hok|].
  destruct (arrowDirection (e_key e)) as [d|].
  - unfold nudgeLayer. destruct (JS.find _ _); [|exact Hok].
    apply commit_ok, Hok.
  - destruct (String.eqb (e_key e) "r" || String.eqb (e_key e) "R").
    + destruct (JS.find _ _); [|exact Hok]. apply commit_ok, Hok.
    + destruct (String.eqb (e_key e) "0"); [|exact Hok]. apply commit_ok, Hok.
Qed.

(** The keys the canvas acts on. *)
Lemma canvasKeyDown_keys showGrid e loc st :
  canvasKeyDown showGrid e loc st = st \/
  (e_inField e = false /\
   In (e_key e)
     ["ArrowUp"; "ArrowDown"; "ArrowLeft"; "ArrowRight"; "r"; "R"; "0"]%string).
Proof.
  unfold canvasKeyDown.
  destruct (JS.truthy (editingLayerId loc)); [left; reflexivity|].
  destruct (e_inField e); [left; reflexivity|].
  destruct (selectedId loc) as [sel|]; [|left; reflexivity].
  destruct (negb (JS.truthy (Some sel))); [left; reflexivity|].
  unfold arrowDirection.
  destruct (String.eqb_spec (e_key e) "ArrowUp") as [K|_];
    [right; split; [reflexivity|rewrite K; cbn; tauto]|].
  destruct (String.eqb_spec (e_key e) "ArrowDown") as [K|_];
    [right; split; [reflexivity|rewrite K; cbn; tauto]|].
  destruct (String.eqb_spec (e_key e) "ArrowLeft") as [K|_];
    [right; split; [reflexivity|rewrite K; cbn; tauto]|].
  destruct (String.eqb_spec (e_key e) "ArrowRight") as [K|_];
    [right; split; [reflexivity|rewrite K; cbn; tauto]|].
  destruct (String.eqb_spec (e_key e) "r") as [K|_];
    [right; split; [reflexivity|rewrite K; cbn; tauto]|].
  destruct (String.eqb_spec (e_key e) "R") as [K|_];
    [right; split; [reflexivity|rewrite K; cbn; tauto]|].
  destruct (String.eqb_spec (e_key e) "0") as [K|_];
    [right; split; [reflexivity|rewrite K; cbn; tauto]|].
  left. reflexivity.
Qed.

(** On these keys the page leaves the document alone, and sets the zoom on
    [0] only. *)
Lemma handleKeyDown_canvas_keys newId e zoom st :
  e_inField e = false ->
  In (e_key e)
    ["ArrowUp"; "ArrowDown"; "ArrowLeft"; "ArrowRight"; "r"; "R"; "0"]%string ->
  handleKeyDown newId e zoom st
    = Some (st, if String.eqb (e_key e) "0" then 1%Q else zoom).
Proof.
  intros Hfield Hin. unfold handleKeyDown. rewrite Hfield.
  assert (Hst : forall b : bool,
             match selectedLayerId (canvasState st) with
             | Some sel =>
                 if JS.truthy (Some sel) && (false || false && b)
                 then handleDeleteLayer sel st else st
             | None => st
             end = st).
  { intros b. destruct (selectedLayerId (canvasState st)) as [sel|]; [|reflexivity].
    rewrite andb_false_r. reflexivity. }
  cbn [In] in Hin.
  destruct Hin as [K|[K|[K|[K|[K|[K|[K|[]]]]]]]]; rewrite <- K;
    cbn [String.eqb Ascii.eqb Bool.eqb andb orb];
    rewrite ?andb_false_r; cbn [orb];
    destruct (selectedLayerId (canvasState st)) as [sel|];
    rewrite ?andb_false_r; reflexivity.
Qed.

(** X19.  One key press runs the listener of the canvas and the listener
    of the page.  Together they always return, keep the history in step and
    the zoom between 0.1 and 3, and do nothing while the user types in a
    field.  On every key but [0] they change the document or the zoom, never
    both.  The key [0] sets the zoom to 1 and, when a layer is selected on
    the canvas and no text is being edited, also sets the rotation of that
    layer to 0 and records it.  Delete and Backspace remove the selected
    layer and clear the selection; Ctrl+D without a selection changes
    nothing; zooming in at 3 or out at 0.1 keeps the zoom. *)
Theorem key_press_runs_canvas_and_page_listeners :
  forall (showGrid : bool) (newId : string) (e : KeyboardEvent)
         (loc : CanvasLocal) (zoom : Q) (st : AppState),
    app_ok st -> (1 # 10 <= zoom)%Q -> (zoom <= 3)%Q ->
    exists st' zoom',
      keyDown showGrid newId e loc zoom st = Some (st', zoom') /\
      app_ok st' /\ (1 # 10 <= zoom')%Q /\ (zoom' <= 3)%Q /\
      (e_inField e = true -> st' = st /\ zoom' = zoom) /\
      (e_key e <> "0"%string -> st' = st \/ zoom' = zoom) /\
      (e_inField e = false -> e_key e = "0"%string ->
       zoom' = 1%Q /\ st' = canvasKeyDown showGrid e loc st /\
       (selectedId loc = None -> st' = st) /\
       (forall sel,
           editingLayerId loc = None -> selectedId loc = Some sel ->
           sel <> EmptyString ->
           textLayers (canvasState st')
             = map (fun l => if String.eqb (l_id l) sel then with_rotation l 0 else l)
                 (textLayers (canvasState st)) /\
           hist st' = record (hist st) (canvasState st'))) /\
      (e_inField e = false ->
       e_key e = "Delete"%string \/ e_key e = "Backspace"%string ->
       forall sel,
         selectedLayerId (canvasState st) = Some sel -> sel <> EmptyString ->
         st' = handleDeleteLayer sel st /\
         selectedLayerId (canvasState st') = None /\
         ~ In sel (map l_id (textLayers (canvasState st')))) /\
      (e_inField e = false -> e_ctrlKey e = true -> e_key e = "d"%string ->
       selectedLayerId (canvasState st) = None -> st' = st) /\
      (zoomIn 3 == 3)%Q /\ (zoomOut (1 # 10) == 1 # 10)%Q.
Proof.
  intros showGrid newId e loc zoom st Hok Hlo Hhi. unfold keyDown.
  assert (Hzero : e_inField e = false -> e_key e = "0"%string ->
                  forall sel,
                    editingLayerId loc = None -> selectedId loc = Some sel ->
                    sel <> EmptyString ->
                    textLayers (canvasState (canvasKeyDown showGrid e loc st))
                    = map (fun l => if String.eqb (l_id l) sel
                                    then with_rotation l 0 else l)
                        (textLayers (canvasState st)) /\
                    hist (canvasKeyDown showGrid e loc st)
                    = record (hist st)
                        (canvasState (canvasKeyDown showGrid e loc st))).
  { intros Hfield Hkey sel Hedit Hsel Hne. unfold canvasKeyDown.
    rewrite Hedit, Hfield, Hsel, Hkey. cbn [JS.truthy].
    destruct (String.eqb_spec sel EmptyString) as [E|_]; [contradiction|].
    cbn. split; reflexivity. }
  assert (Hnosel : selectedId loc = None -> canvasKeyDown showGrid e loc st = st).
  { intros Hsel. unfold canvasKeyDown. rewrite Hsel.
    destruct (JS.truthy _); [reflexivity|]. destruct (e_inField e); reflexivity. }
  destruct (canvasKeyDown_keys showGrid e loc st) as [Hsame | [Hfield Hin]].
  - rewrite Hsame in *.
    destruct (@handleKeyDown_sound newId e zoom st Hok Hlo Hhi)
      as (st' & zoom' & E & Hok' & Hlo' & Hhi' & Hone & Hf & Hdel & Hdup & Hz).
    exists st', zoom'. split; [exact E|]. split; [exact Hok'|].
    split; [exact Hlo'|]. split; [exact Hhi'|]. split; [exact Hf|].
    split; [intros _; exact Hone|].
    split; [|split; [exact Hdel|split; [exact Hdup|exact Hz]]].
    intros Hfield Hkey.
    rewrite (@handleKeyDown_canvas_keys newId e zoom st Hfield) in E
      by (rewrite Hkey; cbn; tauto).
    rewrite Hkey in E. cbn in E. injection E as <- <-.
    split; [reflexivity|]. split; [reflexivity|]. split; [reflexivity|].
    exact (Hzero Hfield Hkey).
  - rewrite (@handleKeyDown_canvas_keys newId e zoom _ Hfield Hin).
    eexists. eexists. split; [reflexivity|].
    split; [apply canvasKeyDown_ok, Hok|].
    split; [destruct (String.eqb (e_key e) "0"); [discriminate|exact Hlo]|].
    split; [destruct (String.eqb (e_key e) "0"); [discriminate|exact Hhi]|].
    split; [intros H; rewrite H in Hfield; discriminate|].
    split.
    { intros Hkey. right.
      destruct (String.eqb_spec (e_key e) "0") as [K|_]; [contradiction|reflexivity]. }
    split.
    { intros _ Hkey. rewrite Hkey. cbn [String.eqb Ascii.eqb Bool.eqb].
      split; [reflexivity|]. split; [reflexivity|]. split; [exact Hnosel|].
      exact (Hzero Hfield Hkey). }
    split.
    { intros _ Hkey. exfalso. cbn [In] in Hin.
      destruct Hkey as [K|K]; rewrite K in Hin;
        destruct Hin as [H|[H|[H|[H|[H|[H|[H|[]]]]]]]]; discriminate H. }
    split.
    { intros _ _ Hkey. exfalso. cbn [In] in Hin. rewrite Hkey in Hin.
      destruct Hin as [H|[H|[H|[H|[H|[H|[H|[]]]]]]]]; discriminate H. }
    destruct (@handleKeyDown_sound newId e zoom st Hok Hlo Hhi)
      as (_ & _ & _ & _ & _ & _ & _ & _ & _ & _ & Hz).
    exact Hz.
Qed.

Lemma key_press_runs_canvas_and_page_listeners_witness :
  let e := mkKeyboardEvent "0" false false false false in
  let loc := mkCanvasLocal (Some "i"%string) false (0, 0)%Q None EmptyString in
  let turned := with_rotation Sample.layerA 30 in
  let st :=
    mkAppState
      (mkCanvasState (Some "data"%string) 400 300 [turned] (Some "i"%string))
      properties
      (mkHistory
         [mkCanvasState (Some "data"%string) 400 300 [turned] (Some "i"%string)] 0) in
  exists st' zoom',
    keyDown false "n" e loc 2 st = Some (st', zoom') /\
    zoom' = 1%Q /\
    textLayers (canvasState st') = [with_rotation Sample.layerA 0] /\
    JS.len (history (hist st')) = 2.
Proof.
  intros e loc turned st.
  assert (Hok : app_ok st).
  { split.
    - unfold MAX_HISTORY_STEPS, JS.len. simpl. lia.
    - right. left. split; [unfold JS.len; simpl; lia | reflexivity]. }
  destruct (@key_press_runs_canvas_and_page_listeners false "n" e loc 2 st Hok)
    as (st' & zoom' & E & _ & _ & _ & _ & _ & Hzero & _); [lra|lra|].
  destruct (Hzero eq_refl eq_refl) as (Hz & _ & _ & Hrot).
  destruct (Hrot "i"%string eq_refl eq_refl) as [Hl Hh]; [discriminate|].
  exists st', zoom'. split; [exact E|]. split; [exact Hz|].
  split; [rewrite Hl; reflexivity|].
  rewrite Hh. reflexivity.
Defined.

(** ** The hide and show switch *)

Lemma find_holds {A} (p : A -> bool) l a : JS.find p l = Some a -> p a = true.
Proof. unfold JS.find. intros H. apply find_some in H. apply H. Qed.

Lemma find_same {A} (p q : A -> bool) l :
  (forall a, p a = q a) -> JS.find p l = JS.find q l.
Proof.
  intros H. unfold JS.find. induction l as [|a l IH]; [reflexivity|].
  cbn [List.find]. rewrite H, IH. reflexivity.
Qed.

Lemma flip_isVisible_back layer :
  spread (spread layer (upd_isVisible (negb (l_isVisible layer))))
    (upd_isVisible (l_isVisible layer)) = layer.
Proof. destruct layer as []. cbn. reflexivity. Qed.

Lemma toggleVisibility_once st layer :
  selectedLayer (canvasState st) = Some layer ->
  let flipped :=
    map (fun l => if String.eqb (l_id l) (l_id layer)
                  then spread l (upd_isVisible (negb (l_isVisible layer))) else l)
      (textLayers (canvasState st)) in
  canvasState (toggleVisibility st)
    = mkCanvasState (image (canvasState st)) (imageWidth (canvasState st))
        (imageHeight (canvasState st)) flipped (selectedLayerId (canvasState st)) /\
  hist (toggleVisibility st)
    = record (hist st) (canvasState (toggleVisibility st)) /\
  selectedLayer (canvasState (toggleVisibility st))
    = Some (spread layer (upd_isVisible (negb (l_isVisible layer)))).
Proof.
  intros Hsel flipped.
  destruct (selectedLayer_found _ Hsel) as (sel & Hid & Hne & Hin & Hl).
  unfold toggleVisibility. rewrite Hsel.
  destruct (@handleUpdateLayerFrom_layers (historyIndex (hist st))
              (upd_isVisible (negb (l_isVisible layer))) st sel Hid Hne)
    as [Hcs Hh].
  fold (handleUpdateLayer (upd_isVisible (negb (l_isVisible layer))) st) in Hcs, Hh.
  subst flipped. rewrite Hl.
  split; [exact Hcs|]. split; [exact Hh|].
  rewrite Hcs. unfold selectedLayer. cbn [selectedLayerId textLayers].
  rewrite Hid. cbn [JS.truthy].
  destruct (String.eqb_spec sel EmptyString) as [E|_]; [contradiction|].
  cbn [negb]. rewrite find_map.
  assert (Hfind : JS.find (fun l => String.eqb (l_id l) sel)
                    (textLayers (canvasState st)) = Some layer).
  { unfold selectedLayer in Hsel. rewrite Hid in Hsel. cbn [JS.truthy] in Hsel.
    destruct (String.eqb_spec sel EmptyString) as [E|_]; [contradiction|].
    exact Hsel. }
  rewrite (@find_same _ _ (fun l => String.eqb (l_id l) sel)).
  - rewrite Hfind. cbn [option_map]. rewrite <- Hl, String.eqb_refl. reflexivity.
  - intros l. destruct (String.eqb (l_id l) sel) eqn:E; [|exact E].
    destruct l; exact E.
Qed.

(** X21.  The eye switch of the properties panel, shown when a layer is
    selected, sets [isVisible] of every layer with the selected id to the
    opposite of what the selected layer has, leaves the other layers, the
    order and the selection alone, and records the step.  A layer that is
    not visible is drawn neither by the export nor by the preview and is
    never hit on the canvas, so the layer just hidden cannot be clicked.
    With distinct layer ids a second press gives back the document exactly
    as it was, opacity included, and is recorded as well. *)
Theorem visibility_switch_toggles_and_restores :
  forall (st : AppState) (layer : TextLayer),
    let cs := canvasState st in
    selectedLayer cs = Some layer ->
    let st1 := toggleVisibility st in
    let st2 := toggleVisibility st1 in
    let flip (l : TextLayer) :=
      if String.eqb (l_id l) (l_id layer)
      then spread l (upd_isVisible (negb (l_isVisible layer))) else l in
    textLayers (canvasState st1) = map flip (textLayers cs) /\
    selectedLayerId (canvasState st1) = selectedLayerId cs /\
    selectedLayer (canvasState st1) = Some (flip layer) /\
    l_isVisible (flip layer) = negb (l_isVisible layer) /\
    l_opacity (flip layer) = l_opacity layer /\
    hist st1 = record (hist st) (canvasState st1) /\
    (forall l, l_isVisible l = false ->
               (forall s, drawLayer s l = []) /\
               (forall measureText zoom dashOffset selected,
                   drawPreviewLayer measureText zoom dashOffset selected l = []) /\
               (forall tempCtx x y, hits tempCtx x y l = false)) /\
    (l_isVisible layer = true ->
     forall tempCtx x y hit,
       findLayerAtPosition tempCtx (canvasState st1) x y = Some hit ->
       l_id hit <> l_id layer) /\
    (NoDup (map l_id (textLayers cs)) ->
     canvasState st2 = cs /\ hist st2 = record (hist st1) cs).
Proof.
  intros st layer cs Hsel st1 st2 flip.
  destruct (toggleVisibility_once st Hsel) as (Hcs1 & Hh1 & Hsel1).
  fold st1 cs in Hcs1, Hh1, Hsel1. fold flip in Hcs1.
  assert (Hflip : flip layer
                  = spread layer (upd_isVisible (negb (l_isVisible layer)))).
  { unfold flip. rewrite String.eqb_refl. reflexivity. }
  split; [rewrite Hcs1; reflexivity|].
  split; [rewrite Hcs1; reflexivity|].
  split; [rewrite Hflip; exact Hsel1|].
  split; [rewrite Hflip; reflexivity|].
  split; [rewrite Hflip; reflexivity|].
  split; [exact Hh1|].
  split; [|split].
  - intros l Hl. split; [|split].
    + intros s. unfold drawLayer. rewrite Hl, andb_false_r. reflexivity.
    + intros measureText zoom dashOffset selected. unfold drawPreviewLayer.
      rewrite Hl, andb_false_r. reflexivity.
    + intros [m|] x y; [|reflexivity]. unfold hits.
      rewrite Hl, andb_false_r. reflexivity.
  - intros Hvis tempCtx x y hit Hfind Hid.
    unfold findLayerAtPosition in Hfind.
    pose proof (find_holds _ _ Hfind) as Hhit.
    destruct (find_first _ _ Hfind) as [above [below [E _]]].
    assert (Hin : In hit (textLayers (canvasState st1))).
    { apply (Permutation_in _ (sort_perm by_zIndex_desc (textLayers (canvasState st1)))).
      rewrite E. apply in_or_app. right. left. reflexivity. }
    rewrite Hcs1 in Hin. cbn [textLayers] in Hin.
    apply in_map_iff in Hin. destruct Hin as [l [El Hl]].
    unfold flip in El. destruct (String.eqb (l_id l) (l_id layer)) eqn:Eid.
    + subst hit. rewrite Hvis in Hhit.
      destruct tempCtx; [|discriminate].
      unfold hits in Hhit.
      change (l_isVisible (spread l (upd_isVisible (negb true)))) with false in Hhit.
      rewrite andb_false_r in Hhit. discriminate.
    + subst hit. apply String.eqb_neq in Eid. contradiction.
  - intros Hnd.
    destruct (toggleVisibility_once st1 Hsel1) as (Hcs2 & Hh2 & _).
    fold st2 in Hcs2, Hh2.
    assert (Hback : canvasState st2 = cs).
    { rewrite Hcs2, Hcs1.
      cbn [image imageWidth imageHeight textLayers selectedLayerId].
      rewrite map_map.
      assert (Hmap : map
                (fun x =>
                   if String.eqb (l_id (flip x))
                        (l_id (spread layer
                                 (upd_isVisible (negb (l_isVisible layer)))))
                   then spread (flip x)
                          (upd_isVisible
                             (negb (l_isVisible
                                      (spread layer
                                         (upd_isVisible
                                            (negb (l_isVisible layer)))))))
                   else flip x)
                (textLayers cs) = textLayers cs).
      { rewrite <- (map_id (textLayers cs)) at 2. apply map_ext_in.
        intros l Hl. unfold flip.
        destruct (String.eqb (l_id l) (l_id layer)) eqn:Eid.
        - assert (l = layer).
          { destruct (selectedLayer_found _ Hsel) as (sel & Hid & Hne & _ & Hlid).
            unfold selectedLayer in Hsel. fold cs in Hid. rewrite Hid in Hsel.
            cbn [JS.truthy] in Hsel.
            destruct (String.eqb_spec sel EmptyString) as [E|_]; [contradiction|].
            cbn [negb] in Hsel.
            apply (@unique_by_id (textLayers cs) sel layer l Hnd Hsel Hl).
            apply String.eqb_eq in Eid. congruence. }
          subst l.
          change (l_id (spread layer (upd_isVisible (negb (l_isVisible layer)))))
            with (l_id layer).
          rewrite String.eqb_refl.
          change (l_isVisible
                    (spread layer (upd_isVisible (negb (l_isVisible layer)))))
            with (negb (l_isVisible layer)).
          rewrite negb_involutive. apply flip_isVisible_back.
        - change (l_id (spread layer (upd_isVisible (negb (l_isVisible layer)))))
            with (l_id layer).
          rewrite Eid. reflexivity. }
      rewrite Hmap. subst cs. destruct (canvasState st). reflexivity. }
    split; [exact Hback|]. rewrite Hh2, Hback. reflexivity.
Qed.

Lemma visibility_switch_toggles_and_restores_witness :
  let faint :=
    spread Sample.layerA
      (mkPartialTextLayer None None None None None None None None None None None
         (Some (1 # 2)%Q) None None None None None None None None None None None
         None) in
  let cs := mkCanvasState (Some "data"%string) 400 300 [faint] (Some "i"%string) in
  let st := mkAppState cs properties (mkHistory [cs] 0) in
  map l_isVisible (textLayers (canvasState (toggleVisibility st))) = [false] /\
  canvasState (toggleVisibility (toggleVisibility st)) = cs /\
  JS.len (history (hist (toggleVisibility (toggleVisibility st)))) = 3.
Proof.
  intros faint cs st.
  destruct (@visibility_switch_toggles_and_restores st faint eq_refl)
    as (Hl & _ & _ & _ & _ & _ & _ & _ & Hback).
  split; [rewrite Hl; reflexivity|].
  destruct Hback as [Hcs Hh].
  - cbn. repeat constructor. intros [].
  - split; [exact Hcs|]. rewrite Hh. reflexivity.
Defined.

(** ** Z-indexes after a structural operation *)

Lemma contiguous_exactly layers : contiguous layers -> exactly_0_to_N layers.
Proof. unfold contiguous, exactly_0_to_N. intros ->. apply Permutation_refl. Qed.










(** ** Selection changes in the history *)

(** A selection change records the whole document with the new selection as
    the last entry of the history, whatever render the handler comes from;
    called from the current render it records as [record] does, and an undo
    shows the document of before the selection. *)
Lemma handleSelectLayer_records :
  forall (st : AppState) (layerId : option string),
    app_ok st ->
    let newState :=
      mkCanvasState (image (canvasState st)) (imageWidth (canvasState st))
        (imageHeight (canvasState st)) (textLayers (canvasState st)) layerId in
    (forall closureIndex,
        -1 <= closureIndex ->
        let st' := handleSelectLayerFrom closureIndex layerId st in
        canvasState st' = newState /\
        JS.index (history (hist st')) (JS.len (history (hist st')) - 1)
          = Some newState /\
        JS.len (history (hist st')) <= 20) /\
    (let st' := handleSelectLayer layerId st in
     canvasState st' = newState /\
     hist st' = record (hist st) newState /\
     JS.index (history (hist st')) (historyIndex (hist st')) = Some newState /\
     JS.len (history (hist st'))
       = Z.min 20
           (Z.min (historyIndex (hist st) + 1) (JS.len (history (hist st))) + 1) /\
     (history (hist st) <> [] ->
      exists st1, undo st' = Some st1 /\ canvasState st1 = canvasState st)).
Proof.
  intros st layerId Hok newState.
  destruct (app_ok_cursor Hok) as [Hc Hl].
  split.
  - intros closureIndex Hci st'.
    assert (Hst' : canvasState st' = newState /\
                   hist st' = addToHistory closureIndex newState (hist st)).
    { subst st'. unfold handleSelectLayerFrom. fold newState.
      destruct (JS.truthy layerId); split; reflexivity. }
    destruct Hst' as [Hcs Hh]. rewrite Hh.
    destruct (@addToHistory_shape _ closureIndex (hist st) newState)
      as (Hlen & _ & Hlast); try lia.
    unfold MAX_HISTORY_STEPS in *.
    split; [exact Hcs|]. split; [exact Hlast | lia].
  - intros st'.
    assert (Hst' : st' = commit st newState \/
                   st' = setActiveTab properties (commit st newState)).
    { subst st'. unfold handleSelectLayer, handleSelectLayerFrom. fold newState.
      fold (commit st newState).
      destruct (JS.truthy layerId); [right | left]; reflexivity. }
    assert (Hcs : canvasState st' = newState /\
                  hist st' = hist (commit st newState)).
    { destruct Hst' as [-> | ->]; split; reflexivity. }
    destruct Hcs as [Hcs Hh].
    destruct (commit_ok newState Hok) as [_ Hsync].
    destruct (@addToHistory_shape _ (historyIndex (hist st)) (hist st) newState)
      as (Hlen & _ & Hlast); try lia.
    change (addToHistory (historyIndex (hist st)) newState (hist st))
      with (hist (commit st newState)) in Hlen, Hlast.
    rewrite Hh. unfold MAX_HISTORY_STEPS in *.
    split; [exact Hcs|]. split; [reflexivity|].
    split; [rewrite Hsync; exact Hlast|]. split; [lia|].
    intros Hne. destruct (undo_commit newState Hok Hne) as [st1 [Hu Hd]].
    destruct Hst' as [-> | ->].
    + exists st1. split; assumption.
    + exists (setActiveTab properties st1). split.
      * rewrite undo_setActiveTab, Hu. reflexivity.
      * exact Hd.
Qed.

Lemma index_In {A} (a : list A) (i : Z) (s : A) : JS.index a i = Some s -> In s a.
Proof.
  unfold JS.index. destruct (i <? 0); [discriminate|]. apply nth_error_In.
Qed.

(** Undos show the document on screen or entries of the history, and leave
    the array as it is. *)
Lemma undos_show_entries k st st' :
  undos k st = Some st' ->
  history (hist st') = history (hist st) /\
  (canvasState st' = canvasState st \/ In (canvasState st') (history (hist st))).
Proof.
  revert st; induction k as [|k IH]; intros st H.
  - injection H as <-. split; [reflexivity|left; reflexivity].
  - cbn [undos] in H. destruct (undo st) as [st1|] eqn:Hu; [|discriminate].
    destruct (IH _ H) as [Hh Hd].
    assert (H1 : history (hist st1) = history (hist st) /\
                 (canvasState st1 = canvasState st \/
                  In (canvasState st1) (history (hist st)))).
    { unfold undo in Hu. destruct (_ >? 0).
      - destruct (JS.index _ _) as [s|] eqn:Hs; [|discriminate].
        injection Hu as <-. split; [reflexivity|].
        right. exact (index_In _ _ Hs).
      - injection Hu as <-. split; [reflexivity|left; reflexivity]. }
    destruct H1 as [Hh1 Hd1]. split; [congruence|].
    destruct Hd as [Hd|Hd].
    + rewrite Hd. exact Hd1.
    + right. rewrite <- Hh1. exact Hd.
Qed.

(** A double click that adds a layer, from a history with the cursor on its
    last entry and two free places. *)
Lemma handleDoubleClick_records tempCtx showGrid pos newId loc st :
  historyIndex (hist st) = JS.len (history (hist st)) - 1 ->
  JS.len (history (hist st)) + 2 <= MAX_HISTORY_STEPS ->
  findLayerAtPosition tempCtx (canvasState st) (fst pos) (snd pos) = None ->
  JS.truthy (image (canvasState st)) = true ->
  let st' := snd (handleDoubleClick tempCtx showGrid pos newId loc st) in
  selectedLayerId (canvasState st') = Some newId /\
  history (hist st') = history (hist st) ++ [canvasState st'] /\
  historyIndex (hist st') = JS.len (history (hist st')).
Proof.
  intros Hi Hl Hnone Himg st'. subst st'.
  unfold handleDoubleClick. rewrite Hnone, Himg.
  cbn [snd]. unfold handleSelectLayerFrom, updateCanvas, commit.
  set (s1 := spreadCanvas (canvasState st) _).
  destruct (JS.truthy (Some _));
    cbn [setActiveTab commitFrom canvasState hist selectedLayerId textLayers image
         imageWidth imageHeight];
    (split; [reflexivity|]);
    exact (@second_record_of_a_render _ (hist st) s1 _ Hi Hl).
Qed.

(** [C10] Selecting a layer or clearing the selection.  Called first in
    an event, [handleSelectLayer] records as any mutation does: the whole
    document with the new selection is appended after the cursor (the oldest
    entry leaving when that makes 21), the cursor is on it, and an undo shows
    the document of before the selection.  From whatever render it is
    called, the new document is the last entry and the history stays within
    20 places.  The selection of the layer that a double click adds is
    recorded second in its event, through a callback that closed over the
    cursor of before the event: the entry takes the place of the one recorded
    for the new layer instead of a place of its own, the cursor ends one
    past the last entry, and no number of undos shows the document with the
    new layer not yet selected: the first undo shows the document already on
    screen, the next ones entries of before the double click.  So it is
    after an upload and a double click at [(50, 50)]. *)
Theorem selection_change_is_recorded :
  (forall (st : AppState) (layerId : option string),
      app_ok st ->
      let newState :=
        mkCanvasState (image (canvasState st)) (imageWidth (canvasState st))
          (imageHeight (canvasState st)) (textLayers (canvasState st)) layerId in
      (forall closureIndex,
          -1 <= closureIndex ->
          let st' := handleSelectLayerFrom closureIndex layerId st in
          canvasState st' = newState /\
          JS.index (history (hist st')) (JS.len (history (hist st')) - 1)
            = Some newState /\
          JS.len (history (hist st')) <= 20) /\
      (let st' := handleSelectLayer layerId st in
       canvasState st' = newState /\
       hist st' = record (hist st) newState /\
       JS.index (history (hist st')) (historyIndex (hist st')) = Some newState /\
       JS.len (history (hist st'))
         = Z.min 20
             (Z.min (historyIndex (hist st) + 1) (JS.len (history (hist st))) + 1) /\
       (history (hist st) <> [] ->
        exists st1, undo st' = Some st1 /\ canvasState st1 = canvasState st))) /\
  (forall tempCtx showGrid pos newId loc (st : AppState),
      historyIndex (hist st) = JS.len (history (hist st)) - 1 ->
      JS.len (history (hist st)) + 2 <= 20 ->
      findLayerAtPosition tempCtx (canvasState st) (fst pos) (snd pos) = None ->
      JS.truthy (image (canvasState st)) = true ->
      let st' := snd (handleDoubleClick tempCtx showGrid pos newId loc st) in
      let unselected :=
        mkCanvasState (image (canvasState st')) (imageWidth (canvasState st'))
          (imageHeight (canvasState st')) (textLayers (canvasState st'))
          (selectedLayerId (canvasState st)) in
      selectedLayerId (canvasState st') = Some newId /\
      history (hist st') = history (hist st) ++ [canvasState st'] /\
      JS.len (history (hist st'))
        = JS.len (history (hist (updateCanvas
                                   (only_textLayers (textLayers (canvasState st')))
                                   st))) /\
      historyIndex (hist st') = JS.len (history (hist st')) /\
      option_map canvasState (undo st') = Some (canvasState st') /\
      (selectedLayerId (canvasState st) <> Some newId ->
       ~ In unselected (history (hist st)) ->
       forall k st'', undos k st' = Some st'' -> canvasState st'' <> unselected)) /\
  (let st0 := handleImageUpload "data" 400 300 initialApp in
   let st := snd (Sample.doubleClickGesture (50, 50)%Q "i" Sample.idle st0) in
   let unselected :=
     mkCanvasState (Some "data"%string) 400 300 [createDefaultTextLayer "i" 50 50]
       None in
   canvasState st
     = mkCanvasState (Some "data"%string) 400 300 [createDefaultTextLayer "i" 50 50]
         (Some "i"%string) /\
   history (hist st)
     = [canvasState st0; canvasState st0; canvasState st0; canvasState st] /\
   ~ In unselected (history (hist st)) /\
   option_map canvasState (undo st) = Some (canvasState st) /\
   forall k st', undos k st = Some st' -> canvasState st' <> unselected).
Proof.
  split; [|split].
  - intros st layerId Hok. exact (@handleSelectLayer_records st layerId Hok).
  - intros tempCtx showGrid pos newId loc st Hi Hl Hnone Himg st' unselected.
    destruct (@handleDoubleClick_records tempCtx showGrid pos newId loc st
                Hi Hl Hnone Himg) as (Hsel & Hh & Hc).
    fold st' in Hsel, Hh, Hc.
    pose proof (len_nonneg (history (hist st))) as Hn.
    assert (Hlen : JS.len (history (hist st')) = JS.len (history (hist st)) + 1).
    { rewrite Hh, len_app. reflexivity. }
    assert (Hundo : option_map canvasState (undo st') = Some (canvasState st')).
    { unfold undo. rewrite Hc.
      destruct (Z.gtb_spec (JS.len (history (hist st'))) 0) as [_|H]; [|lia].
      rewrite Hh at 1. rewrite Hlen.
      replace (JS.len (history (hist st)) + 1 - 1) with (JS.len (history (hist st)))
        by lia.
      rewrite index_last. reflexivity. }
    split; [exact Hsel|]. split; [exact Hh|].
    split.
    { rewrite Hlen. unfold updateCanvas.
      destruct (@addToHistory_shape _ (historyIndex (hist st)) (hist st)
                  (spreadCanvas (canvasState st)
                     (only_textLayers (textLayers (canvasState st')))))
        as (Hlen1 & _ & _); unfold MAX_HISTORY_STEPS; try lia.
      unfold commit, commitFrom. cbn [hist].
      rewrite Hlen1. unfold MAX_HISTORY_STEPS. lia. }
    split; [exact Hc|]. split; [exact Hundo|].
    intros Hne Hnotin k st'' Hk E.
    destruct (undos_show_entries _ _ Hk) as [_ [Hd|Hd]].
    + rewrite E in Hd. apply Hne. rewrite <- Hsel, <- Hd. reflexivity.
    + rewrite E, Hh in Hd. apply in_app_or in Hd. destruct Hd as [Hd|[Hd|[]]].
      * exact (Hnotin Hd).
      * apply Hne. rewrite <- Hsel, Hd. reflexivity.
  - intros st0 st unselected.
    assert (Hnotin : ~ In unselected (history (hist st))).
    { intros H. cbn in H.
      destruct H as [H|[H|[H|[H|[]]]]]; discriminate H. }
    split; [reflexivity|]. split; [reflexivity|]. split; [exact Hnotin|].
    split; [reflexivity|].
    intros k st' Hk E.
    destruct (undos_show_entries _ _ Hk) as [_ [Hd|Hd]].
    + rewrite E in Hd. discriminate Hd.
    + rewrite E in Hd. exact (Hnotin Hd).
Qed.
